(** * Grid-file loader of BOUT++ (griddata.cxx): a shallow embedding

    The development follows [GridFile] as it is written: the storage
    backend ([DataFormat]) is an interface of virtual methods, modelled as a
    record of functions; the only mutable part of the backend the loader
    touches is the global-origin cursor, which is threaded through every
    call as explicit state; a C++ [throw BoutException] is an outcome of its
    own.

    Conventions.
    - [int] values are integers of [Z]; [/] and [%] of C++ truncate towards
      zero and are [Z.quot] and [Z.rem].  Signed overflow is undefined in
      C++ and is not modelled: extents and offsets of a mesh are small.
    - [BoutReal] values are real numbers of [R]; the loader only moves them
      around, except for [ROUND (TWOPI / zlength)] and the inverse transform.
    - An access outside an array is undefined behaviour in C++ (or a range
      error in checked builds), and so is an integer division by zero;
      both are the outcome [Fault] here. *)

From Stdlib Require Import ZArith List String Bool Lia Reals Lra FinFun.
Import ListNotations.

Local Open Scope Z_scope.

(** ** Outcomes and the loader monad *)

(** The [BoutException]s thrown in griddata.cxx, one constructor per
    [throw] site (the message text carries no further information). *)
Inductive BoutException : Type :=
| CouldNotOpenFile          (* "Could not open file '%s'" *)
| FileCannotBeRead          (* "File cannot be read" *)
| CouldNotReadFromFile      (* "Could not read '%s' from file: File cannot be read" *)
| Expecting2DVariable (n : Z) (* "Expecting a 2D variable, but '%s' is 1D with %d elements" *)
| CouldntRead0D             (* "Couldn't read 0D variable '%s'" *)
| AssertionFailed           (* ASSERT1(...) of a checked build *)
| XGuardsMismatch (g : Z)   (* "number of x-boundary guard cells ..." *)
| YGuardsMismatch (g : Z)   (* "number of y-boundary guard cells ..." *)
| CouldNotFetchData         (* "Could not fetch data for '%s'" *)
| IncorrectSize (got expected : Z) (* "3D variable '%s' has incorrect size %d (expecting %d)" *)
| CouldNotReadFromGrid.     (* "\tWARNING: Could not read '%s' from grid. Setting to zero" *)

Inductive outcome (A : Type) : Type :=
| Ok (a : A)
| Throw (e : BoutException)
| Fault.

Arguments Ok {A} a.
Arguments Throw {A} e.
Arguments Fault {A}.

(** The global-origin cursor of the backend: [setGlobalOrigin(x, y, z)]. *)
Definition Origin : Type := (Z * Z * Z)%type.

Definition origin0 : Origin := (0, 0, 0).

(** A computation of the loader: it runs from a cursor position, ends in an
    outcome and leaves the cursor where the last [setGlobalOrigin] put it,
    also when it throws. *)
Definition M (A : Type) : Type := Origin -> outcome A * Origin.

Definition ret {A} (a : A) : M A := fun c => (Ok a, c).

Definition bind {A B} (m : M A) (k : A -> M B) : M B :=
  fun c =>
    match m c with
    | (Ok a, c') => k a c'
    | (Throw e, c') => (Throw e, c')
    | (Fault, c') => (Fault, c')
    end.

Definition throw {A} (e : BoutException) : M A := fun c => (Throw e, c).

Definition fault {A} : M A := fun c => (Fault, c).

Definition lift {A} (o : outcome A) : M A := fun c => (o, c).

Declare Scope loader_scope.
Delimit Scope loader_scope with loader.

Notation "x <- m ;; k" := (bind m (fun x => k))
  (at level 100, m at next level, right associativity) : loader_scope.
Notation "' pat <- m ;; k" := (bind m (fun x => match x with pat => k end))
  (at level 100, pat pattern, m at next level, right associativity) : loader_scope.
Notation "m ;; k" := (bind m (fun _ => k))
  (at level 100, right associativity) : loader_scope.

Local Open Scope loader_scope.

(** ** The storage backend *)

(** [DataFormat] is an abstract class; the loader calls these methods.  A
    read is relative to the cursor and, when it succeeds, yields the values
    it stored through the destination pointer, in order: element [k] of the
    destination is the value at [k].  [lx], [ly], [lz] are the counts
    passed to [read] (its defaults are [1], [0], [0]). *)
Record DataFormat : Type := {
  openr : string -> bool;
  is_valid : bool;
  getSize : string -> list Z;
  getAttribute : string -> string -> option string;
  read_int : Origin -> string -> Z -> Z -> Z -> option (Z -> Z);
  read_real : Origin -> string -> Z -> Z -> Z -> option (Z -> R)
}.

Definition setGlobalOrigin (x y z : Z) : M unit := fun _ => (Ok tt, (x, y, z)).

Definition file_read_int (f : DataFormat) (name : string) (lx ly lz : Z)
  : M (option (Z -> Z)) :=
  fun c => (Ok (read_int f c name lx ly lz), c).

Definition file_read_real (f : DataFormat) (name : string) (lx ly lz : Z)
  : M (option (Z -> R)) :=
  fun c => (Ok (read_real f c name lx ly lz), c).

(** ** GridFile *)

Record GridFile : Type := {
  file : DataFormat;
  filename : string;
  grid_yguards : Z;
  ny_inner : Z
}.

(** [GridFile::GridFile] *)
Definition GridFile_new (format : DataFormat) (gridfilename : string) : M GridFile :=
  if negb (openr format gridfilename) then throw CouldNotOpenFile
  else
    setGlobalOrigin 0 0 0 ;;
    yg <- file_read_int format "y_boundary_guards" 1 1 0 ;;
    let grid_yguards := match yg with Some d => d 0 | None => 0 end in
    ni <- file_read_int format "ny_inner" 1 1 0 ;;
    let ny_inner := match ni with Some d => d 0 | None => 0 end in
    ret {| file := format; filename := gridfilename;
           grid_yguards := grid_yguards; ny_inner := ny_inner |}.

(** [GridFile::hasVar] *)
Definition hasVar (gf : GridFile) (name : string) : bool :=
  if negb (is_valid (file gf)) then false
  else negb (Nat.eqb (List.length (getSize (file gf) name)) 0).

(** [GridFile::get(Mesh*, std::string&, name)]: the result is the returned
    flag and the value left in [sval].  Strings are attributes of the file;
    the group the attribute is read from is the empty string. *)
Definition get_string (gf : GridFile) (sval : string) (name : string)
  : M (bool * string) :=
  if negb (is_valid (file gf)) then throw FileCannotBeRead
  else
    match getAttribute (file gf) EmptyString name with
    | Some s => ret (true, s)
    | None => ret (false, EmptyString)
    end.

(** [GridFile::get(Mesh*, int&, name)]: on failure [ival] is left as the
    caller passed it. *)
Definition get_int (gf : GridFile) (ival : Z) (name : string) : M (bool * Z) :=
  if negb (is_valid (file gf)) then throw FileCannotBeRead
  else
    r <- file_read_int (file gf) name 1 0 0 ;;
    match r with
    | Some d => ret (true, d 0)
    | None => ret (false, ival)
    end.

(** [GridFile::get(Mesh*, BoutReal&, name)] *)
Definition get_real (gf : GridFile) (rval : R) (name : string) : M (bool * R) :=
  if negb (is_valid (file gf)) then throw FileCannotBeRead
  else
    r <- file_read_real (file gf) name 1 0 0 ;;
    match r with
    | Some d => ret (true, d 0)
    | None => ret (false, rval)
    end.

(** [len] values stored through [&var[0]]: they replace the first [len]
    elements of the vector; a vector shorter than [len] is overrun. *)
Definition store_prefix {A} (d : Z -> A) (len : Z) (var : list A) : outcome (list A) :=
  if Z.of_nat (List.length var) <? len then Fault
  else Ok (map d (map Z.of_nat (seq 0 (Z.to_nat len))) ++ skipn (Z.to_nat len) var).

(** [GridFile::get(Mesh*, std::vector<int>&, name, len, offset, dir)] *)
Definition get_vector_int (gf : GridFile) (var : list Z) (name : string)
    (len offset : Z) : M (bool * list Z) :=
  if negb (is_valid (file gf)) then ret (false, var)
  else
    setGlobalOrigin offset 0 0 ;;
    r <- file_read_int (file gf) name len 0 0 ;;
    match r with
    | None => ret (false, var)
    | Some d =>
        var' <- lift (store_prefix d len var) ;;
        setGlobalOrigin 0 0 0 ;;
        ret (true, var')
    end.

(** [GridFile::get(Mesh*, std::vector<BoutReal>&, name, len, offset, dir)] *)
Definition get_vector_real (gf : GridFile) (var : list R) (name : string)
    (len offset : Z) : M (bool * list R) :=
  if negb (is_valid (file gf)) then ret (false, var)
  else
    setGlobalOrigin offset 0 0 ;;
    r <- file_read_real (file gf) name len 0 0 ;;
    match r with
    | None => ret (false, var)
    | Some d =>
        var' <- lift (store_prefix d len var) ;;
        setGlobalOrigin 0 0 0 ;;
        ret (true, var')
    end.

(** ** The decomposition descriptor and the field handle *)

(** The members of [Mesh] that griddata.cxx reads.  [zlength] is
    [m->getCoordinates(loc)->zlength()]. *)
Record Mesh : Type := {
  LocalNx : Z; LocalNy : Z; LocalNz : Z;
  GlobalNx : Z; GlobalNy : Z;
  xstart : Z; xend : Z; ystart : Z; yend : Z;
  OffsetX : Z; OffsetY : Z;
  numberOfXPoints : Z;
  zlength : R
}.

(** [getField] is a template over [Field2D] and [Field3D]. *)
Inductive FieldKind : Type := Field2D | Field3D.

(** Modelled from the spec: the classes [Field2D] and [Field3D] are not
    under src/.  A field handle is an array over the local subdomain of its
    mesh, addressable by local (x, y, z) index; a [Field2D] has one plane
    ([getNz() = 1]) and its [operator()(x, y, z)] ignores [z].  The handle
    lives on the mesh [m] that is passed to the loader. *)
Definition Field : Type := Z -> Z -> Z -> R.

Definition getNz (K : FieldKind) (m : Mesh) : Z :=
  match K with Field2D => 1 | Field3D => LocalNz m end.

Definition plane (K : FieldKind) (z : Z) : Z :=
  match K with Field2D => 0 | Field3D => z end.

Definition in_field (K : FieldKind) (m : Mesh) (x y z : Z) : bool :=
  (0 <=? x) && (x <? LocalNx m) && (0 <=? y) && (y <? LocalNy m)
  && (0 <=? z) && (z <? getNz K m).

(** [var = value]: every cell is set to one value. *)
Definition fill (v : R) : Field := fun _ _ _ => v.

(** [var(x, y, z)] read *)
Definition fget (K : FieldKind) (m : Mesh) (var : Field) (x y z : Z) : outcome R :=
  if in_field K m x y (plane K z) then Ok (var x y (plane K z)) else Fault.

(** [var(x, y, z) = v] *)
Definition fset (K : FieldKind) (m : Mesh) (var : Field) (x y z : Z) (v : R)
  : outcome Field :=
  if in_field K m x y (plane K z) then
    Ok (fun x' y' z' =>
          if (x' =? x) && (y' =? y) && (z' =? plane K z) then v else var x' y' z')
  else Fault.

(** [n] values stored through [&var(x, yd)] of a [Field2D]: the cells
    (x, yd), ..., (x, yd + n - 1). *)
Definition store_y (m : Mesh) (var : Field) (x yd n : Z) (d : Z -> R) : outcome Field :=
  if n <=? 0 then Ok var
  else if (0 <=? x) && (x <? LocalNx m) && (0 <=? yd) && (yd + n <=? LocalNy m) then
    Ok (fun x' y' z' =>
          if (x' =? x) && (yd <=? y') && (y' <? yd + n) && (z' =? 0)
          then d (y' - yd) else var x' y' z')
  else Fault.

(** [n] values stored through [&var(x, y, 0)] of a [Field3D]: the cells
    (x, y, 0), ..., (x, y, n - 1). *)
Definition store_z (m : Mesh) (var : Field) (x y n : Z) (d : Z -> R) : outcome Field :=
  if n <=? 0 then Ok var
  else if (0 <=? x) && (x <? LocalNx m) && (0 <=? y) && (y <? LocalNy m)
          && (n <=? LocalNz m) then
    Ok (fun x' y' z' =>
          if (x' =? x) && (y' =? y) && (0 <=? z') && (z' <? n)
          then d z' else var x' y' z')
  else Fault.

(** ** Loops *)

(** The indices of [for (i = lo; i < lo + n; i++)]. *)
Definition range (lo n : Z) : list Z :=
  map (fun k => lo + Z.of_nat k) (seq 0 (Z.to_nat n)).

(** A [for] loop whose body updates the field and may throw. *)
Fixpoint for_each (l : list Z) (body : Z -> Field -> M Field) (var : Field) : M Field :=
  match l with
  | [] => ret var
  | i :: l' => var' <- body i var ;; for_each l' body var'
  end.

(** A [for] loop whose body may [return false] from the function: the flag
    of the body says whether the loop goes on. *)
Fixpoint for_each_until (l : list Z) (body : Z -> Field -> M (bool * Field))
    (var : Field) : M (bool * Field) :=
  match l with
  | [] => ret (true, var)
  | i :: l' =>
      r <- body i var ;;
      if fst r then for_each_until l' body (snd r) else ret (false, snd r)
  end.

(** ** The spectral reconstructor *)

Definition dcomplex : Type := (R * R)%type.

(** Modelled from the spec: [TWOPI] of bout/constants.hxx is not under
    src/; it is 2 pi. *)
Definition TWOPI : R := (2 * PI)%R.

(** Modelled from the spec: [ROUND] of utils.hxx is not under src/; it is
    the nearest integer (a half rounds away from zero). *)
Definition ROUND (x : R) : Z :=
  if Rlt_dec 0 x then up (x + / 2) - 1 else 1 - up (/ 2 - x).

(** Modelled from the spec: [irfft] of fft.cxx is not under src/.  It is the
    inverse discrete Fourier transform of the positive-frequency half
    [fdata] of a Hermitian spectrum, giving [n] real samples; sample [k] is
    [re F0 + sum_{i=1}^{n/2} w_i (re Fi cos(2 pi i k / n) - im Fi sin(2 pi i k / n))]
    with [w_i = 2], except [w_{n/2} = 1] for even [n]. *)
Definition irfft_term (n k : Z) (F : dcomplex) (i : Z) : R :=
  ((if 2 * i =? n then 1 else 2)
   * (fst F * cos (2 * PI * IZR i * IZR k / IZR n)
      - snd F * sin (2 * PI * IZR i * IZR k / IZR n)))%R.

Fixpoint irfft_sum (n k : Z) (Fs : list dcomplex) (i : Z) : R :=
  match Fs with
  | [] => 0%R
  | F :: Fs' => (irfft_term n k F i + irfft_sum n k Fs' (i + 1))%R
  end.

Definition irfft (fdata : list dcomplex) (n : Z) : Z -> R :=
  fun k =>
    match fdata with
    | [] => 0%R
    | F0 :: Fs => (fst F0 + irfft_sum n k Fs 1)%R
    end.

(** [Array<BoutReal> zdata(n)] after a successful read of [n] values. *)
Definition array_of (d : Z -> R) (n : Z) : list R := map d (range 0 n).

(** [zdata[i]] *)
Definition zdata_at (zdata : list R) (i : Z) : outcome R :=
  if i <? 0 then Fault
  else match nth_error zdata (Z.to_nat i) with
       | Some v => Ok v
       | None => Fault
       end.

(** [fdata[i]] for [i >= 1]: lines 526-533 of the source. *)
Definition load_mode (zdata : list R) (zperiod maxmode : Z) (i : Z) : outcome dcomplex :=
  let modenr := i * zperiod in
  if modenr <=? maxmode then
    match zdata_at zdata (modenr * 2 - 1), zdata_at zdata (modenr * 2) with
    | Ok re, Ok im => Ok (re, im)
    | _, _ => Fault
    end
  else Ok (0%R, 0%R).

Fixpoint load_modes (zdata : list R) (zperiod maxmode : Z) (l : list Z)
  : outcome (list dcomplex) :=
  match l with
  | [] => Ok []
  | i :: l' =>
      match load_mode zdata zperiod maxmode i, load_modes zdata zperiod maxmode l' with
      | Ok F, Ok Fs => Ok (F :: Fs)
      | _, _ => Fault
      end
  end.

(** "Load into dcomplex array": [fdata] has [ncz / 2 + 1] elements, the DC
    component and the modes [1 .. ncz / 2]. *)
Definition load_fdata (zdata : list R) (ncz zperiod maxmode : Z)
  : outcome (list dcomplex) :=
  match zdata_at zdata 0, load_modes zdata zperiod maxmode (range 1 (Z.quot ncz 2)) with
  | Ok dc, Ok Fs => Ok ((dc, 0%R) :: Fs)
  | _, _ => Fault
  end.

(** [int zperiod = ROUND(TWOPI / zlength)] *)
Definition zperiod (m : Mesh) : Z := ROUND (TWOPI / zlength m).

(** [a / b] on [int]: dividing by zero is undefined. *)
Definition int_div (a b : Z) : outcome Z :=
  if b =? 0 then Fault else Ok (Z.quot a b).

(** Lines 487-504, "Print out which modes are going to be read in": [None]
    when only the DC component is read, otherwise the highest mode [mm]
    that is reported.  The messages themselves are not modelled; the
    division is. *)
Definition modes_reported (ncz zperiod maxmode : Z) : outcome (option Z) :=
  if zperiod >? maxmode then Ok None
  else
    match int_div maxmode zperiod with
    | Ok q =>
        let mm := q * zperiod in
        Ok (Some (if Z.quot ncz 2 * zperiod <? mm then Z.quot ncz 2 * zperiod else mm))
    | Throw e => Throw e
    | Fault => Fault
    end.

(** ** Reading fields *)

(** Which arm of a guard-cell reconciliation was taken. *)
Inductive GuardArm : Type := IncludingGhostpoints | ExcludingGhostpoints.

Section Loader.

(** [CHECK] is the checking level the library is built with:
    bout/assert.hxx is not under src/; [ASSERT1(c)] throws when
    [CHECK >= 1] and [c] is false, and expands to nothing otherwise. *)
Variable CHECK : Z.

Definition ASSERT1 (c : bool) : M unit :=
  if (1 <=? CHECK) && negb c then throw AssertionFailed else ret tt.

Variable gf : GridFile.

(** [GridFile::readField(..., Field2D&)] *)
Definition readField2D (m : Mesh) (name : string)
    (ys yd ny_to_read xs xd nx_to_read : Z) (size : list Z) (var : Field) : M Field :=
  var' <- for_each (range xs nx_to_read)
            (fun x var =>
               setGlobalOrigin x ys 0 ;;
               r <- file_read_real (file gf) name 1 ny_to_read 0 ;;
               match r with
               | None => throw CouldNotFetchData
               | Some d => lift (store_y m var (x - xs + xd) yd ny_to_read d)
               end) var ;;
  setGlobalOrigin 0 0 0 ;;
  ret var'.

(** The check of the arguments of both 3-D readers. *)
Definition bad_arguments (yread ydest ysize xread xdest xsize : Z) : bool :=
  (yread <? 0) || (ydest <? 0) || (ysize <? 0) || (xread <? 0) || (xdest <? 0)
  || (xsize <? 0).

(** One (x, y) row of [readgrid_3dvar_fft]: lines 516-535. *)
Definition fft_row (m : Mesh) (name : string) (size2 maxmode : Z)
    (yread ydest xread xdest : Z) (jx jy : Z) (var : Field) : M (bool * Field) :=
  setGlobalOrigin jx jy 0 ;;
  r <- file_read_real (file gf) name 1 1 size2 ;;
  match r with
  | None => ret (false, var)
  | Some d =>
      let zdata := array_of d size2 in
      fdata <- lift (load_fdata zdata (LocalNz m) (zperiod m) maxmode) ;;
      var' <- lift (store_z m var (jx - xread + xdest) (jy - yread + ydest)
                      (LocalNz m) (irfft fdata (LocalNz m))) ;;
      ret (true, var')
  end.

(** [GridFile::readgrid_3dvar_fft] *)
Definition readgrid_3dvar_fft (m : Mesh) (name : string)
    (yread ydest ysize xread xdest xsize : Z) (var : Field) : M (bool * Field) :=
  if bad_arguments yread ydest ysize xread xdest xsize then ret (false, var)
  else
    let size := getSize (file gf) name in
    if negb (Nat.eqb (List.length size) 3) then ret (false, var)
    else
      let maxmode := Z.quot (nth 2 size 0 - 1) 2 in
      lift (modes_reported (LocalNz m) (zperiod m) maxmode) ;;
      r <- for_each_until (range xread xsize)
             (fun jx var =>
                for_each_until (range yread ysize)
                  (fft_row m name (nth 2 size 0) maxmode yread ydest xread xdest jx)
                  var) var ;;
      if fst r then setGlobalOrigin 0 0 0 ;; ret (true, snd r)
      else ret (false, snd r).

(** One (x, y) row of [readgrid_3dvar_real]: lines 571-574. *)
Definition real_row (m : Mesh) (name : string) (size2 : Z)
    (yread ydest xread xdest : Z) (jx jy : Z) (var : Field) : M (bool * Field) :=
  setGlobalOrigin jx jy 0 ;;
  r <- file_read_real (file gf) name 1 1 size2 ;;
  match r with
  | None => ret (false, var)
  | Some d =>
      var' <- lift (store_z m var (jx - xread + xdest) (jy - yread + ydest) size2 d) ;;
      ret (true, var')
  end.

(** [GridFile::readgrid_3dvar_real] *)
Definition readgrid_3dvar_real (m : Mesh) (name : string)
    (yread ydest ysize xread xdest xsize : Z) (var : Field) : M (bool * Field) :=
  if bad_arguments yread ydest ysize xread xdest xsize then ret (false, var)
  else
    let size := getSize (file gf) name in
    if negb (Nat.eqb (List.length size) 3) then ret (false, var)
    else
      r <- for_each_until (range xread xsize)
             (fun jx var =>
                for_each_until (range yread ysize)
                  (real_row m name (nth 2 size 0) yread ydest xread xdest jx)
                  var) var ;;
      if fst r then setGlobalOrigin 0 0 0 ;; ret (true, snd r)
      else ret (false, snd r).

(** [GridFile::readField(..., Field3D&)] *)
Definition readField3D (m : Mesh) (name : string)
    (ys yd ny_to_read xs xd nx_to_read : Z) (size : list Z) (var : Field) : M Field :=
  if hasVar gf "nz" then
    (* size[2]: indexing the vector past its end is undefined *)
    if (List.length size <=? 2)%nat then fault
    else if negb (nth 2 size 0 =? LocalNz m)
    then throw (IncorrectSize (nth 2 size 0) (LocalNz m))
    else
      r <- readgrid_3dvar_real m name ys yd ny_to_read xs xd nx_to_read var ;;
      if fst r then ret (snd r) else throw CouldNotReadFromGrid
  else
    r <- readgrid_3dvar_fft m name ys yd ny_to_read xs xd nx_to_read var ;;
    if fst r then ret (snd r) else throw CouldNotReadFromGrid.

(** The overload that the template instance picks. *)
Definition readField (K : FieldKind) :=
  match K with Field2D => readField2D | Field3D => readField3D end.

(** *** getField, step by step *)

(** "Ghost region widths" *)
Definition mxg (m : Mesh) : Z := Z.quot (LocalNx m - (xend m - xstart m + 1)) 2.
Definition myg (m : Mesh) : Z := Z.quot (LocalNy m - (yend m - ystart m + 1)) 2.

(** Lines 245-255: the y index offset into the source array. *)
Definition y_read_start (m : Mesh) : M Z :=
  let ys := OffsetY m in
  if numberOfXPoints m >? 1 then
    ASSERT1 (numberOfXPoints m =? 2) ;;
    if OffsetY m >=? ny_inner gf then ret (ys + 2 * grid_yguards gf)
    else ret ys
  else ret ys.

(** Line 269 *)
Definition grid_xguards (m : Mesh) (field_dimensions : list Z) : Z :=
  Z.quot (nth 0 field_dimensions 0 - (GlobalNx m - 2 * mxg m)) 2.

(** Lines 268-283: the arm taken, [nx_to_read] and [xd]. *)
Definition x_guards (m : Mesh) (field_dimensions : list Z) : M (GuardArm * Z * Z) :=
  let gx := grid_xguards m field_dimensions in
  ASSERT1 (Z.rem (nth 0 field_dimensions 0 - (GlobalNx m - 2 * mxg m)) 2 =? 0) ;;
  if gx >=? 0 then
    let nx_to_read := LocalNx m in
    let xd := gx - mxg m in
    ASSERT1 (xd >=? 0) ;;
    ret (IncludingGhostpoints, nx_to_read, xd)
  else if gx =? 0 then
    let nx_to_read := LocalNx m - 2 * mxg m in
    let xd := mxg m in
    ret (ExcludingGhostpoints, nx_to_read, xd)
  else throw (XGuardsMismatch gx).

(** Lines 285-299: the arm taken, [ny_to_read] and [yd]. *)
Definition y_guards (m : Mesh) (field_dimensions : list Z) : M (GuardArm * Z * Z) :=
  if grid_yguards gf >? 0 then
    ASSERT1 (nth 1 field_dimensions 0 =? GlobalNy m - 2 * myg m + grid_yguards gf) ;;
    let ny_to_read := LocalNy m in
    let yd := grid_yguards gf - myg m in
    ASSERT1 (yd >=? 0) ;;
    ret (IncludingGhostpoints, ny_to_read, yd)
  else if grid_yguards gf =? 0 then
    ASSERT1 (nth 1 field_dimensions 0 =? GlobalNy m - 2 * myg m) ;;
    let ny_to_read := LocalNy m - 2 * myg m in
    let yd := myg m in
    ret (ExcludingGhostpoints, ny_to_read, yd)
  else throw (YGuardsMismatch (grid_yguards gf)).

(** [var(xd, yd, zd) = var(xs, ys, zs)] *)
Definition copy_cell (K : FieldKind) (m : Mesh) (xd yd zd xs ys zs : Z) (var : Field)
  : M Field :=
  v <- lift (fget K m var xs ys zs) ;;
  lift (fset K m var xd yd zd v).

(** Lines 307-320: both x boundaries copied from the nearest point. *)
Definition extrapolate_x (K : FieldKind) (m : Mesh) (var : Field) : M Field :=
  var1 <- for_each (range 0 (xstart m)) (fun x =>
            for_each (range 0 (LocalNy m)) (fun y =>
              for_each (range 0 (getNz K m)) (fun z =>
                copy_cell K m x y z (xstart m) y z))) var ;;
  for_each (range (xend m + 1) (LocalNx m - (xend m + 1))) (fun x =>
    for_each (range 0 (LocalNy m)) (fun y =>
      for_each (range 0 (getNz K m)) (fun z =>
        copy_cell K m x y z (xend m) y z))) var1.

(** Lines 326-337: both y boundaries copied from the nearest point. *)
Definition extrapolate_y (K : FieldKind) (m : Mesh) (var : Field) : M Field :=
  for_each (range 0 (LocalNx m)) (fun x var =>
    var1 <- for_each (range 0 (ystart m)) (fun y =>
              for_each (range 0 (getNz K m)) (fun z =>
                copy_cell K m x y z x (ystart m) z)) var ;;
    for_each (range (yend m + 1) (LocalNy m - (yend m + 1))) (fun y =>
      for_each (range 0 (getNz K m)) (fun z =>
        copy_cell K m x y z x (yend m) z)) var1) var.

(** The [switch] on the number of stored dimensions: [Some r] when the
    function returns [r] from inside the switch, [None] on [break]. *)
Definition size_switch (K : FieldKind) (name : string) (def : R) (size : list Z)
  : M (option (bool * Field)) :=
  match List.length size with
  | 0%nat => ret (Some (false, fill def))
  | 1%nat =>
      if negb (nth 0 size 0 =? 1) then throw (Expecting2DVariable (nth 0 size 0))
      else
        r <- file_read_real (file gf) name 1 0 0 ;;
        match r with
        | None => throw CouldntRead0D
        | Some d => ret (Some (true, fill (d 0)))
        end
  | 2%nat => ret None
  | 3%nat =>
      match K with
      | Field2D => ret (Some (false, fill def))
      | Field3D => ret None
      end
  | _ => ret (Some (false, fill def))
  end.

(** [GridFile::getField<T>]: the result is the returned flag and the
    field left in [var]. *)
Definition getField (K : FieldKind) (m : Mesh) (var : Field) (name : string) (def : R)
  : M (bool * Field) :=
  if negb (is_valid (file gf)) then throw CouldNotReadFromFile
  else
    let size := getSize (file gf) name in
    early <- size_switch K name def size ;;
    match early with
    | Some r => ret r
    | None =>
        (* var.allocate() *)
        ASSERT1 (Z.rem (LocalNx m - (xend m - xstart m + 1)) 2 =? 0) ;;
        ASSERT1 (Z.rem (LocalNy m - (yend m - ystart m + 1)) 2 =? 0) ;;
        let xs := OffsetX m in
        ys <- y_read_start m ;;
        let field_dimensions := getSize (file gf) name in
        xw <- x_guards m field_dimensions ;;
        let '(_, nx_to_read, xd) := xw in
        yw <- y_guards m field_dimensions ;;
        let '(_, ny_to_read, yd) := yw in
        var1 <- readField K m name ys yd ny_to_read xs xd nx_to_read size var ;;
        var2 <- (if nth 0 field_dimensions 0 =? GlobalNx m - 2 * mxg m
                 then extrapolate_x K m var1 else ret var1) ;;
        var3 <- (if grid_yguards gf =? 0
                 then extrapolate_y K m var2 else ret var2) ;;
        ret (true, var3)
    end.

End Loader.

(** ** Vocabulary of the statements *)

(** The value of a field at a cell given as a triple. *)
Definition at_cell (v : Field) (p : Z * Z * Z) : R :=
  let '(x, y, z) := p in v x y z.

(** [v'] is [v] after the cells in [T] were overwritten, each with the value
    [v] has at the source cell [src] names for it. *)
Definition copies (T : Z -> Z -> Z -> Prop) (src : Z -> Z -> Z -> Z * Z * Z)
    (v v' : Field) : Prop :=
  (forall x y z, T x y z -> v' x y z = at_cell v (src x y z))
  /\ (forall x y z, ~ T x y z -> v' x y z = v x y z).

(** What the y extrapolation of lines 327-336 does to one x column [col] of
    a field with [nz] planes: first the rows below [ystart], then the rows
    above [yend]. *)
Definition y_lower (ystart nz : Z) (col : Z -> Z -> R) : Z -> Z -> R :=
  fun y z => if (0 <=? y) && (y <? ystart) && (0 <=? z) && (z <? nz)
             then col ystart z else col y z.

Definition y_upper (yend ny nz : Z) (col : Z -> Z -> R) : Z -> Z -> R :=
  fun y z => if (yend <? y) && (y <? ny) && (0 <=? z) && (z <? nz)
             then col yend z else col y z.

Definition y_column (ystart yend ny nz : Z) (col : Z -> Z -> R) : Z -> Z -> R :=
  y_upper yend ny nz (y_lower ystart nz col).

(** Up to the read, [getField] can only go on or throw. *)
Definition goes_on_or_throws {A} (m : M A) : Prop :=
  forall c, (exists a c', m c = (Ok a, c')) \/ (exists e c', m c = (Throw e, c')).

Definition throws {A} (m : M A) : Prop :=
  forall c, exists e c', m c = (Throw e, c').

(** Boolean tests of the model, as propositions. *)
Ltac bool_to_Prop :=
  repeat match goal with
    | H : (_ && _)%bool = true |- _ => apply andb_true_iff in H; destruct H
    | H : (_ && _)%bool = false |- _ => apply andb_false_iff in H
    | H : (_ <=? _) = true |- _ => apply Z.leb_le in H
    | H : (_ <=? _) = false |- _ => apply Z.leb_gt in H
    | H : (_ <? _) = true |- _ => apply Z.ltb_lt in H
    | H : (_ <? _) = false |- _ => apply Z.ltb_ge in H
    | H : (_ =? _) = true |- _ => apply Z.eqb_eq in H
    | H : (_ =? _) = false |- _ => apply Z.eqb_neq in H
    end.

(** ** Concrete grid files and meshes *)

(** A backend for the examples: [sizes] says which variables it stores and
    with which extents, [ints] holds its integer scalars; the value stored
    at global index (x, y, z) of every real variable is [100 x + 10 y + z],
    and a read delivers the values from the cursor on, along the last axis
    it was asked for. *)
Definition example_format (valid : bool) (sizes : string -> list Z)
    (ints : string -> option Z) : DataFormat := {|
  openr := fun _ => true;
  is_valid := valid;
  getSize := sizes;
  getAttribute := fun _ _ => None;
  read_int := fun _ name _ _ _ =>
    match ints name with Some v => Some (fun _ => v) | None => None end;
  read_real := fun c name lx ly lz =>
    match sizes name with
    | [] => None
    | _ =>
        let '(x, y, z) := c in
        Some (fun k => IZR (if 0 <? lz then 100 * x + 10 * y + (z + k)
                            else if 0 <? ly then 100 * x + 10 * (y + k) + z
                            else 100 * (x + k) + 10 * y + z))
    end
|}.

(** The integer scalars of the example files: all of them give [ny_inner],
    one of them also [y_boundary_guards]. *)
Definition ints_plain (name : string) : option Z :=
  if String.eqb name "ny_inner" then Some 4 else None.

Definition ints_yguards (name : string) : option Z :=
  if String.eqb name "y_boundary_guards" then Some 2
  else if String.eqb name "ny_inner" then Some 4 else None.

(** A file that stores the 2-D variable [Rxy] with extents 3 x 2. *)
Definition sizes_2d (name : string) : list Z :=
  if String.eqb name "Rxy" then [3; 2] else [].

(** A file that stores the 3-D variable [phi] with extents 3 x 2 x 4 in real
    space, marked by the scalar [nz]. *)
Definition sizes_3d_real (name : string) : list Z :=
  if String.eqb name "phi" then [3; 2; 4]
  else if String.eqb name "nz" then [1] else [].

(** A file that stores [phi] as DC-only spectral data ([2 m + 1 = 1]), and
    one that stores it with two harmonics ([2 m + 1 = 5]). *)
Definition sizes_3d_dc (name : string) : list Z :=
  if String.eqb name "phi" then [3; 2; 1] else [].

Definition sizes_3d_fft (name : string) : list Z :=
  if String.eqb name "phi" then [3; 2; 5] else [].

(** The [GridFile] objects that the constructor makes of these files. *)
Definition example_gridfile (format : DataFormat) (yguards : Z) : GridFile :=
  {| file := format; filename := "grid.nc"; grid_yguards := yguards; ny_inner := 4 |}.

Definition file_2d : GridFile := example_gridfile (example_format true sizes_2d ints_plain) 0.
Definition file_2d_yguards : GridFile :=
  example_gridfile (example_format true sizes_2d ints_yguards) 2.
Definition file_closed : GridFile :=
  example_gridfile (example_format false sizes_2d ints_plain) 0.
Definition file_3d_real : GridFile :=
  example_gridfile (example_format true sizes_3d_real ints_plain) 0.
Definition file_3d_dc : GridFile :=
  example_gridfile (example_format true sizes_3d_dc ints_plain) 0.
Definition file_3d_fft : GridFile :=
  example_gridfile (example_format true sizes_3d_fft ints_plain) 0.

(** A mesh of 3 x 2 x 4 local cells on one processor, without guard cells;
    its periodic coordinate spans 2 pi. *)
Definition mesh_plain : Mesh := {|
  LocalNx := 3; LocalNy := 2; LocalNz := 4;
  GlobalNx := 3; GlobalNy := 2;
  xstart := 0; xend := 2; ystart := 0; yend := 1;
  OffsetX := 0; OffsetY := 0;
  numberOfXPoints := 1;
  zlength := (2 * PI)%R
|}.

(** The same cells with the lowest x plane treated as a guard plane. *)
Definition mesh_low_guard : Mesh := {|
  LocalNx := 3; LocalNy := 2; LocalNz := 4;
  GlobalNx := 3; GlobalNy := 2;
  xstart := 1; xend := 2; ystart := 0; yend := 1;
  OffsetX := 0; OffsetY := 0;
  numberOfXPoints := 1;
  zlength := (2 * PI)%R
|}.

(** A mesh with one guard cell on either side in x: 5 local planes, 3 of
    them interior. *)
Definition mesh_guards : Mesh := {|
  LocalNx := 5; LocalNy := 2; LocalNz := 4;
  GlobalNx := 5; GlobalNy := 2;
  xstart := 1; xend := 3; ystart := 0; yend := 1;
  OffsetX := 0; OffsetY := 0;
  numberOfXPoints := 1;
  zlength := (2 * PI)%R
|}.

(** Two subdomains of a double-null mesh, below and above the branch cut at
    [ny_inner = 4]. *)
Definition mesh_inner : Mesh := {|
  LocalNx := 3; LocalNy := 2; LocalNz := 4;
  GlobalNx := 3; GlobalNy := 8;
  xstart := 0; xend := 2; ystart := 0; yend := 1;
  OffsetX := 0; OffsetY := 2;
  numberOfXPoints := 2;
  zlength := (2 * PI)%R
|}.

Definition mesh_outer : Mesh := {|
  LocalNx := 3; LocalNy := 2; LocalNz := 4;
  GlobalNx := 3; GlobalNy := 8;
  xstart := 0; xend := 2; ystart := 0; yend := 1;
  OffsetX := 0; OffsetY := 6;
  numberOfXPoints := 2;
  zlength := (2 * PI)%R
|}.

(** The mesh [mesh_plain] with twice the resolution in z. *)
Definition mesh_fine : Mesh := {|
  LocalNx := 3; LocalNy := 2; LocalNz := 8;
  GlobalNx := 3; GlobalNy := 2;
  xstart := 0; xend := 2; ystart := 0; yend := 1;
  OffsetX := 0; OffsetY := 0;
  numberOfXPoints := 1;
  zlength := (2 * PI)%R
|}.

(** The value a computation ended with, [a0] when it did not end well. *)
Definition result {A} (r : outcome A * Origin) (a0 : A) : A :=
  match fst r with
  | Ok a => a
  | _ => a0
  end.

(** ** The x-guard probe *)

(** [GridFile::hasXBoundaryGuards] *)
Definition hasXBoundaryGuards (gf : GridFile) (m : Mesh) : bool :=
  let field_dimensions := getSize (file gf) "dx" in
  match field_dimensions with
  | [] => false
  | _ => nth 0 field_dimensions 0 >? GlobalNx m - 2 * xstart m
  end.

(** ** The read window of getField, in closed form *)

(** The values that lines 242-299 give [ys], [xd], [ny_to_read] and [yd]
    when they go through. *)
Definition y_source (gf : GridFile) (m : Mesh) : Z :=
  if (numberOfXPoints m >? 1) && (OffsetY m >=? ny_inner gf)
  then OffsetY m + 2 * grid_yguards gf else OffsetY m.

Definition x_dest (m : Mesh) (field_dimensions : list Z) : Z :=
  grid_xguards m field_dimensions - mxg m.

Definition y_count (gf : GridFile) (m : Mesh) : Z :=
  if grid_yguards gf >? 0 then LocalNy m else LocalNy m - 2 * myg m.

Definition y_dest (gf : GridFile) (m : Mesh) : Z :=
  if grid_yguards gf >? 0 then grid_yguards gf - myg m else myg m.

(** ** More grid files and meshes *)

(** A file with a scalar stored as a 1-D variable of one element, a 1-D
    variable of four elements, and the spacing [dx] stored with two x-guard
    cells on either side of the three interior columns of [mesh_guards]. *)
Definition sizes_mixed (name : string) : list Z :=
  if String.eqb name "Bnorm" then [1]
  else if String.eqb name "psi_axis" then [4]
  else if String.eqb name "dx" then [7; 2]
  else if String.eqb name "g11" then [1; 2; 3; 4]
  else [].

Definition file_mixed : GridFile :=
  example_gridfile (example_format true sizes_mixed ints_plain) 0.

(** [example_format], except that the rows with global x index 2 and above
    cannot be read. *)
Definition truncated_format (sizes : string -> list Z) : DataFormat := {|
  openr := fun _ => true;
  is_valid := true;
  getSize := sizes;
  getAttribute := fun _ _ => None;
  read_int := read_int (example_format true sizes ints_plain);
  read_real := fun c name lx ly lz =>
    if 2 <=? fst (fst c) then None
    else read_real (example_format true sizes ints_plain) c name lx ly lz
|}.

Definition file_truncated : GridFile :=
  example_gridfile (truncated_format sizes_3d_real) 0.

(** A backend that cannot be opened. *)
Definition locked_format : DataFormat := {|
  openr := fun _ => false;
  is_valid := false;
  getSize := fun _ => [];
  getAttribute := fun _ _ => None;
  read_int := fun _ _ _ _ _ => None;
  read_real := fun _ _ _ _ _ => None
|}.

(** A mesh of 3 x 4 x 4 local cells with one guard row on either side in y
    and none in x. *)
Definition mesh_yguards : Mesh := {|
  LocalNx := 3; LocalNy := 4; LocalNz := 4;
  GlobalNx := 3; GlobalNy := 4;
  xstart := 0; xend := 2; ystart := 1; yend := 2;
  OffsetX := 0; OffsetY := 0;
  numberOfXPoints := 1;
  zlength := (2 * PI)%R
|}.

(** [mesh_plain] with a periodic coordinate that spans a third of the
    circle. *)
Definition mesh_third : Mesh := {|
  LocalNx := 3; LocalNy := 2; LocalNz := 4;
  GlobalNx := 3; GlobalNy := 2;
  xstart := 0; xend := 2; ystart := 0; yend := 1;
  OffsetX := 0; OffsetY := 0;
  numberOfXPoints := 1;
  zlength := (2 * PI / 3)%R
|}.

(** A file marked as real space that stores the 2-D variable [Rxy]. *)
Definition sizes_2d_real (name : string) : list Z :=
  if String.eqb name "Rxy" then [3; 2]
  else if String.eqb name "nz" then [1] else [].

Definition file_2d_real : GridFile :=
  example_gridfile (example_format true sizes_2d_real ints_plain) 0.

(** [mesh_plain] with a periodic coordinate longer than 4 pi. *)
Definition mesh_long : Mesh := {|
  LocalNx := 3; LocalNy := 2; LocalNz := 4;
  GlobalNx := 3; GlobalNy := 2;
  xstart := 0; xend := 2; ystart := 0; yend := 1;
  OffsetX := 0; OffsetY := 0;
  numberOfXPoints := 1;
  zlength := 20%R
|}.

(** A field whose cells all differ: cell (x, y, z) holds [100 x + 10 y + z]. *)
Definition ramp : Field := fun x y z => IZR (100 * x + 10 * y + z).

(** * Properties *)

(** ** The monad *)

Lemma bind_Ok {A B} (m : M A) (k : A -> M B) c b c' :
  bind m k c = (Ok b, c') ->
  exists a c1, m c = (Ok a, c1) /\ k a c1 = (Ok b, c').
Proof.
  unfold bind. destruct (m c) as [[a| e |] c1]; intros H; try discriminate.
  exists a, c1. split; [reflexivity | exact H].
Qed.

Lemma lift_Ok {A} (o : outcome A) c a c' :
  lift o c = (Ok a, c') -> o = Ok a /\ c' = c.
Proof. unfold lift. intros H. inversion H. split; reflexivity. Qed.

Lemma ret_Ok {A} (a b : A) c c' : ret a c = (Ok b, c') -> b = a /\ c' = c.
Proof. unfold ret. intros H. inversion H. split; reflexivity. Qed.

(** ** Ranges *)

Lemma in_range i lo n : In i (range lo n) <-> lo <= i < lo + n.
Proof.
  unfold range. rewrite in_map_iff. split.
  - intros [k [E Hk]]. apply in_seq in Hk. lia.
  - intros H. exists (Z.to_nat (i - lo)). split; [lia|]. apply in_seq. lia.
Qed.

Lemma range_NoDup lo n : NoDup (range lo n).
Proof.
  unfold range. apply Injective_map_NoDup.
  - intros a b H. lia.
  - apply seq_NoDup.
Qed.

Lemma range_length lo n : List.length (range lo n) = Z.to_nat n.
Proof. unfold range. rewrite length_map, length_seq. reflexivity. Qed.

Lemma range_nth lo n (k : nat) d :
  (k < Z.to_nat n)%nat -> nth k (range lo n) d = lo + Z.of_nat k.
Proof.
  intros H. unfold range.
  rewrite (nth_indep _ d (lo + Z.of_nat 0))
    by (rewrite length_map, length_seq; exact H).
  rewrite (map_nth (fun k => lo + Z.of_nat k)), seq_nth by exact H. reflexivity.
Qed.

Lemma existsb_range (P : Z -> bool) lo n :
  existsb P (range lo n) = true <-> exists i, lo <= i < lo + n /\ P i = true.
Proof.
  rewrite existsb_exists. split; intros [i [H1 H2]]; exists i.
  - apply in_range in H1. auto.
  - split; [apply in_range|]; auto.
Qed.

(** ** Loops *)

Lemma for_each_In_Ok l body i :
  In i l -> forall v c v' c',
  for_each l body v c = (Ok v', c') ->
  exists v1 c1 v2 c2, body i v1 c1 = (Ok v2, c2).
Proof.
  induction l as [|j l IH]; intros Hi v c v' c' H; [contradiction|].
  simpl in H. apply bind_Ok in H. destruct H as (v1 & c1 & Hb & Hl).
  destruct Hi as [->|Hi].
  - exists v, c, v1, c1. exact Hb.
  - eapply IH; eauto.
Qed.

Lemma copies_iff (T T' : Z -> Z -> Z -> Prop) src v v' :
  (forall x y z, T x y z <-> T' x y z) -> copies T src v v' -> copies T' src v v'.
Proof.
  intros E [H1 H2]. split; intros x y z H.
  - apply H1, E, H.
  - apply H2. intros H'. apply H, E, H'.
Qed.

(** A loop of copying bodies is one copy, as long as no body overwrites a
    cell that a body reads. *)
Lemma for_each_copies (T : Z -> Z -> Z -> Z -> Prop) src body l :
  (forall i, In i l -> forall v c v' c',
      body i v c = (Ok v', c') -> copies (T i) src v v') ->
  (forall i j x y z, In i l -> In j l -> T i x y z ->
      ~ (let '(a, b, c) := src x y z in T j a b c)) ->
  forall v c v' c',
  for_each l body v c = (Ok v', c') ->
  copies (fun x y z => exists i, In i l /\ T i x y z) src v v'.
Proof.
  induction l as [|i l IH]; intros Hbody Hsrc v c v' c' H.
  - simpl in H. apply ret_Ok in H. destruct H as [-> _].
    split; intros x y z Hx; [destruct Hx as (i & [] & _) | reflexivity].
  - simpl in H. apply bind_Ok in H. destruct H as (v1 & c1 & Hb & Hl).
    apply Hbody in Hb; [|left; reflexivity]. destruct Hb as [Hb1 Hb2].
    apply IH in Hl.
    2:{ intros j Hj. apply Hbody. right; exact Hj. }
    2:{ intros j k x y z Hj Hk. apply Hsrc; right; assumption. }
    destruct Hl as [Hl1 Hl2].
    assert (Hframe : forall j x y z, In j (i :: l) -> T j x y z ->
                       at_cell v1 (src x y z) = at_cell v (src x y z)).
    { intros j x y z Hj HT. specialize (Hsrc j i x y z Hj (or_introl eq_refl) HT).
      destruct (src x y z) as [[a b] d]. simpl. apply Hb2. exact Hsrc. }
    split; intros x y z Hx.
    + destruct (Classical_Prop.classic (exists j, In j l /\ T j x y z)) as [Hin|Hout].
      * rewrite (Hl1 _ _ _ Hin). destruct Hin as (j & Hj & HT).
        apply (Hframe j); [right; exact Hj | exact HT].
      * rewrite (Hl2 _ _ _ Hout). apply Hb1.
        destruct Hx as (j & [<-|Hj] & HT); [exact HT|].
        exfalso. apply Hout. exists j. split; assumption.
    + rewrite Hl2.
      * apply Hb2. intros HT. apply Hx. exists i. split; [left; reflexivity | exact HT].
      * intros (j & Hj & HT). apply Hx. exists j. split; [right; exact Hj | exact HT].
Qed.

(** A loop whose body [i] rewrites column [i] of the field from that
    column alone rewrites every column it visits in the same way. *)
Lemma for_each_columns (F : (Z -> Z -> R) -> Z -> Z -> R) body l :
  (forall f g, (forall y z, f y z = g y z) -> forall y z, F f y z = F g y z) ->
  (forall i, In i l -> forall v c v' c',
      body i v c = (Ok v', c') ->
      forall x y z, v' x y z = if x =? i then F (v i) y z else v x y z) ->
  NoDup l ->
  forall v c v' c',
  for_each l body v c = (Ok v', c') ->
  forall x y z, v' x y z = if existsb (Z.eqb x) l then F (v x) y z else v x y z.
Proof.
  intros Fext. induction l as [|i l IH]; intros Hbody Hnd v c v' c' H x y z.
  - simpl in H. apply ret_Ok in H. destruct H as [-> _]. reflexivity.
  - simpl in H. apply bind_Ok in H. destruct H as (v1 & c1 & Hb & Hl).
    inversion Hnd as [|? ? Hni Hnd']; subst.
    pose proof (Hbody i (or_introl eq_refl) _ _ _ _ Hb) as Hb'.
    rewrite (IH (fun j Hj => Hbody j (or_intror Hj)) Hnd' _ _ _ _ Hl).
    simpl. destruct (x =? i) eqn:Exi.
    + apply Z.eqb_eq in Exi. subst x.
      assert (E : existsb (Z.eqb i) l = false).
      { destruct (existsb (Z.eqb i) l) eqn:E; [|reflexivity].
        apply existsb_exists in E. destruct E as (j & Hj & E).
        apply Z.eqb_eq in E. subst j. contradiction. }
      rewrite E, Hb', Z.eqb_refl. reflexivity.
    + simpl. destruct (existsb (Z.eqb x) l).
      * apply Fext. intros y' z'. rewrite Hb', Exi. reflexivity.
      * rewrite Hb', Exi. reflexivity.
Qed.

(** ** Cells *)

Lemma in_field_bounds K m x y z :
  in_field K m x y z = true <->
  0 <= x < LocalNx m /\ 0 <= y < LocalNy m /\ 0 <= z < getNz K m.
Proof. unfold in_field. rewrite !andb_true_iff. lia. Qed.

Lemma plane_in_range K m z : 0 <= z < getNz K m -> plane K z = z.
Proof. destruct K; simpl; lia. Qed.

Lemma copy_cell_Ok K m xd yd zd xs ys zs v c v' c' :
  0 <= zd < getNz K m -> 0 <= zs < getNz K m ->
  copy_cell K m xd yd zd xs ys zs v c = (Ok v', c') ->
  in_field K m xs ys zs = true /\ in_field K m xd yd zd = true
  /\ copies (fun x y z => x = xd /\ y = yd /\ z = zd) (fun _ _ _ => (xs, ys, zs)) v v'.
Proof.
  intros Hzd Hzs H. unfold copy_cell in H.
  apply bind_Ok in H. destruct H as (r & c1 & Hg & Hs).
  apply lift_Ok in Hg. destruct Hg as [Hg ->].
  apply lift_Ok in Hs. destruct Hs as [Hs _].
  unfold fget in Hg. unfold fset in Hs.
  rewrite (plane_in_range K m zs Hzs) in Hg.
  rewrite (plane_in_range K m zd Hzd) in Hs.
  destruct (in_field K m xs ys zs); [|discriminate].
  destruct (in_field K m xd yd zd); [|discriminate].
  inversion Hg; subst r. inversion Hs; subst v'.
  repeat split.
  - intros x y z (-> & -> & ->). rewrite !Z.eqb_refl. reflexivity.
  - intros x y z Hn.
    destruct (x =? xd) eqn:E1; [|reflexivity].
    destruct (y =? yd) eqn:E2; [|reflexivity].
    destruct (z =? zd) eqn:E3; [|reflexivity].
    exfalso. apply Hn. lia.
Qed.

(** ** The extrapolation loops in closed form *)

(** The innermost loop of all four: one (x, y) row copied from another. *)
Lemma z_loop_copies K m xd yd xs ys v c v' c' :
  (xd, yd) <> (xs, ys) ->
  for_each (range 0 (getNz K m)) (fun z => copy_cell K m xd yd z xs ys z) v c
    = (Ok v', c') ->
  copies (fun x y z => x = xd /\ y = yd /\ 0 <= z < getNz K m)
         (fun _ _ z => (xs, ys, z)) v v'.
Proof.
  intros Hne H.
  apply (for_each_copies (fun i x y z => x = xd /\ y = yd /\ z = i)
           (fun _ _ z => (xs, ys, z))) in H.
  - revert H. apply copies_iff. intros x y z. split.
    + intros (i & Hi & -> & -> & ->). apply in_range in Hi. lia.
    + intros (-> & -> & Hz). exists z. split; [apply in_range; lia | auto].
  - intros i Hi w c0 w' c0' Hb. apply in_range in Hi.
    apply copy_cell_Ok in Hb; try lia. destruct Hb as (_ & _ & [H1 H2]).
    split; intros x y z Hx.
    + rewrite (H1 _ _ _ Hx). destruct Hx as (_ & _ & ->). reflexivity.
    + apply H2, Hx.
  - intros i j x y z _ _ _ (-> & -> & _). apply Hne. reflexivity.
Qed.

Lemma z_loop_in_field K m xd yd xs ys v c v' c' :
  0 < getNz K m ->
  for_each (range 0 (getNz K m)) (fun z => copy_cell K m xd yd z xs ys z) v c
    = (Ok v', c') ->
  (0 <= xs < LocalNx m /\ 0 <= ys < LocalNy m)
  /\ (0 <= xd < LocalNx m /\ 0 <= yd < LocalNy m).
Proof.
  intros Hnz H.
  apply (for_each_In_Ok _ _ 0) in H; [|apply in_range; lia].
  destruct H as (v1 & c1 & v2 & c2 & H).
  apply copy_cell_Ok in H; try lia.
  destruct H as (H1 & H2 & _).
  apply in_field_bounds in H1, H2. lia.
Qed.

(** Lines 307-313 and 314-320: the planes [xlo .. xlo + xn - 1] copied from
    the plane [xsrc]. *)
Lemma x_planes_copies K m xlo xn xsrc v c v' c' :
  ~ (xlo <= xsrc < xlo + xn) ->
  for_each (range xlo xn) (fun x =>
    for_each (range 0 (LocalNy m)) (fun y =>
      for_each (range 0 (getNz K m)) (fun z =>
        copy_cell K m x y z xsrc y z))) v c = (Ok v', c') ->
  copies (fun x y z => xlo <= x < xlo + xn /\ 0 <= y < LocalNy m
                       /\ 0 <= z < getNz K m)
         (fun _ y z => (xsrc, y, z)) v v'.
Proof.
  intros Hsrc H.
  apply (for_each_copies
           (fun i x y z => x = i /\ 0 <= y < LocalNy m /\ 0 <= z < getNz K m)
           (fun _ y z => (xsrc, y, z))) in H.
  - revert H. apply copies_iff. intros x y z. split.
    + intros (i & Hi & -> & Hy & Hz). apply in_range in Hi. lia.
    + intros (Hx & Hy & Hz). exists x. split; [apply in_range; lia | auto].
  - intros i Hi w c0 w' c0' Hb. apply in_range in Hi.
    apply (for_each_copies
             (fun j x y z => x = i /\ y = j /\ 0 <= z < getNz K m)
             (fun _ y z => (xsrc, y, z))) in Hb.
    + revert Hb. apply copies_iff. intros x y z. split.
      * intros (j & Hj & -> & -> & Hz). apply in_range in Hj. lia.
      * intros (-> & Hy & Hz). exists y. split; [apply in_range; lia | auto].
    + intros j Hj u c1 u' c1' Hz.
      apply z_loop_copies in Hz.
      * destruct Hz as [H1 H2]. split; intros x y z Hx.
        -- rewrite (H1 _ _ _ Hx). destruct Hx as (_ & -> & _). reflexivity.
        -- apply H2, Hx.
      * intros E. inversion E. lia.
    + intros j k x y z _ _ (-> & _ & _) (E & _). lia.
  - intros i j x y z _ Hj _ (E & _). apply in_range in Hj. lia.
Qed.

Lemma x_planes_in_field K m xlo xn xsrc v c v' c' x y :
  xlo <= x < xlo + xn -> 0 <= y < LocalNy m -> 0 < getNz K m ->
  for_each (range xlo xn) (fun x =>
    for_each (range 0 (LocalNy m)) (fun y =>
      for_each (range 0 (getNz K m)) (fun z =>
        copy_cell K m x y z xsrc y z))) v c = (Ok v', c') ->
  0 <= xsrc < LocalNx m /\ 0 <= x < LocalNx m.
Proof.
  intros Hx Hy Hnz H.
  apply (for_each_In_Ok _ _ x) in H; [|apply in_range; lia].
  destruct H as (v1 & c1 & v2 & c2 & H).
  apply (for_each_In_Ok _ _ y) in H; [|apply in_range; lia].
  destruct H as (v3 & c3 & v4 & c4 & H).
  apply z_loop_in_field in H; lia.
Qed.

(** Lines 327-331 and 332-336, for one [x]: the rows [ylo .. ylo + yn - 1]
    of column [x] copied from its row [ysrc]. *)
Lemma y_rows_copies K m x ylo yn ysrc v c v' c' :
  ~ (ylo <= ysrc < ylo + yn) ->
  for_each (range ylo yn) (fun y =>
    for_each (range 0 (getNz K m)) (fun z =>
      copy_cell K m x y z x ysrc z)) v c = (Ok v', c') ->
  copies (fun x' y z => x' = x /\ ylo <= y < ylo + yn /\ 0 <= z < getNz K m)
         (fun x' _ z => (x', ysrc, z)) v v'.
Proof.
  intros Hsrc H.
  apply (for_each_copies
           (fun j x' y z => x' = x /\ y = j /\ 0 <= z < getNz K m)
           (fun x' _ z => (x', ysrc, z))) in H.
  - revert H. apply copies_iff. intros x' y z. split.
    + intros (j & Hj & -> & -> & Hz). apply in_range in Hj. lia.
    + intros (-> & Hy & Hz). exists y. split; [apply in_range; lia | auto].
  - intros j Hj u c1 u' c1' Hz. apply in_range in Hj.
    apply z_loop_copies in Hz.
    + destruct Hz as [H1 H2]. split; intros x' y z Hx.
      * rewrite (H1 _ _ _ Hx). destruct Hx as (-> & _ & _). reflexivity.
      * apply H2, Hx.
    + intros E. inversion E. lia.
  - intros j k x' y z _ Hk _ (_ & E & _). apply in_range in Hk. lia.
Qed.

Lemma y_rows_in_field K m x ylo yn ysrc v c v' c' y :
  ylo <= y < ylo + yn -> 0 < getNz K m ->
  for_each (range ylo yn) (fun y =>
    for_each (range 0 (getNz K m)) (fun z =>
      copy_cell K m x y z x ysrc z)) v c = (Ok v', c') ->
  0 <= ysrc < LocalNy m /\ 0 <= y < LocalNy m.
Proof.
  intros Hy Hnz H.
  apply (for_each_In_Ok _ _ y) in H; [|apply in_range; lia].
  destruct H as (v1 & c1 & v2 & c2 & H).
  apply z_loop_in_field in H; lia.
Qed.

(** The x extrapolation: what holds of the field when it is done. *)
Lemma extrapolate_x_uniform K m v c v' c' :
  extrapolate_x K m v c = (Ok v', c') ->
  forall x y z, 0 <= y < LocalNy m -> 0 <= z < getNz K m ->
  (0 <= x < xstart m ->
     v' x y z = v' (xstart m) y z /\ x < LocalNx m /\ xstart m < LocalNx m)
  /\ (xend m < x < LocalNx m ->
     v' x y z = v' (xend m) y z /\ 0 <= x /\ 0 <= xend m).
Proof.
  intros H x y z Hy Hz. unfold extrapolate_x in H.
  apply bind_Ok in H. destruct H as (v1 & c1 & Hlo & Hhi).
  pose proof (x_planes_copies K m 0 (xstart m) (xstart m) v c v1 c1 ltac:(lia) Hlo)
    as [L1 L2].
  pose proof (x_planes_copies K m (xend m + 1) (LocalNx m - (xend m + 1)) (xend m)
                v1 c1 v' c' ltac:(lia) Hhi) as [U1 U2].
  simpl in L1, U1.
  split; intros Hx.
  - assert (Hin := fun A B =>
              x_planes_in_field K m 0 (xstart m) (xstart m) v c v1 c1 x y A Hy B Hlo).
    specialize (Hin ltac:(lia) ltac:(lia)).
    split; [|lia].
    (* the value of v' at (x, y, z) and at (xstart, y, z) *)
    destruct (Z_lt_le_dec (xend m) x) as [Hxu|Hxu].
    + rewrite (U1 x y z) by lia.
      destruct (Z_lt_le_dec (xend m) (xstart m)) as [Hsu|Hsu].
      * rewrite (U1 (xstart m) y z) by lia. reflexivity.
      * lia.
    + rewrite (U2 x y z) by lia. rewrite (L1 x y z) by lia.
      destruct (Z_lt_le_dec (xend m) (xstart m)) as [Hsu|Hsu].
      * rewrite (U1 (xstart m) y z) by lia.
        rewrite (L1 (xend m) y z) by lia. reflexivity.
      * rewrite (U2 (xstart m) y z) by lia. rewrite (L2 (xstart m) y z) by lia.
        reflexivity.
  - assert (Hin := fun A B =>
              x_planes_in_field K m (xend m + 1) (LocalNx m - (xend m + 1)) (xend m)
                v1 c1 v' c' x y A Hy B Hhi).
    specialize (Hin ltac:(lia) ltac:(lia)).
    split; [|lia].
    rewrite (U1 x y z) by lia. rewrite (U2 (xend m) y z) by lia. reflexivity.
Qed.

Lemma y_column_ext ystart yend ny nz f g :
  (forall y z, f y z = g y z) ->
  forall y z, y_column ystart yend ny nz f y z = y_column ystart yend ny nz g y z.
Proof.
  intros E y z. unfold y_column, y_upper, y_lower.
  repeat match goal with |- context [if ?b then _ else _] => destruct b end;
    apply E.
Qed.

(** One turn of the outer loop of the y extrapolation rewrites column [x]. *)
Lemma extrapolate_y_column K m x v c v' c' :
  (var1 <- for_each (range 0 (ystart m)) (fun y =>
             for_each (range 0 (getNz K m)) (fun z =>
               copy_cell K m x y z x (ystart m) z)) v ;;
   for_each (range (yend m + 1) (LocalNy m - (yend m + 1))) (fun y =>
     for_each (range 0 (getNz K m)) (fun z =>
       copy_cell K m x y z x (yend m) z)) var1) c = (Ok v', c') ->
  forall x' y z,
    v' x' y z = if x' =? x
                then y_column (ystart m) (yend m) (LocalNy m) (getNz K m) (v x) y z
                else v x' y z.
Proof.
  intros H x' y z.
  apply bind_Ok in H. destruct H as (v1 & c1 & Hlo & Hhi).
  apply y_rows_copies in Hlo; [|lia]. destruct Hlo as [L1 L2].
  apply y_rows_copies in Hhi; [|lia]. destruct Hhi as [U1 U2].
  simpl in L1, U1.
  unfold y_column, y_upper, y_lower.
  destruct (x' =? x) eqn:Ex; bool_to_Prop.
  - subst x'.
    destruct ((yend m <? y) && (y <? LocalNy m) && (0 <=? z) && (z <? getNz K m))
      eqn:Eu.
    + bool_to_Prop. rewrite (U1 x y z) by lia.
      destruct ((0 <=? yend m) && (yend m <? ystart m) && (0 <=? z)
                && (z <? getNz K m)) eqn:El.
      * bool_to_Prop. apply L1. lia.
      * apply L2. intros (_ & Hy' & Hz'). bool_to_Prop. lia.
    + rewrite (U2 x y z).
      2:{ intros (_ & Hy' & Hz'). bool_to_Prop. lia. }
      destruct ((0 <=? y) && (y <? ystart m) && (0 <=? z) && (z <? getNz K m))
        eqn:El.
      * bool_to_Prop. apply L1. lia.
      * apply L2. intros (_ & Hy' & Hz'). bool_to_Prop. lia.
  - rewrite (U2 x' y z) by (intros (E & _); lia).
    apply L2. intros (E & _). lia.
Qed.

Lemma existsb_eqb_range x lo n :
  existsb (Z.eqb x) (range lo n) = (lo <=? x) && (x <? lo + n).
Proof.
  destruct (existsb (Z.eqb x) (range lo n)) eqn:E.
  - apply existsb_range in E. destruct E as (i & Hi & E). bool_to_Prop. subst i.
    symmetry. apply andb_true_iff. split; [apply Z.leb_le | apply Z.ltb_lt]; lia.
  - destruct ((lo <=? x) && (x <? lo + n)) eqn:E'; [|reflexivity].
    bool_to_Prop.
    assert (existsb (Z.eqb x) (range lo n) = true) as E2.
    { apply existsb_range. exists x. split; [lia | apply Z.eqb_refl]. }
    congruence.
Qed.

(** The y extrapolation in closed form: every column of the field is
    rewritten by [y_column]. *)
Lemma extrapolate_y_columns K m v c v' c' :
  extrapolate_y K m v c = (Ok v', c') ->
  forall x y z,
    v' x y z = if (0 <=? x) && (x <? LocalNx m)
               then y_column (ystart m) (yend m) (LocalNy m) (getNz K m) (v x) y z
               else v x y z.
Proof.
  intros H x y z. unfold extrapolate_y in H.
  rewrite (for_each_columns
             (y_column (ystart m) (yend m) (LocalNy m) (getNz K m)) _ _
             (y_column_ext _ _ _ _) (fun i _ v0 c0 v1 c1 Hb =>
                extrapolate_y_column K m i v0 c0 v1 c1 Hb)
             (range_NoDup _ _) _ _ _ _ H).
  rewrite existsb_eqb_range. reflexivity.
Qed.

(** The rows that the y extrapolation reads lie inside the field. *)
Lemma extrapolate_y_in_field K m v c v' c' :
  extrapolate_y K m v c = (Ok v', c') ->
  0 < LocalNx m -> 0 < getNz K m ->
  (0 < ystart m -> 0 <= ystart m < LocalNy m)
  /\ (-1 <= yend m -> yend m + 1 < LocalNy m -> 0 <= yend m < LocalNy m)
  /\ (yend m + 1 < LocalNy m -> 0 <= yend m + 1).
Proof.
  intros H Hnx Hnz. unfold extrapolate_y in H.
  apply (for_each_In_Ok _ _ 0) in H; [|apply in_range; lia].
  destruct H as (v1 & c1 & v2 & c2 & H).
  apply bind_Ok in H. destruct H as (v3 & c3 & Hlo & Hhi).
  split; [|split].
  - intros Hs.
    apply (y_rows_in_field K m 0 _ _ _ _ _ _ _ 0) in Hlo; lia.
  - intros Hy0 Hs.
    apply (y_rows_in_field K m 0 _ _ _ _ _ _ _ (yend m + 1)) in Hhi; lia.
  - intros Hs.
    apply (y_rows_in_field K m 0 _ _ _ _ _ _ _ (yend m + 1)) in Hhi; lia.
Qed.

(** The y extrapolation treats all columns alike: two columns of the field
    that agree before it agree after it. *)
Lemma extrapolate_y_keeps_equal_columns K m v c v' c' x x0 :
  extrapolate_y K m v c = (Ok v', c') ->
  0 <= x < LocalNx m -> 0 <= x0 < LocalNx m ->
  (forall y z, 0 <= y < LocalNy m -> 0 <= z < getNz K m -> v x y z = v x0 y z) ->
  forall y z, 0 <= y < LocalNy m -> 0 <= z < getNz K m -> v' x y z = v' x0 y z.
Proof.
  intros H Hx Hx0 E y z Hy Hz.
  destruct (extrapolate_y_in_field K m v c v' c' H) as (I1 & I2 & I3); try lia.
  rewrite !(extrapolate_y_columns K m v c v' c' H).
  replace ((0 <=? x) && (x <? LocalNx m)) with true
    by (symmetry; apply andb_true_iff; split; [apply Z.leb_le|apply Z.ltb_lt]; lia).
  replace ((0 <=? x0) && (x0 <? LocalNx m)) with true
    by (symmetry; apply andb_true_iff; split; [apply Z.leb_le|apply Z.ltb_lt]; lia).
  unfold y_column, y_upper, y_lower.
  destruct ((yend m <? y) && (y <? LocalNy m) && (0 <=? z) && (z <? getNz K m))
    eqn:Eu.
  - bool_to_Prop.
    destruct ((0 <=? yend m) && (yend m <? ystart m) && (0 <=? z)
              && (z <? getNz K m)) eqn:El.
    + bool_to_Prop. apply E; lia.
    + apply E; lia.
  - destruct ((0 <=? y) && (y <? ystart m) && (0 <=? z) && (z <? getNz K m))
      eqn:El.
    + bool_to_Prop. apply E; lia.
    + apply E; lia.
Qed.

(** ** Scalars and vectors *)

(** C1, as the code has it: on a readable backend the three scalar getters
    never raise, and they return found=false whenever the backend cannot
    deliver the value (the string is then empty, the number is left as it
    was); on a backend that reports itself unreadable they raise "File
    cannot be read". *)
Theorem scalar_getters_raise_only_when_unreadable gf name c :
  (is_valid (file gf) = true ->
     (forall sval, exists r, get_string gf sval name c = (Ok r, c)
        /\ (getAttribute (file gf) EmptyString name = None -> r = (false, EmptyString)))
     /\ (forall ival, exists r, get_int gf ival name c = (Ok r, c)
        /\ (read_int (file gf) c name 1 0 0 = None -> r = (false, ival)))
     /\ (forall rval, exists r, get_real gf rval name c = (Ok r, c)
        /\ (read_real (file gf) c name 1 0 0 = None -> r = (false, rval))))
  /\ (is_valid (file gf) = false ->
     (forall sval, get_string gf sval name c = (Throw FileCannotBeRead, c))
     /\ (forall ival, get_int gf ival name c = (Throw FileCannotBeRead, c))
     /\ (forall rval, get_real gf rval name c = (Throw FileCannotBeRead, c))).
Proof.
  split; intros Hv.
  - repeat split.
    + intros sval. unfold get_string. rewrite Hv. simpl.
      destruct (getAttribute (file gf) EmptyString name) as [s|].
      * exists (true, s). split; [reflexivity | discriminate].
      * exists (false, EmptyString). split; reflexivity.
    + intros ival. unfold get_int, bind, file_read_int. rewrite Hv. simpl.
      destruct (read_int (file gf) c name 1 0 0) as [d|].
      * exists (true, d 0). split; [reflexivity | discriminate].
      * exists (false, ival). split; reflexivity.
    + intros rval. unfold get_real, bind, file_read_real. rewrite Hv. simpl.
      destruct (read_real (file gf) c name 1 0 0) as [d|].
      * exists (true, d 0). split; [reflexivity | discriminate].
      * exists (false, rval). split; reflexivity.
  - unfold get_string, get_int, get_real. rewrite Hv. simpl.
    repeat split.
Qed.

Lemma scalar_getters_raise_only_when_unreadable_witness :
  (exists r, get_int file_2d 7 "nx" origin0 = (Ok r, origin0) /\ r = (false, 7))
  /\ get_int file_closed 7 "nx" origin0 = (Throw FileCannotBeRead, origin0).
Proof.
  destruct (scalar_getters_raise_only_when_unreadable file_2d "nx" origin0)
    as [Hvalid _].
  destruct (scalar_getters_raise_only_when_unreadable file_closed "nx" origin0)
    as [_ Hclosed].
  split.
  - destruct (Hvalid eq_refl) as (_ & Hint & _).
    destruct (Hint 7) as (r & Hr & Hnone).
    exists r. split; [exact Hr | apply Hnone; reflexivity].
  - destruct (Hclosed eq_refl) as (_ & Hint & _). apply Hint.
Defined.

(** C1 as stated fails: on a backend that reports itself unreadable each of
    the three getters raises instead of returning found=false. *)
Lemma scalar_getters_raise_on_unreadable_file :
  is_valid (file file_closed) = false
  /\ get_string file_closed EmptyString "title" origin0 = (Throw FileCannotBeRead, origin0)
  /\ get_int file_closed 0 "nx" origin0 = (Throw FileCannotBeRead, origin0)
  /\ get_real file_closed 0%R "Bpxy" origin0 = (Throw FileCannotBeRead, origin0).
Proof. repeat split. Qed.

(** The cursor after the vector getter, case by case. *)
Lemma get_vector_int_unreadable gf var name len offset c :
  is_valid (file gf) = false ->
  get_vector_int gf var name len offset c = (Ok (false, var), c).
Proof. intros H. unfold get_vector_int. rewrite H. reflexivity. Qed.

Lemma get_vector_int_read_fails gf var name len offset c :
  is_valid (file gf) = true ->
  read_int (file gf) (offset, 0, 0) name len 0 0 = None ->
  get_vector_int gf var name len offset c = (Ok (false, var), (offset, 0, 0)).
Proof.
  intros Hv Hr. unfold get_vector_int, bind, setGlobalOrigin, file_read_int.
  rewrite Hv. simpl. rewrite Hr. reflexivity.
Qed.

Lemma get_vector_int_read_succeeds gf var name len offset c d var' :
  is_valid (file gf) = true ->
  read_int (file gf) (offset, 0, 0) name len 0 0 = Some d ->
  store_prefix d len var = Ok var' ->
  get_vector_int gf var name len offset c = (Ok (true, var'), origin0).
Proof.
  intros Hv Hr Hs.
  unfold get_vector_int, bind, setGlobalOrigin, file_read_int, lift.
  rewrite Hv. simpl. rewrite Hr, Hs. reflexivity.
Qed.

(** X19: the vector getters never raise: whatever the backend does, the
    outcome of a call is not an exception. *)
Lemma get_vector_never_throws gf name len offset c :
  (forall var e c', get_vector_int gf var name len offset c <> (Throw e, c'))
  /\ (forall var e c', get_vector_real gf var name len offset c <> (Throw e, c')).
Proof.
  split; intros var e c'.
  - unfold get_vector_int, bind, setGlobalOrigin, file_read_int, lift, ret.
    destruct (is_valid (file gf)); simpl; [|congruence].
    destruct (read_int _ _ _ _ _ _); simpl; [|congruence].
    unfold store_prefix. destruct (_ <? len); simpl; congruence.
  - unfold get_vector_real, bind, setGlobalOrigin, file_read_real, lift, ret.
    destruct (is_valid (file gf)); simpl; [|congruence].
    destruct (read_real _ _ _ _ _ _); simpl; [|congruence].
    unfold store_prefix. destruct (_ <? len); simpl; congruence.
Qed.

(** C3, at the failing input: the file is readable and does not hold the
    variable; both vector getters return found=false and leave the cursor
    at the offset they moved it to, not at the origin. *)
Theorem vector_getter_leaves_cursor_displaced :
  get_vector_int file_2d [0; 0] "ixseps" 2 5 origin0
    = (Ok (false, [0; 0]), (5, 0, 0))
  /\ get_vector_real file_2d [0%R; 0%R] "zShift" 2 5 origin0
    = (Ok (false, [0%R; 0%R]), (5, 0, 0)).
Proof. split; reflexivity. Qed.

(** ** getField: absent variables *)

(** C8: when the backend is readable and reports no size for the variable,
    [getField] returns found=false and every cell of the handle is the
    default. *)
Theorem getField_absent_variable CHECK gf K m var name def c :
  is_valid (file gf) = true ->
  getSize (file gf) name = [] ->
  exists var',
    getField CHECK gf K m var name def c = (Ok (false, var'), c)
    /\ forall x y z, var' x y z = def.
Proof.
  intros Hv Hs. exists (fill def). split; [|reflexivity].
  unfold getField. rewrite Hv, Hs. reflexivity.
Qed.

Lemma getField_absent_variable_witness :
  exists var',
    getField 1 file_2d Field3D mesh_guards (fill 0%R) "Bxy" 1%R origin0
      = (Ok (false, var'), origin0)
    /\ forall x y z, var' x y z = 1%R.
Proof.
  apply (getField_absent_variable 1 file_2d Field3D mesh_guards (fill 0%R) "Bxy"
           1%R origin0); reflexivity.
Defined.

(** On a backend that reports itself unreadable [getField] throws before
    it asks for the size of the variable. *)
Example getField_unreadable_file :
  getField 1 file_closed Field2D mesh_plain (fill 0%R) "Bxy" 1%R origin0
  = (Throw CouldNotReadFromFile, origin0).
Proof. reflexivity. Qed.

(** ** getField: the read window *)

Lemma ASSERT1_cases CHECK b c :
  ASSERT1 CHECK b c = if (1 <=? CHECK) && negb b then (Throw AssertionFailed, c)
                      else (Ok tt, c).
Proof. unfold ASSERT1. destruct ((1 <=? CHECK) && negb b); reflexivity. Qed.

(** C5: on a double-null mesh the y read offset is [OffsetY] plus twice the
    y-guard count of the file once [OffsetY] has reached [ny_inner], and
    [OffsetY] itself below it; with at most one X-point it is [OffsetY]. *)
Theorem y_read_start_double_null CHECK gf m c :
  (numberOfXPoints m = 2 -> OffsetY m >= ny_inner gf ->
     y_read_start CHECK gf m c = (Ok (OffsetY m + 2 * grid_yguards gf), c))
  /\ (numberOfXPoints m = 2 -> OffsetY m < ny_inner gf ->
     y_read_start CHECK gf m c = (Ok (OffsetY m), c))
  /\ (numberOfXPoints m <= 1 ->
     y_read_start CHECK gf m c = (Ok (OffsetY m), c)).
Proof.
  unfold y_read_start.
  repeat split.
  - intros H2 Hge. rewrite H2. simpl. unfold bind. rewrite ASSERT1_cases.
    simpl. rewrite andb_false_r.
    destruct (OffsetY m >=? ny_inner gf) eqn:E; [reflexivity|].
    exfalso. rewrite Z.geb_leb in E. apply Z.leb_gt in E. lia.
  - intros H2 Hlt. rewrite H2. simpl. unfold bind. rewrite ASSERT1_cases.
    simpl. rewrite andb_false_r.
    destruct (OffsetY m >=? ny_inner gf) eqn:E; [|reflexivity].
    exfalso. rewrite Z.geb_leb in E. apply Z.leb_le in E. lia.
  - intros H1.
    destruct (numberOfXPoints m >? 1) eqn:E; [|reflexivity].
    exfalso. rewrite Z.gtb_ltb in E. apply Z.ltb_lt in E. lia.
Qed.

Lemma y_read_start_double_null_witness :
  y_read_start 1 file_2d_yguards mesh_outer origin0 = (Ok 10, origin0)
  /\ y_read_start 1 file_2d_yguards mesh_inner origin0 = (Ok 2, origin0)
  /\ y_read_start 1 file_2d_yguards mesh_plain origin0 = (Ok 0, origin0).
Proof.
  destruct (y_read_start_double_null 1 file_2d_yguards mesh_outer origin0)
    as (Hup & _ & _).
  destruct (y_read_start_double_null 1 file_2d_yguards mesh_inner origin0)
    as (_ & Hlow & _).
  destruct (y_read_start_double_null 1 file_2d_yguards mesh_plain origin0)
    as (_ & _ & Hsingle).
  split; [|split].
  - apply Hup; [reflexivity | simpl; lia].
  - apply Hlow; [reflexivity | simpl; lia].
  - apply Hsingle. simpl. lia.
Defined.

(** What [x_guards] returns is always the first arm. *)
Lemma x_guards_Ok CHECK m dims c arm nx xd c' :
  x_guards CHECK m dims c = (Ok (arm, nx, xd), c') ->
  arm = IncludingGhostpoints /\ nx = LocalNx m
  /\ xd = grid_xguards m dims - mxg m /\ 0 <= grid_xguards m dims /\ c' = c.
Proof.
  unfold x_guards, bind, ret, throw, ASSERT1.
  destruct ((1 <=? CHECK) && negb _); [discriminate|].
  destruct (grid_xguards m dims >=? 0) eqn:E.
  - destruct ((1 <=? CHECK) && negb _); [discriminate|].
    intros H. inversion H. rewrite Z.geb_leb in E. apply Z.leb_le in E. auto.
  - destruct (grid_xguards m dims =? 0) eqn:E0; [|discriminate].
    exfalso. apply Z.eqb_eq in E0. rewrite E0 in E. discriminate.
Qed.

(** C10: the arm for [grid_xguards == 0] is never taken; a file that
    stores no x-guard cells goes through the first arm, with a window of
    [LocalNx] columns and the destination offset [- mxg], which a checked
    build then rejects when the mesh has x-guard cells. *)
Theorem excluding_arm_unreachable CHECK m dims c :
  (forall nx xd c', x_guards CHECK m dims c <> (Ok (ExcludingGhostpoints, nx, xd), c'))
  /\ (grid_xguards m dims = 0 ->
      forall arm nx xd c', x_guards CHECK m dims c = (Ok (arm, nx, xd), c') ->
      arm = IncludingGhostpoints /\ nx = LocalNx m /\ xd = - mxg m)
  /\ (nth 0 dims 0 = GlobalNx m - 2 * mxg m ->
      x_guards CHECK m dims c =
        if (1 <=? CHECK) && (0 <? mxg m) then (Throw AssertionFailed, c)
        else (Ok (IncludingGhostpoints, LocalNx m, - mxg m), c)).
Proof.
  split; [|split].
  - intros nx xd c' H. apply x_guards_Ok in H. destruct H as [H _]. discriminate.
  - intros H0 arm nx xd c' H. apply x_guards_Ok in H.
    destruct H as (-> & -> & -> & _). rewrite H0. auto.
  - intros Hd. unfold x_guards, bind, ret, throw, ASSERT1.
    unfold grid_xguards. rewrite Hd, Z.sub_diag. simpl.
    rewrite andb_false_r.
    replace (negb (- mxg m >=? 0)) with (0 <? mxg m).
    + destruct ((1 <=? CHECK) && (0 <? mxg m)); reflexivity.
    + rewrite Z.geb_leb. destruct (0 <? mxg m) eqn:E1, (0 <=? - mxg m) eqn:E2;
        try reflexivity; bool_to_Prop; lia.
Qed.

Lemma excluding_arm_unreachable_witness :
  x_guards 0 mesh_guards [3; 2] origin0
    = (Ok (IncludingGhostpoints, 5, -1), origin0)
  /\ x_guards 1 mesh_guards [3; 2] origin0 = (Throw AssertionFailed, origin0).
Proof.
  destruct (excluding_arm_unreachable 0 mesh_guards [3; 2] origin0)
    as (_ & _ & H0).
  destruct (excluding_arm_unreachable 1 mesh_guards [3; 2] origin0)
    as (_ & _ & H1).
  split.
  - apply H0. reflexivity.
  - apply H1. reflexivity.
Defined.

(** What that means for a file without x-guard cells on a mesh with one
    guard cell on either side: a checked build stops at the assertion, an
    unchecked build stores the first column through [&var(-1, yd)] for a
    [Field2D], and has the 3-D reader refuse the negative offset for a
    [Field3D]. *)
Example getField_no_x_guards_checked :
  getField 1 file_2d Field2D mesh_guards (fill 0%R) "Rxy" 0%R origin0
  = (Throw AssertionFailed, origin0).
Proof. reflexivity. Qed.

Example getField_no_x_guards_unchecked_2d :
  getField 0 file_2d Field2D mesh_guards (fill 0%R) "Rxy" 0%R origin0
  = (Fault, (0, 0, 0)).
Proof. reflexivity. Qed.

Example getField_no_x_guards_unchecked_3d :
  getField 0 file_3d_real Field3D mesh_guards (fill 0%R) "phi" 0%R origin0
  = (Throw CouldNotReadFromGrid, origin0).
Proof. reflexivity. Qed.

Lemma y_guards_Ok CHECK gf m dims c arm ny yd c' :
  y_guards CHECK gf m dims c = (Ok (arm, ny, yd), c') ->
  (0 < grid_yguards gf ->
     arm = IncludingGhostpoints /\ ny = LocalNy m /\ yd = grid_yguards gf - myg m)
  /\ (grid_yguards gf = 0 ->
     arm = ExcludingGhostpoints /\ ny = LocalNy m - 2 * myg m /\ yd = myg m)
  /\ 0 <= grid_yguards gf /\ c' = c.
Proof.
  unfold y_guards, bind, ret, throw, ASSERT1.
  destruct (grid_yguards gf >? 0) eqn:E.
  - rewrite Z.gtb_ltb in E. apply Z.ltb_lt in E.
    destruct ((1 <=? CHECK) && negb _); [discriminate|].
    destruct ((1 <=? CHECK) && negb _); [discriminate|].
    intros H. inversion H. repeat split; auto; lia.
  - rewrite Z.gtb_ltb in E. apply Z.ltb_ge in E.
    destruct (grid_yguards gf =? 0) eqn:E0; [|discriminate].
    apply Z.eqb_eq in E0.
    destruct ((1 <=? CHECK) && negb _); [discriminate|].
    intros H. inversion H. repeat split; auto; lia.
Qed.

(** C4, as the code has it: the x-guard count is computed from the stored
    x extent of the variable; the y-guard count is the scalar
    [y_boundary_guards] of the file, read once by the constructor (zero when
    the file has none), and the y window follows from it and the mesh
    alone. *)
Theorem guard_counts_x_computed_y_from_file CHECK m dims c :
  (forall arm nx xd c', x_guards CHECK m dims c = (Ok (arm, nx, xd), c') ->
     grid_xguards m dims = Z.quot (nth 0 dims 0 - (GlobalNx m - 2 * mxg m)) 2
     /\ nx = LocalNx m /\ xd = grid_xguards m dims - mxg m)
  /\ (forall format name c0 gf c1,
        GridFile_new format name c0 = (Ok gf, c1) ->
        grid_yguards gf =
          match read_int format origin0 "y_boundary_guards" 1 1 0 with
          | Some d => d 0
          | None => 0
          end)
  /\ (forall gf arm ny yd c',
        y_guards CHECK gf m dims c = (Ok (arm, ny, yd), c') ->
        (0 < grid_yguards gf -> ny = LocalNy m /\ yd = grid_yguards gf - myg m)
        /\ (grid_yguards gf = 0 -> ny = LocalNy m - 2 * myg m /\ yd = myg m)).
Proof.
  split; [|split].
  - intros arm nx xd c' H. apply x_guards_Ok in H.
    destruct H as (_ & -> & -> & _). repeat split.
  - intros format name c0 gf c1. unfold GridFile_new.
    destruct (negb (openr format name)); [discriminate|].
    unfold bind, setGlobalOrigin, file_read_int, ret. intros H. inversion H.
    reflexivity.
  - intros gf arm ny yd c' H. apply y_guards_Ok in H.
    destruct H as (H1 & H2 & _). split; intros Hg.
    + destruct (H1 Hg) as (_ & -> & ->). auto.
    + destruct (H2 Hg) as (_ & -> & ->). auto.
Qed.

Lemma guard_counts_x_computed_y_from_file_witness :
  grid_xguards mesh_plain [3; 2] = 0
  /\ grid_yguards file_2d_yguards = 2
  /\ y_guards 0 file_2d_yguards mesh_plain [3; 2] origin0
     = (Ok (IncludingGhostpoints, 2, 2), origin0).
Proof.
  destruct (guard_counts_x_computed_y_from_file 0 mesh_plain [3; 2] origin0)
    as (Hx & Hnew & Hy).
  split; [|split].
  - apply (Hx IncludingGhostpoints 3 0 origin0). reflexivity.
  - apply (Hnew (file file_2d_yguards) "grid.nc"%string origin0 file_2d_yguards
             origin0).
    reflexivity.
  - reflexivity.
Defined.

(** C4 as stated fails: two files store the variable with the same extents
    and differ in their scalar [y_boundary_guards]; on the same mesh
    [getField] works with different y-guard counts and y windows. *)
Lemma y_guard_count_not_from_stored_extent :
  getSize (file file_2d) "Rxy" = getSize (file file_2d_yguards) "Rxy"
  /\ GridFile_new (file file_2d) "grid.nc" origin0 = (Ok file_2d, origin0)
  /\ GridFile_new (file file_2d_yguards) "grid.nc" origin0
     = (Ok file_2d_yguards, origin0)
  /\ grid_yguards file_2d <> grid_yguards file_2d_yguards
  /\ y_guards 0 file_2d mesh_plain (getSize (file file_2d) "Rxy") origin0
     = (Ok (ExcludingGhostpoints, 2, 0), origin0)
  /\ y_guards 0 file_2d_yguards mesh_plain (getSize (file file_2d_yguards) "Rxy")
       origin0
     = (Ok (IncludingGhostpoints, 2, 2), origin0).
Proof. repeat split. discriminate. Qed.

(** ** getField: the fields it returns *)

(** A successful load of a variable stored with 2 or 3 dimensions went
    through the read and both extrapolation steps. *)
Lemma getField_loaded CHECK gf K m var name def c var' c' :
  getField CHECK gf K m var name def c = (Ok (true, var'), c') ->
  (List.length (getSize (file gf) name) = 2 \/ List.length (getSize (file gf) name) = 3)%nat ->
  exists var1 var2 c1 c2 c3,
    (if nth 0 (getSize (file gf) name) 0 =? GlobalNx m - 2 * mxg m
     then extrapolate_x K m var1 else ret var1) c1 = (Ok var2, c2)
    /\ (if grid_yguards gf =? 0 then extrapolate_y K m var2 else ret var2) c2
       = (Ok var', c3).
Proof.
  intros H Hlen. unfold getField in H.
  destruct (negb (is_valid (file gf))); [discriminate|].
  apply bind_Ok in H. destruct H as (early & c0 & Hsw & H).
  assert (early = None) as ->.
  { unfold size_switch in Hsw.
    destruct Hlen as [E|E]; rewrite E in Hsw.
    - apply ret_Ok in Hsw. tauto.
    - destruct K; apply ret_Ok in Hsw; destruct Hsw as [-> _]; [|reflexivity].
      apply ret_Ok in H. destruct H as [H _]. discriminate. }
  apply bind_Ok in H. destruct H as (? & s1 & _ & H).
  apply bind_Ok in H. destruct H as (? & s2 & _ & H).
  apply bind_Ok in H. destruct H as (ys & s3 & _ & H).
  apply bind_Ok in H. destruct H as ([[? nx] xd] & s4 & _ & H).
  apply bind_Ok in H. destruct H as ([[? ny] yd] & s5 & _ & H).
  apply bind_Ok in H. destruct H as (var1 & c1 & _ & H).
  apply bind_Ok in H. destruct H as (var2 & c2 & Hex & H).
  apply bind_Ok in H. destruct H as (var3 & c3 & Hey & H).
  apply ret_Ok in H. destruct H as [E _]. inversion E; subst.
  eauto 10.
Qed.

(** C2: after a successful load of a 2-D or 3-D variable whose stored x
    extent is [GlobalNx - 2 mxg], every cell of the handle below [xstart]
    holds the value of the cell at [xstart] in its row, and every cell above
    [xend] the value of the cell at [xend]. *)
Theorem getField_x_guards_replicated CHECK gf K m var name def c var' c' :
  getField CHECK gf K m var name def c = (Ok (true, var'), c') ->
  (List.length (getSize (file gf) name) = 2 \/ List.length (getSize (file gf) name) = 3)%nat ->
  nth 0 (getSize (file gf) name) 0 = GlobalNx m - 2 * mxg m ->
  forall x y z, 0 <= y < LocalNy m -> 0 <= z < getNz K m ->
    (0 <= x < xstart m -> var' x y z = var' (xstart m) y z)
    /\ (xend m < x < LocalNx m -> var' x y z = var' (xend m) y z).
Proof.
  intros H Hlen Hx x y z Hy Hz.
  destruct (getField_loaded _ _ _ _ _ _ _ _ _ _ H Hlen)
    as (var1 & var2 & c1 & c2 & c3 & Hex & Hey).
  rewrite Hx, Z.eqb_refl in Hex.
  pose proof (extrapolate_x_uniform K m var1 c1 var2 c2 Hex) as U.
  destruct (grid_yguards gf =? 0).
  - split; intros Hr.
    + destruct (U x y z Hy Hz) as [Ulo _]. destruct (Ulo Hr) as (_ & B1 & B2).
      apply (extrapolate_y_keeps_equal_columns K m var2 c2 var' c3); try lia; auto.
      intros y0 z0 Hy0 Hz0. destruct (U x y0 z0 Hy0 Hz0) as [Ulo0 _].
      apply Ulo0. exact Hr.
    + destruct (U x y z Hy Hz) as [_ Uhi]. destruct (Uhi Hr) as (_ & B1 & B2).
      apply (extrapolate_y_keeps_equal_columns K m var2 c2 var' c3); try lia; auto.
      intros y0 z0 Hy0 Hz0. destruct (U x y0 z0 Hy0 Hz0) as [_ Uhi0].
      apply Uhi0. exact Hr.
  - apply ret_Ok in Hey. destruct Hey as [-> _].
    destruct (U x y z Hy Hz) as [Ulo Uhi].
    split; intros Hr; [apply Ulo | apply Uhi]; exact Hr.
Qed.

Lemma Ok_result {A} (r : outcome A * Origin) a0 :
  (exists a c, r = (Ok a, c)) -> r = (Ok (result r a0), snd r).
Proof. intros (a & c & ->). reflexivity. Qed.

Lemma Ok_true_result {A} (r : outcome (bool * A) * Origin) a0 :
  (exists a c, r = (Ok (true, a), c)) -> r = (Ok (true, snd (result r a0)), snd r).
Proof. intros (a & c & ->). reflexivity. Qed.

Lemma getField_x_guards_replicated_witness :
  snd (result (getField 0 file_2d Field2D mesh_low_guard (fill 0%R) "Rxy" 0%R origin0)
         (false, fill 0%R)) 0 1 0
  = snd (result (getField 0 file_2d Field2D mesh_low_guard (fill 0%R) "Rxy" 0%R origin0)
         (false, fill 0%R)) 1 1 0.
Proof.
  refine (proj1 (getField_x_guards_replicated 0 file_2d Field2D mesh_low_guard
            (fill 0%R) "Rxy" 0%R origin0 _ _ _ _ _ 0 1 0 _ _) _).
  - apply Ok_true_result. vm_compute. eexists. eexists. reflexivity.
  - left. reflexivity.
  - reflexivity.
  - simpl. lia.
  - simpl. lia.
  - simpl. lia.
Defined.

(** ** The spectral reconstructor *)

(** [ROUND] is within one half of its argument. *)
Lemma ROUND_nearest x : (Rabs (IZR (ROUND x) - x) <= / 2)%R.
Proof.
  unfold ROUND. destruct (Rlt_dec 0 x) as [Hx|Hx].
  - destruct (archimed (x + / 2)) as [H1 H2].
    rewrite minus_IZR. apply Rabs_le. lra.
  - destruct (archimed (/ 2 - x)) as [H1 H2].
    rewrite minus_IZR. apply Rabs_le. lra.
Qed.

Lemma ROUND_IZR n : ROUND (IZR n) = n.
Proof.
  unfold ROUND. destruct (Rlt_dec 0 (IZR n)) as [Hx|Hx].
  - rewrite <- (tech_up (IZR n + / 2) (n + 1)).
    + lia.
    + rewrite plus_IZR. lra.
    + rewrite plus_IZR. lra.
  - rewrite <- (tech_up (/ 2 - IZR n) (1 - n)).
    + lia.
    + rewrite minus_IZR. lra.
    + rewrite minus_IZR. lra.
Qed.

(** A mesh whose periodic coordinate spans 2 pi has one period. *)
Lemma zperiod_full_circle m : zlength m = (2 * PI)%R -> zperiod m = 1.
Proof.
  intros H. unfold zperiod, TWOPI. rewrite H.
  replace (2 * PI / (2 * PI))%R with (IZR 1).
  - apply ROUND_IZR.
  - pose proof PI_neq0. field. assumption.
Qed.

Lemma nth_error_range lo n (k : nat) :
  nth_error (range lo n) k =
    if (k <? Z.to_nat n)%nat then Some (lo + Z.of_nat k) else None.
Proof.
  destruct (k <? Z.to_nat n)%nat eqn:E.
  - apply Nat.ltb_lt in E.
    rewrite (nth_error_nth' _ 0) by (rewrite range_length; exact E).
    rewrite range_nth by exact E. reflexivity.
  - apply Nat.ltb_ge in E. apply nth_error_None. rewrite range_length. exact E.
Qed.

(** [zdata[j]] after a read of [n] values is the [j]-th value read, and is
    defined exactly for [0 <= j < n]. *)
Lemma zdata_at_array d n j :
  zdata_at (array_of d n) j = if (0 <=? j) && (j <? n) then Ok (d j) else Fault.
Proof.
  unfold zdata_at, array_of.
  destruct (j <? 0) eqn:E0; bool_to_Prop.
  - replace (0 <=? j) with false by (symmetry; apply Z.leb_gt; lia). reflexivity.
  - replace (0 <=? j) with true by (symmetry; apply Z.leb_le; lia). simpl.
    rewrite nth_error_map, nth_error_range.
    destruct (j <? n) eqn:E1; bool_to_Prop.
    + replace (Z.to_nat j <? Z.to_nat n)%nat with true
        by (symmetry; apply Nat.ltb_lt; lia).
      simpl. f_equal. f_equal. lia.
    + replace (Z.to_nat j <? Z.to_nat n)%nat with false
        by (symmetry; apply Nat.ltb_ge; lia).
      reflexivity.
Qed.

Lemma load_mode_array d n zp maxmode i F :
  load_mode (array_of d n) zp maxmode i = Ok F ->
  F = if i * zp <=? maxmode then (d (2 * i * zp - 1), d (2 * i * zp))
      else (0%R, 0%R).
Proof.
  unfold load_mode. rewrite !zdata_at_array.
  destruct (i * zp <=? maxmode).
  - destruct ((0 <=? i * zp * 2 - 1) && (i * zp * 2 - 1 <? n)); [|discriminate].
    destruct ((0 <=? i * zp * 2) && (i * zp * 2 <? n)); [|discriminate].
    intros H. inversion H. f_equal; f_equal; lia.
  - intros H. inversion H. reflexivity.
Qed.

Lemma load_modes_nth zdata zp maxmode l Fs :
  load_modes zdata zp maxmode l = Ok Fs ->
  List.length Fs = List.length l
  /\ forall k, (k < List.length l)%nat ->
       load_mode zdata zp maxmode (nth k l 0) = Ok (nth k Fs (0%R, 0%R)).
Proof.
  revert Fs. induction l as [|i l IH]; intros Fs H; simpl in H.
  - inversion H. split; [reflexivity | intros k Hk; inversion Hk].
  - destruct (load_mode zdata zp maxmode i) as [F| |] eqn:EF; try discriminate.
    destruct (load_modes zdata zp maxmode l) as [Fs'| |]; try discriminate.
    inversion H; subst Fs. destruct (IH Fs' eq_refl) as [Hl Hn].
    split; [simpl; congruence|].
    intros [|k] Hk; simpl; [exact EF|]. apply Hn. simpl in Hk. lia.
Qed.

(** The spectrum that [load_fdata] builds from a row of [n] stored values. *)
Lemma load_fdata_spectrum d n ncz zp maxmode fdata :
  0 <= ncz ->
  load_fdata (array_of d n) ncz zp maxmode = Ok fdata ->
  List.length fdata = (Z.to_nat (ncz / 2) + 1)%nat
  /\ nth 0 fdata (0%R, 0%R) = (d 0, 0%R)
  /\ forall i, 1 <= i <= ncz / 2 ->
       nth (Z.to_nat i) fdata (0%R, 0%R) =
         if i * zp <=? maxmode then (d (2 * i * zp - 1), d (2 * i * zp))
         else (0%R, 0%R).
Proof.
  intros Hncz H. unfold load_fdata in H. rewrite zdata_at_array in H.
  destruct ((0 <=? 0) && (0 <? n)); [|discriminate].
  destruct (load_modes _ _ _ _) as [Fs| |] eqn:EFs; try discriminate.
  inversion H; subst fdata. clear H.
  apply load_modes_nth in EFs. destruct EFs as [Hl Hn].
  rewrite range_length in Hl, Hn.
  rewrite Z.quot_div_nonneg in Hl, Hn by lia.
  split; [simpl; lia|]. split; [reflexivity|].
  intros i Hi.
  replace (Z.to_nat i) with (S (Z.to_nat (i - 1))) by lia. simpl.
  specialize (Hn (Z.to_nat (i - 1)) ltac:(lia)).
  try rewrite Z.quot_div_nonneg in Hn by lia.
  rewrite range_nth in Hn by lia.
  replace (1 + Z.of_nat (Z.to_nat (i - 1))) with i in Hn by lia.
  apply load_mode_array in Hn. exact Hn.
Qed.

Lemma store_z_Ok m var x y n d var' :
  store_z m var x y n d = Ok var' ->
  (forall k, 0 <= k < n -> var' x y k = d k)
  /\ (forall x' y' z', (x', y') <> (x, y) -> var' x' y' z' = var x' y' z').
Proof.
  unfold store_z. destruct (n <=? 0) eqn:En; bool_to_Prop.
  - intros H. inversion H. split; [intros; lia | reflexivity].
  - destruct (_ && _); [|discriminate]. intros H. inversion H. split.
    + intros k Hk. rewrite !Z.eqb_refl. simpl.
      replace (0 <=? k) with true by (symmetry; apply Z.leb_le; lia).
      replace (k <? n) with true by (symmetry; apply Z.ltb_lt; lia).
      reflexivity.
    + intros x' y' z' Hne.
      destruct (x' =? x) eqn:Ex; [|reflexivity].
      destruct (y' =? y) eqn:Ey; [|reflexivity].
      bool_to_Prop. subst. exfalso. apply Hne. reflexivity.
Qed.

(** What a successful turn of the row loop of [readgrid_3dvar_fft] did. *)
Lemma fft_row_Ok gf m name size2 maxmode yread ydest xread xdest jx jy var c var' c' :
  fft_row gf m name size2 maxmode yread ydest xread xdest jx jy var c
    = (Ok (true, var'), c') ->
  exists stored fdata,
    read_real (file gf) (jx, jy, 0) name 1 1 size2 = Some stored
    /\ load_fdata (array_of stored size2) (LocalNz m) (zperiod m) maxmode = Ok fdata
    /\ store_z m var (jx - xread + xdest) (jy - yread + ydest) (LocalNz m)
         (irfft fdata (LocalNz m)) = Ok var'.
Proof.
  unfold fft_row, bind, setGlobalOrigin, file_read_real, lift, ret. cbv zeta.
  destruct (read_real (file gf) (jx, jy, 0) name 1 1 size2) as [d|];
    [|discriminate].
  destruct (load_fdata _ _ _ _) as [fdata| |] eqn:El; try discriminate.
  destruct (store_z _ _ _ _ _ _) as [v| |] eqn:Es; try discriminate.
  intros H. inversion H. subst. exists d, fdata. repeat split; assumption.
Qed.

(** ** The row loops of the 3-D readers *)

Lemma for_each_until_cons i l body v c v' c' :
  for_each_until (i :: l) body v c = (Ok (true, v'), c') ->
  exists v1 c1, body i v c = (Ok (true, v1), c1)
                /\ for_each_until l body v1 c1 = (Ok (true, v'), c').
Proof.
  simpl. intros H. apply bind_Ok in H. destruct H as ([b v1] & c1 & Hb & H).
  simpl in H. destruct b.
  - exists v1, c1. auto.
  - apply ret_Ok in H. destruct H as [H _]. discriminate.
Qed.

(** A loop that ran to its end established what each of its turns
    established, when the turns write to separate columns of cells: [T j]
    holds of the (x, y) that turn [j] may write to, [P j] is what turn [j]
    establishes. *)
Lemma for_each_until_rows (T : Z -> Z -> Z -> Prop) (P : Z -> Field -> Prop) body l :
  NoDup l ->
  (forall j, In j l -> forall v c v1 c1,
      body j v c = (Ok (true, v1), c1) ->
      P j v1 /\ forall x y z, ~ T j x y -> v1 x y z = v x y z) ->
  (forall j v v', P j v -> (forall x y z, T j x y -> v' x y z = v x y z) -> P j v') ->
  (forall i j x y, In i l -> In j l -> i <> j -> T i x y -> ~ T j x y) ->
  forall v c v' c',
  for_each_until l body v c = (Ok (true, v'), c') ->
  (forall j, In j l -> P j v')
  /\ (forall x y z, (forall j, In j l -> ~ T j x y) -> v' x y z = v x y z).
Proof.
  induction l as [|i l IH]; intros Hnd Hbody Hstable Hdisj v c v' c' H.
  - simpl in H. apply ret_Ok in H. destruct H as [E _]. inversion E; subst.
    split; [intros j [] | reflexivity].
  - apply for_each_until_cons in H. destruct H as (v1 & c1 & Hb & Hl).
    inversion Hnd as [|? ? Hni Hnd']; subst.
    destruct (Hbody i (or_introl eq_refl) _ _ _ _ Hb) as [HP Hframe].
    destruct (IH Hnd' (fun j Hj => Hbody j (or_intror Hj)) Hstable
                (fun a b x y Ha Hb => Hdisj a b x y (or_intror Ha) (or_intror Hb))
                _ _ _ _ Hl) as [IH1 IH2].
    split.
    + intros j [<-|Hj]; [|apply IH1; exact Hj].
      apply (Hstable i v1 v' HP). intros x y z HT. apply IH2.
      intros j Hj. apply (Hdisj i j x y); auto.
      * left; reflexivity.
      * right; exact Hj.
      * intros E. subst j. contradiction.
    + intros x y z Hout. rewrite IH2.
      * apply Hframe. apply Hout. left; reflexivity.
      * intros j Hj. apply Hout. right; exact Hj.
Qed.

(** Both 3-D readers run the same two loops around a row body; when the
    body fills row (jx, jy) of the window with [n] values satisfying [Q jx
    jy] and touches no other row, the loops fill every row of the window. *)
Section RowLoops.

Variables (xread xdest yread ydest n : Z).
Variable Q : Z -> Z -> (Z -> R) -> Prop.
Variable row : Z -> Z -> Field -> M (bool * Field).

Hypothesis row_fills : forall jx jy v c v1 c1,
  row jx jy v c = (Ok (true, v1), c1) ->
  (exists val, Q jx jy val
     /\ forall k, 0 <= k < n -> v1 (jx - xread + xdest) (jy - yread + ydest) k = val k)
  /\ (forall x y z, (x, y) <> (jx - xread + xdest, jy - yread + ydest) ->
        v1 x y z = v x y z).

Lemma row_loops_fill xsize ysize v c v' c' :
  for_each_until (range xread xsize)
    (fun jx var => for_each_until (range yread ysize) (row jx) var) v c
    = (Ok (true, v'), c') ->
  forall jx jy, xread <= jx < xread + xsize -> yread <= jy < yread + ysize ->
  exists val, Q jx jy val
    /\ forall k, 0 <= k < n -> v' (jx - xread + xdest) (jy - yread + ydest) k = val k.
Proof.
  intros H jx jy Hx Hy.
  apply (for_each_until_rows
           (fun jx x y => x = jx - xread + xdest)
           (fun jx v => forall jy, In jy (range yread ysize) ->
              exists val, Q jx jy val
                /\ forall k, 0 <= k < n ->
                     v (jx - xread + xdest) (jy - yread + ydest) k = val k)) in H.
  - destruct H as [H _]. apply H; apply in_range; assumption.
  - apply range_NoDup.
  - intros ix _ w c0 w1 c1 Hin.
    apply (for_each_until_rows
             (fun jy x y => x = ix - xread + xdest /\ y = jy - yread + ydest)
             (fun jy v => exists val, Q ix jy val
                /\ forall k, 0 <= k < n ->
                     v (ix - xread + xdest) (jy - yread + ydest) k = val k)) in Hin.
    + destruct Hin as [H1 H2]. split; [exact H1|].
      intros x y z Hne. apply H2. intros j _ [E _]. contradiction.
    + apply range_NoDup.
    + intros iy _ u c2 u1 c3 Hrow. apply row_fills in Hrow.
      destruct Hrow as [H1 H2]. split; [exact H1|].
      intros x y z Hne. apply H2. intros E. inversion E. apply Hne. auto.
    + intros iy u u' (val & HQ & Hval) Hsame. exists val. split; [exact HQ|].
      intros k Hk. rewrite Hsame by auto. apply Hval, Hk.
    + intros a b x y _ _ Hab [_ Ea] [_ Eb]. lia.
  - intros ix u u' HP Hsame iy Hiy. destruct (HP iy Hiy) as (val & HQ & Hval).
    exists val. split; [exact HQ|].
    intros k Hk. rewrite Hsame by reflexivity. apply Hval, Hk.
  - intros a b x y _ _ Hab Ea Eb. lia.
Qed.

End RowLoops.

(** ** The real-space reader *)

Lemma real_row_Ok gf m name size2 yread ydest xread xdest jx jy var c var' c' :
  real_row gf m name size2 yread ydest xread xdest jx jy var c
    = (Ok (true, var'), c') ->
  exists stored,
    read_real (file gf) (jx, jy, 0) name 1 1 size2 = Some stored
    /\ store_z m var (jx - xread + xdest) (jy - yread + ydest) size2 stored = Ok var'.
Proof.
  unfold real_row, bind, setGlobalOrigin, file_read_real, lift, ret.
  destruct (read_real (file gf) (jx, jy, 0) name 1 1 size2) as [d|];
    [|discriminate].
  destruct (store_z _ _ _ _ _ _) as [v| |] eqn:Es; try discriminate.
  intros H. inversion H. subst. exists d. split; [reflexivity | assumption].
Qed.

(** A 3-D reader that returned true ran its two loops to the end. *)
Lemma reader_returned_true (loops : M (bool * Field)) (bad short : bool) var c var' c' :
  (if bad then ret (false, var)
   else if short then ret (false, var)
   else r <- loops ;;
        if fst r then setGlobalOrigin 0 0 0 ;; ret (true, snd r)
        else ret (false, snd r)) c = (Ok (true, var'), c') ->
  exists c1, loops c = (Ok (true, var'), c1).
Proof.
  destruct bad; [intros H; apply ret_Ok in H; destruct H; discriminate|].
  destruct short; [intros H; apply ret_Ok in H; destruct H; discriminate|].
  intros H. apply bind_Ok in H. destruct H as ([b v] & c1 & Hl & H). simpl in H.
  destruct b.
  - apply bind_Ok in H. destruct H as (? & ? & _ & H). apply ret_Ok in H.
    destruct H as [E _]. inversion E; subst. exists c1. exact Hl.
  - apply ret_Ok in H. destruct H; discriminate.
Qed.

(** The spectral reader first reports the modes; when it returned, the
    division of the report was defined and the rest of the body ran. *)
Lemma fft_reader_after_report gf m name yread ydest ysize xread xdest xsize var c r c' :
  readgrid_3dvar_fft gf m name yread ydest ysize xread xdest xsize var c = (Ok r, c') ->
  (if bad_arguments yread ydest ysize xread xdest xsize then ret (false, var)
   else if negb (Nat.eqb (List.length (getSize (file gf) name)) 3) then ret (false, var)
   else
     r <- for_each_until (range xread xsize)
            (fun jx var =>
               for_each_until (range yread ysize)
                 (fft_row gf m name (nth 2 (getSize (file gf) name) 0)
                    (Z.quot (nth 2 (getSize (file gf) name) 0 - 1) 2)
                    yread ydest xread xdest jx) var) var ;;
     if fst r then setGlobalOrigin 0 0 0 ;; ret (true, snd r)
     else ret (false, snd r)) c
  = (Ok r, c').
Proof.
  unfold readgrid_3dvar_fft.
  destruct (bad_arguments _ _ _ _ _ _); [trivial|].
  destruct (negb _); [trivial|]. cbv zeta.
  intros H. apply bind_Ok in H. destruct H as (q & c1 & Hq & H).
  unfold lift in Hq. inversion Hq; subst c1. exact H.
Qed.

(** The report is defined whenever [zperiod] is not zero. *)
Lemma modes_reported_defined ncz zp maxmode :
  zp <> 0 -> exists q, modes_reported ncz zp maxmode = Ok q.
Proof.
  intros Hzp. unfold modes_reported, int_div.
  destruct (zp >? maxmode); [eauto|].
  destruct (zp =? 0) eqn:E; [apply Z.eqb_eq in E; contradiction | eauto].
Qed.

(** When the report is defined, the reader is the rest of its body. *)
Lemma fft_reader_report_defined gf m name yread ydest ysize xread xdest xsize var c :
  zperiod m <> 0 ->
  readgrid_3dvar_fft gf m name yread ydest ysize xread xdest xsize var c =
  (if bad_arguments yread ydest ysize xread xdest xsize then ret (false, var)
   else if negb (Nat.eqb (List.length (getSize (file gf) name)) 3) then ret (false, var)
   else
     r <- for_each_until (range xread xsize)
            (fun jx var =>
               for_each_until (range yread ysize)
                 (fft_row gf m name (nth 2 (getSize (file gf) name) 0)
                    (Z.quot (nth 2 (getSize (file gf) name) 0 - 1) 2)
                    yread ydest xread xdest jx) var) var ;;
     if fst r then setGlobalOrigin 0 0 0 ;; ret (true, snd r)
     else ret (false, snd r)) c.
Proof.
  intros Hzp. unfold readgrid_3dvar_fft.
  destruct (bad_arguments _ _ _ _ _ _); [reflexivity|].
  destruct (negb _); [reflexivity|]. cbv zeta.
  destruct (modes_reported_defined (LocalNz m) (zperiod m)
              (Z.quot (nth 2 (getSize (file gf) name) 0 - 1) 2) Hzp) as (q & Hq).
  unfold bind at 1. unfold lift. rewrite Hq. reflexivity.
Qed.

Lemma readgrid_3dvar_real_rows gf m name yread ydest ysize xread xdest xsize
    var c var' c' :
  readgrid_3dvar_real gf m name yread ydest ysize xread xdest xsize var c
    = (Ok (true, var'), c') ->
  forall jx jy, xread <= jx < xread + xsize -> yread <= jy < yread + ysize ->
  exists stored,
    read_real (file gf) (jx, jy, 0) name 1 1 (nth 2 (getSize (file gf) name) 0)
      = Some stored
    /\ forall k, 0 <= k < nth 2 (getSize (file gf) name) 0 ->
         var' (jx - xread + xdest) (jy - yread + ydest) k = stored k.
Proof.
  intros H. unfold readgrid_3dvar_real in H.
  apply reader_returned_true in H. destruct H as (c1 & H).
  refine (row_loops_fill xread xdest yread ydest (nth 2 (getSize (file gf) name) 0)
            (fun jx jy val =>
               read_real (file gf) (jx, jy, 0) name 1 1
                 (nth 2 (getSize (file gf) name) 0) = Some val)
            _ _ xsize ysize var c var' c1 H).
  intros jx jy v c0 v1 c2 Hrow.
  apply real_row_Ok in Hrow. destruct Hrow as (stored & Hr & Hs).
  apply store_z_Ok in Hs. destruct Hs as [S1 S2].
  split; [exists stored; auto | exact S2].
Qed.

Lemma readField3D_size_mismatch gf m name ys yd ny xs xd nx size var c :
  hasVar gf "nz" = true ->
  List.length size = 3%nat ->
  nth 2 size 0 <> LocalNz m ->
  readField3D gf m name ys yd ny xs xd nx size var c
    = (Throw (IncorrectSize (nth 2 size 0) (LocalNz m)), c).
Proof.
  intros Hnz Hlen Hne. unfold readField3D. rewrite Hnz, Hlen. cbv iota beta.
  change (3 <=? 2)%nat with false. cbv iota.
  destruct (nth 2 size 0 =? LocalNz m) eqn:E; [|reflexivity].
  apply Z.eqb_eq in E. contradiction.
Qed.

Lemma bind_throws {A B} (m : M A) (k : A -> M B) :
  goes_on_or_throws m -> (forall a, throws (k a)) -> throws (bind m k).
Proof.
  intros Hm Hk c. unfold bind.
  destruct (Hm c) as [(a & c1 & ->)|(e & c1 & ->)].
  - apply Hk.
  - exists e, c1. reflexivity.
Qed.

Lemma ASSERT1_goes_on_or_throws CHECK b : goes_on_or_throws (ASSERT1 CHECK b).
Proof.
  intros c. unfold ASSERT1. destruct ((1 <=? CHECK) && negb b).
  - right. exists AssertionFailed, c. reflexivity.
  - left. exists tt, c. reflexivity.
Qed.

Lemma ret_goes_on {A} (a : A) : goes_on_or_throws (ret a).
Proof. intros c. left. exists a, c. reflexivity. Qed.

Lemma throw_throws {A} e : goes_on_or_throws (@throw A e).
Proof. intros c. right. exists e, c. reflexivity. Qed.

Lemma bind_goes_on_or_throws {A B} (m : M A) (k : A -> M B) :
  goes_on_or_throws m -> (forall a, goes_on_or_throws (k a)) ->
  goes_on_or_throws (bind m k).
Proof.
  intros Hm Hk c. unfold bind.
  destruct (Hm c) as [(a & c1 & ->)|(e & c1 & ->)].
  - apply Hk.
  - right. exists e, c1. reflexivity.
Qed.

Lemma y_read_start_goes_on_or_throws CHECK gf m :
  goes_on_or_throws (y_read_start CHECK gf m).
Proof.
  unfold y_read_start. destruct (numberOfXPoints m >? 1); [|apply ret_goes_on].
  apply bind_goes_on_or_throws; [apply ASSERT1_goes_on_or_throws|].
  intros _. destruct (OffsetY m >=? ny_inner gf); apply ret_goes_on.
Qed.

Lemma x_guards_goes_on_or_throws CHECK m dims :
  goes_on_or_throws (x_guards CHECK m dims).
Proof.
  unfold x_guards.
  apply bind_goes_on_or_throws; [apply ASSERT1_goes_on_or_throws|]. intros _.
  destruct (grid_xguards m dims >=? 0).
  - apply bind_goes_on_or_throws; [apply ASSERT1_goes_on_or_throws|]. intros _.
    apply ret_goes_on.
  - destruct (grid_xguards m dims =? 0); [apply ret_goes_on | apply throw_throws].
Qed.

Lemma y_guards_goes_on_or_throws CHECK gf m dims :
  goes_on_or_throws (y_guards CHECK gf m dims).
Proof.
  unfold y_guards.
  destruct (grid_yguards gf >? 0).
  - apply bind_goes_on_or_throws; [apply ASSERT1_goes_on_or_throws|]. intros _.
    apply bind_goes_on_or_throws; [apply ASSERT1_goes_on_or_throws|]. intros _.
    apply ret_goes_on.
  - destruct (grid_yguards gf =? 0); [|apply throw_throws].
    apply bind_goes_on_or_throws; [apply ASSERT1_goes_on_or_throws|]. intros _.
    apply ret_goes_on.
Qed.

(** A 3-D variable in a file marked as real space whose stored z extent is
    not [LocalNz] makes [getField] throw, whatever else holds. *)
Lemma getField_size_mismatch_throws CHECK gf m var name def c :
  hasVar gf "nz" = true ->
  List.length (getSize (file gf) name) = 3%nat ->
  nth 2 (getSize (file gf) name) 0 <> LocalNz m ->
  exists e c', getField CHECK gf Field3D m var name def c = (Throw e, c').
Proof.
  intros Hnz Hlen Hne.
  assert (Hv : is_valid (file gf) = true).
  { unfold hasVar in Hnz. destruct (is_valid (file gf)); [reflexivity|discriminate]. }
  unfold getField. rewrite Hv. simpl.
  unfold size_switch. rewrite Hlen.
  unfold bind at 1. unfold ret at 1.
  match goal with
  | |- exists e c', ?body c = (Throw e, c') => revert c; change (throws body)
  end.
  apply bind_throws; [apply ASSERT1_goes_on_or_throws|]. intros _.
  apply bind_throws; [apply ASSERT1_goes_on_or_throws|]. intros _.
  apply bind_throws; [apply y_read_start_goes_on_or_throws|]. intros ys.
  apply bind_throws; [apply x_guards_goes_on_or_throws|]. intros [[? nx] xd].
  apply bind_throws; [apply y_guards_goes_on_or_throws|]. intros [[? ny] yd].
  intros c. unfold bind. simpl.
  rewrite readField3D_size_mismatch by assumption. eauto.
Qed.

(** C7: in a file marked as real space (it has the variable [nz]), a 3-D
    variable whose stored z extent differs from [LocalNz] makes the load
    throw: [readField] throws "incorrect size" and [getField] ends in an
    exception; when the extents agree, a load that returns has copied into
    every (x, y) row of the window the [LocalNz] values read for it. *)
Theorem real_space_rows_copied_or_fatal CHECK gf m name var def c :
  hasVar gf "nz" = true ->
  List.length (getSize (file gf) name) = 3%nat ->
  (nth 2 (getSize (file gf) name) 0 <> LocalNz m ->
     (forall ys yd ny xs xd nx,
        readField3D gf m name ys yd ny xs xd nx (getSize (file gf) name) var c
        = (Throw (IncorrectSize (nth 2 (getSize (file gf) name) 0) (LocalNz m)), c))
     /\ exists e c', getField CHECK gf Field3D m var name def c = (Throw e, c'))
  /\ (nth 2 (getSize (file gf) name) 0 = LocalNz m ->
      forall ys yd ny xs xd nx var' c',
        readField3D gf m name ys yd ny xs xd nx (getSize (file gf) name) var c
        = (Ok var', c') ->
        forall jx jy k,
          xs <= jx < xs + nx -> ys <= jy < ys + ny -> 0 <= k < LocalNz m ->
          exists stored,
            read_real (file gf) (jx, jy, 0) name 1 1 (LocalNz m) = Some stored
            /\ var' (jx - xs + xd) (jy - ys + yd) k = stored k).
Proof.
  intros Hnz Hlen. split.
  - intros Hne. split.
    + intros. apply readField3D_size_mismatch; assumption.
    + apply getField_size_mismatch_throws; assumption.
  - intros Heq ys yd ny xs xd nx var' c' H jx jy k Hx Hy Hk.
    unfold readField3D in H. rewrite Hnz, Hlen, Heq, Z.eqb_refl in H. simpl in H.
    apply bind_Ok in H. destruct H as ([b v] & c1 & Hr & H). simpl in H.
    destruct b; [|discriminate].
    apply ret_Ok in H. destruct H as [-> _].
    destruct (readgrid_3dvar_real_rows _ _ _ _ _ _ _ _ _ _ _ _ _ Hr jx jy Hx Hy)
      as (stored & Hs & Hv).
    rewrite Heq in Hs, Hv. exists stored. split; [exact Hs | apply Hv, Hk].
Qed.

Lemma real_space_rows_copied_or_fatal_witness :
  readField3D file_3d_real mesh_fine "phi" 0 0 2 0 0 3
    (getSize (file file_3d_real) "phi") (fill 0%R) origin0
  = (Throw (IncorrectSize 4 8), origin0)
  /\ exists stored,
       read_real (file file_3d_real) (2, 1, 0) "phi" 1 1 4 = Some stored
       /\ result (readField3D file_3d_real mesh_plain "phi" 0 0 2 0 0 3
                    (getSize (file file_3d_real) "phi") (fill 0%R) origin0)
            (fill 0%R) 2 1 3 = stored 3.
Proof.
  split.
  - destruct (real_space_rows_copied_or_fatal 1 file_3d_real mesh_fine "phi"
                (fill 0%R) 0%R origin0 eq_refl eq_refl) as [Hbad _].
    assert (Hne : nth 2 (getSize (file file_3d_real) "phi") 0 <> LocalNz mesh_fine)
      by (simpl; lia).
    destruct (Hbad Hne) as [Hthrow _]. apply Hthrow.
  - destruct (real_space_rows_copied_or_fatal 1 file_3d_real mesh_plain "phi"
                (fill 0%R) 0%R origin0 eq_refl eq_refl) as [_ Hgood].
    apply (Hgood eq_refl 0 0 2 0 0 3 _ _
             (Ok_result _ (fill 0%R)
                ltac:(vm_compute; eexists; eexists; reflexivity)) 2 1 3);
      simpl; lia.
Defined.

(** ** The spectrum of a row *)

Lemma readgrid_3dvar_fft_rows gf m name yread ydest ysize xread xdest xsize
    var c var' c' :
  readgrid_3dvar_fft gf m name yread ydest ysize xread xdest xsize var c
    = (Ok (true, var'), c') ->
  forall jx jy, xread <= jx < xread + xsize -> yread <= jy < yread + ysize ->
  exists stored fdata,
    read_real (file gf) (jx, jy, 0) name 1 1 (nth 2 (getSize (file gf) name) 0)
      = Some stored
    /\ load_fdata (array_of stored (nth 2 (getSize (file gf) name) 0)) (LocalNz m)
         (zperiod m) (Z.quot (nth 2 (getSize (file gf) name) 0 - 1) 2) = Ok fdata
    /\ forall k, 0 <= k < LocalNz m ->
         var' (jx - xread + xdest) (jy - yread + ydest) k = irfft fdata (LocalNz m) k.
Proof.
  intros H. apply fft_reader_after_report in H.
  apply reader_returned_true in H. destruct H as (c1 & H).
  intros jx jy Hx Hy.
  destruct (row_loops_fill xread xdest yread ydest (LocalNz m)
              (fun jx jy val =>
                 exists stored fdata,
                   read_real (file gf) (jx, jy, 0) name 1 1
                     (nth 2 (getSize (file gf) name) 0) = Some stored
                   /\ load_fdata (array_of stored (nth 2 (getSize (file gf) name) 0))
                        (LocalNz m) (zperiod m)
                        (Z.quot (nth 2 (getSize (file gf) name) 0 - 1) 2) = Ok fdata
                   /\ val = irfft fdata (LocalNz m))
              (fft_row gf m name (nth 2 (getSize (file gf) name) 0)
                 (Z.quot (nth 2 (getSize (file gf) name) 0 - 1) 2)
                 yread ydest xread xdest))
    with (xsize := xsize) (ysize := ysize) (v := var) (c := c) (v' := var')
         (c' := c1) (jx := jx) (jy := jy)
    as (val & (stored & fdata & Hr & Hl & ->) & Hrow); auto.
  - intros ix iy v c0 v1 c2 Hrow.
    apply fft_row_Ok in Hrow. destruct Hrow as (stored & fdata & Hr & Hl & Hs).
    apply store_z_Ok in Hs. destruct Hs as [S1 S2].
    split; [|exact S2].
    exists (irfft fdata (LocalNz m)). split; [|exact S1].
    exists stored, fdata. auto.
  - exists stored, fdata. auto.
Qed.

(** C6: in the spectral reader [zperiod] is the integer nearest to
    [2 pi / zlength], [maxmode] is [(size[2] - 1) / 2], and a read that
    returns true has, for every (x, y) row of its window, built from the
    [size[2]] values stored for that row a spectrum of [LocalNz / 2 + 1]
    entries and handed it to the inverse transform, whose output is the row
    of the field: entry 0 is the stored DC value, entry [i >= 1] is the
    stored pair [(stored[2 i zperiod - 1], stored[2 i zperiod])] when
    [i * zperiod <= maxmode], and zero otherwise. *)
Theorem readgrid_3dvar_fft_spectrum gf m name yread ydest ysize xread xdest xsize
    var c var' c' :
  0 <= LocalNz m ->
  readgrid_3dvar_fft gf m name yread ydest ysize xread xdest xsize var c
    = (Ok (true, var'), c') ->
  (Rabs (IZR (zperiod m) - 2 * PI / zlength m) <= / 2)%R
  /\ forall jx jy, xread <= jx < xread + xsize -> yread <= jy < yread + ysize ->
     exists stored fdata,
       read_real (file gf) (jx, jy, 0) name 1 1 (nth 2 (getSize (file gf) name) 0)
         = Some stored
       /\ load_fdata (array_of stored (nth 2 (getSize (file gf) name) 0)) (LocalNz m)
            (zperiod m) (Z.quot (nth 2 (getSize (file gf) name) 0 - 1) 2) = Ok fdata
       /\ List.length fdata = (Z.to_nat (LocalNz m / 2) + 1)%nat
       /\ nth 0 fdata (0%R, 0%R) = (stored 0, 0%R)
       /\ (forall i, 1 <= i <= LocalNz m / 2 ->
             nth (Z.to_nat i) fdata (0%R, 0%R) =
               if i * zperiod m <=? Z.quot (nth 2 (getSize (file gf) name) 0 - 1) 2
               then (stored (2 * i * zperiod m - 1), stored (2 * i * zperiod m))
               else (0%R, 0%R))
       /\ (forall k, 0 <= k < LocalNz m ->
             var' (jx - xread + xdest) (jy - yread + ydest) k
               = irfft fdata (LocalNz m) k).
Proof.
  intros Hnz H. split; [apply ROUND_nearest|].
  intros jx jy Hx Hy.
  destruct (readgrid_3dvar_fft_rows _ _ _ _ _ _ _ _ _ _ _ _ _ H jx jy Hx Hy)
    as (stored & fdata & Hr & Hl & Hv).
  destruct (load_fdata_spectrum _ _ _ _ _ _ Hnz Hl) as (L1 & L2 & L3).
  exists stored, fdata. repeat split; assumption.
Qed.

Lemma readgrid_3dvar_fft_spectrum_witness :
  exists stored fdata,
    read_real (file file_3d_fft) (2, 1, 0) "phi" 1 1 5 = Some stored
    /\ List.length fdata = 3%nat
    /\ nth 0 fdata (0%R, 0%R) = (stored 0, 0%R)
    /\ nth 1 fdata (0%R, 0%R) = (stored 1, stored 2)
    /\ nth 2 fdata (0%R, 0%R) = (stored 3, stored 4)
    /\ snd (result (readgrid_3dvar_fft file_3d_fft mesh_plain "phi" 0 0 2 0 0 3
                      (fill 0%R) origin0) (false, fill 0%R)) 2 1 3
       = irfft fdata 4 3.
Proof.
  assert (Hz : zperiod mesh_plain = 1) by (apply zperiod_full_circle; reflexivity).
  assert (Hrun : exists a c,
             readgrid_3dvar_fft file_3d_fft mesh_plain "phi" 0 0 2 0 0 3
               (fill 0%R) origin0 = (Ok (true, a), c)).
  { unfold readgrid_3dvar_fft, fft_row. rewrite Hz. vm_compute.
    eexists. eexists. reflexivity. }
  apply (Ok_true_result _ (false, fill 0%R)) in Hrun.
  assert (Hnz : 0 <= LocalNz mesh_plain) by (simpl; lia).
  destruct (readgrid_3dvar_fft_spectrum file_3d_fft mesh_plain "phi" 0 0 2 0 0 3
              (fill 0%R) origin0 _ _ Hnz Hrun) as [_ Hrows].
  destruct (Hrows 2 1 ltac:(lia) ltac:(lia))
    as (stored & fdata & Hr & _ & Hlen & H0 & Hi & Hv).
  exists stored, fdata.
  assert (H1 := Hi 1). assert (H2 := Hi 2).
  change (LocalNz mesh_plain / 2) with 2 in H1, H2.
  specialize (H1 ltac:(lia)). specialize (H2 ltac:(lia)).
  rewrite Hz in H1, H2. simpl in H1, H2.
  repeat split; try assumption.
  apply (Hv 3). simpl. lia.
Defined.

(** ** DC-only spectral data *)

(** The inverse transform of a spectrum with nothing but a DC component is
    constant. *)
Lemma irfft_sum_zeros n k Fs i :
  (forall j, nth j Fs (0%R, 0%R) = (0%R, 0%R)) -> irfft_sum n k Fs i = 0%R.
Proof.
  revert i. induction Fs as [|F Fs IH]; intros i H; simpl; [reflexivity|].
  rewrite IH by (intros j; apply (H (S j))).
  pose proof (H 0%nat) as H0. simpl in H0. subst F.
  unfold irfft_term. simpl. ring.
Qed.

Lemma irfft_dc_only dc Fs n k :
  (forall j, nth j Fs (0%R, 0%R) = (0%R, 0%R)) -> irfft ((dc, 0%R) :: Fs) n k = dc.
Proof. intros H. unfold irfft. rewrite irfft_sum_zeros by exact H. simpl. ring. Qed.

(** With [maxmode = 0] and [zperiod >= 1] no harmonic is loaded. *)
Lemma load_fdata_dc_only d ncz zp fdata :
  1 <= zp ->
  load_fdata (array_of d 1) ncz zp 0 = Ok fdata ->
  exists Fs, fdata = (d 0, 0%R) :: Fs
             /\ forall j, nth j Fs (0%R, 0%R) = (0%R, 0%R).
Proof.
  intros Hzp H. unfold load_fdata in H. rewrite zdata_at_array in H. simpl in H.
  destruct (load_modes _ _ _ _) as [Fs| |] eqn:EFs; try discriminate.
  inversion H; subst fdata. exists Fs. split; [reflexivity|].
  apply load_modes_nth in EFs. destruct EFs as [Hl Hn].
  intros j. destruct (Nat.lt_ge_cases j (List.length Fs)) as [Hj|Hj].
  - rewrite Hl in Hj. specialize (Hn j Hj).
    apply load_mode_array in Hn. refine (eq_trans Hn _).
    rewrite range_length in Hj. rewrite range_nth by exact Hj.
    replace ((1 + Z.of_nat j) * zp <=? 0) with false; [reflexivity|].
    symmetry. apply Z.leb_gt. nia.
  - apply nth_overflow. exact Hj.
Qed.

Lemma readgrid_3dvar_fft_dc_rows gf m name yread ydest ysize xread xdest xsize
    var c var' c' :
  readgrid_3dvar_fft gf m name yread ydest ysize xread xdest xsize var c
    = (Ok (true, var'), c') ->
  nth 2 (getSize (file gf) name) 0 = 1 ->
  1 <= zperiod m ->
  forall jx jy, xread <= jx < xread + xsize -> yread <= jy < yread + ysize ->
  exists stored,
    read_real (file gf) (jx, jy, 0) name 1 1 1 = Some stored
    /\ forall k, 0 <= k < LocalNz m ->
         var' (jx - xread + xdest) (jy - yread + ydest) k = stored 0.
Proof.
  intros H Hsize Hzp. apply fft_reader_after_report in H.
  apply reader_returned_true in H. destruct H as (c1 & H).
  rewrite Hsize in H. change (Z.quot (1 - 1) 2) with 0 in H.
  intros jx jy Hx Hy.
  destruct (row_loops_fill xread xdest yread ydest (LocalNz m)
              (fun jx jy val =>
                 exists stored, read_real (file gf) (jx, jy, 0) name 1 1 1 = Some stored
                                /\ forall k, val k = stored 0)
              (fft_row gf m name 1 0 yread ydest xread xdest))
    with (xsize := xsize) (ysize := ysize) (v := var) (c := c) (v' := var')
         (c' := c1) (jx := jx) (jy := jy)
    as (val & (stored & Hr & Hval) & Hrow); auto.
  - clear - Hzp. intros jx jy v c v1 c1 Hrow.
    apply fft_row_Ok in Hrow. destruct Hrow as (stored & fdata & Hr & Hl & Hs).
    apply store_z_Ok in Hs. destruct Hs as [S1 S2].
    split; [|exact S2].
    exists (irfft fdata (LocalNz m)). split; [|exact S1].
    exists stored. split; [exact Hr|].
    intros k. apply load_fdata_dc_only in Hl; [|exact Hzp].
    destruct Hl as (Fs & -> & HFs). apply irfft_dc_only, HFs.
  - exists stored. split; [exact Hr|].
    intros k Hk. rewrite Hrow by exact Hk. apply Hval.
Qed.

(** C9: a variable stored as DC-only spectral data (stored row length 1,
    so [maxmode = 0]) is read back, for any [zperiod >= 1], as a field
    that in every (x, y) row of the window has the stored DC value at every
    z. *)
Theorem dc_only_reads_back_uniform gf m name yread ydest ysize xread xdest xsize
    var c var' c' :
  readgrid_3dvar_fft gf m name yread ydest ysize xread xdest xsize var c
    = (Ok (true, var'), c') ->
  nth 2 (getSize (file gf) name) 0 = 1 ->
  1 <= zperiod m ->
  forall jx jy k,
    xread <= jx < xread + xsize -> yread <= jy < yread + ysize ->
    0 <= k < LocalNz m ->
    exists stored,
      read_real (file gf) (jx, jy, 0) name 1 1 1 = Some stored
      /\ var' (jx - xread + xdest) (jy - yread + ydest) k = stored 0.
Proof.
  intros H Hsize Hzp jx jy k Hx Hy Hk.
  destruct (readgrid_3dvar_fft_dc_rows _ _ _ _ _ _ _ _ _ _ _ _ _ H Hsize Hzp
              jx jy Hx Hy) as (stored & Hr & Hv).
  exists stored. split; [exact Hr | apply Hv, Hk].
Qed.

Lemma dc_only_reads_back_uniform_witness :
  exists stored,
    read_real (file file_3d_dc) (2, 1, 0) "phi" 1 1 1 = Some stored
    /\ snd (result (readgrid_3dvar_fft file_3d_dc mesh_plain "phi" 0 0 2 0 0 3
                      (fill 0%R) origin0) (false, fill 0%R)) 2 1 3 = stored 0.
Proof.
  assert (Hz : zperiod mesh_plain = 1) by (apply zperiod_full_circle; reflexivity).
  assert (Hrun : exists a c,
             readgrid_3dvar_fft file_3d_dc mesh_plain "phi" 0 0 2 0 0 3
               (fill 0%R) origin0 = (Ok (true, a), c)).
  { unfold readgrid_3dvar_fft, fft_row. rewrite Hz. vm_compute.
    eexists. eexists. reflexivity. }
  apply (Ok_true_result _ (false, fill 0%R)) in Hrun.
  apply (dc_only_reads_back_uniform file_3d_dc mesh_plain "phi" 0 0 2 0 0 3
           (fill 0%R) origin0 _ _ Hrun eq_refl); [rewrite Hz; lia | | |]; simpl; lia.
Defined.

(** ** The readers return *)

Lemma for_each_until_runs body l :
  (forall j, In j l -> forall v c, exists v1 c1, body j v c = (Ok (true, v1), c1)) ->
  forall v c, exists v' c', for_each_until l body v c = (Ok (true, v'), c').
Proof.
  induction l as [|i l IH]; intros Hbody v c.
  - exists v, c. reflexivity.
  - destruct (Hbody i (or_introl eq_refl) v c) as (v1 & c1 & Hb).
    destruct (IH (fun j Hj => Hbody j (or_intror Hj)) v1 c1) as (v' & c' & Hl).
    exists v', c'. simpl. unfold bind. rewrite Hb. simpl. exact Hl.
Qed.

Lemma store_z_in_field m var x y n d :
  0 <= x < LocalNx m -> 0 <= y < LocalNy m -> n <= LocalNz m ->
  exists var', store_z m var x y n d = Ok var'.
Proof.
  intros Hx Hy Hn. unfold store_z. destruct (n <=? 0); [eauto|].
  replace ((0 <=? x) && (x <? LocalNx m) && (0 <=? y) && (y <? LocalNy m)
           && (n <=? LocalNz m)) with true; [eauto|].
  symmetry. rewrite !andb_true_iff.
  repeat split; try apply Z.leb_le; try apply Z.ltb_lt; lia.
Qed.

Lemma bad_arguments_false yread ydest ysize xread xdest xsize :
  0 <= yread -> 0 <= ydest -> 0 <= ysize -> 0 <= xread -> 0 <= xdest -> 0 <= xsize ->
  bad_arguments yread ydest ysize xread xdest xsize = false.
Proof.
  intros. unfold bad_arguments. rewrite !orb_false_iff.
  repeat split; apply Z.ltb_ge; assumption.
Qed.

(** X20: the real-space reader returns true, with the cursor back at the
    origin, when the arguments are not
    negative, the variable is stored with three extents, the window lies in
    the field, a row is not longer than the field is deep, and the backend
    delivers every row of the window. *)
Lemma readgrid_3dvar_real_returns gf m name yread ydest ysize xread xdest xsize var c :
  0 <= yread -> 0 <= ydest -> 0 <= ysize -> 0 <= xread -> 0 <= xdest -> 0 <= xsize ->
  List.length (getSize (file gf) name) = 3%nat ->
  xdest + xsize <= LocalNx m -> ydest + ysize <= LocalNy m ->
  nth 2 (getSize (file gf) name) 0 <= LocalNz m ->
  (forall jx jy, xread <= jx < xread + xsize -> yread <= jy < yread + ysize ->
     read_real (file gf) (jx, jy, 0) name 1 1 (nth 2 (getSize (file gf) name) 0)
       <> None) ->
  exists var',
    readgrid_3dvar_real gf m name yread ydest ysize xread xdest xsize var c
    = (Ok (true, var'), origin0).
Proof.
  intros Hyr Hyd Hys Hxr Hxd Hxs Hlen Hx Hy Hz Hread.
  unfold readgrid_3dvar_real.
  rewrite bad_arguments_false, Hlen by assumption. simpl.
  destruct (for_each_until_runs
              (fun jx var => for_each_until (range yread ysize)
                 (real_row gf m name (nth 2 (getSize (file gf) name) 0)
                    yread ydest xread xdest jx) var)
              (range xread xsize)) with (v := var) (c := c) as (v' & c' & Hl).
  - intros jx Hjx. apply in_range in Hjx. apply for_each_until_runs.
    intros jy Hjy v0 c0. apply in_range in Hjy.
    unfold real_row, bind, setGlobalOrigin, file_read_real, lift, ret.
    specialize (Hread jx jy Hjx Hjy).
    destruct (read_real _ _ _ _ _ _) as [d|]; [|contradiction].
    destruct (store_z_in_field m v0 (jx - xread + xdest) (jy - yread + ydest)
                (nth 2 (getSize (file gf) name) 0) d) as (v1 & ->); try lia.
    eauto.
  - exists v'. unfold bind.
    match goal with
    | |- context [for_each_until ?l ?b ?v ?c0] =>
        replace (for_each_until l b v c0) with (Ok (true, v'), c')
          by (symmetry; exact Hl)
    end.
    reflexivity.
Qed.

Lemma load_modes_dc_only d zp l :
  1 <= zp -> (forall i, In i l -> 1 <= i) ->
  exists Fs, load_modes (array_of d 1) zp 0 l = Ok Fs.
Proof.
  intros Hzp. induction l as [|i l IH]; intros Hl; simpl; [eauto|].
  destruct IH as (Fs & ->); [intros j Hj; apply Hl; right; exact Hj|].
  unfold load_mode.
  replace (i * zp <=? 0) with false; [eauto|].
  symmetry. apply Z.leb_gt. specialize (Hl i (or_introl eq_refl)). nia.
Qed.

(** The spectral reader returns true on DC-only data under the same
    conditions. *)
Lemma readgrid_3dvar_fft_dc_returns gf m name yread ydest ysize xread xdest xsize var c :
  0 <= yread -> 0 <= ydest -> 0 <= ysize -> 0 <= xread -> 0 <= xdest -> 0 <= xsize ->
  List.length (getSize (file gf) name) = 3%nat ->
  xdest + xsize <= LocalNx m -> ydest + ysize <= LocalNy m ->
  nth 2 (getSize (file gf) name) 0 = 1 ->
  1 <= zperiod m ->
  (forall jx jy, xread <= jx < xread + xsize -> yread <= jy < yread + ysize ->
     read_real (file gf) (jx, jy, 0) name 1 1 1 <> None) ->
  exists var',
    readgrid_3dvar_fft gf m name yread ydest ysize xread xdest xsize var c
    = (Ok (true, var'), origin0).
Proof.
  intros Hyr Hyd Hys Hxr Hxd Hxs Hlen Hx Hy Hsize Hzp Hread.
  rewrite fft_reader_report_defined by lia.
  rewrite bad_arguments_false, Hlen, Hsize by assumption. simpl.
  destruct (for_each_until_runs
              (fun jx var => for_each_until (range yread ysize)
                 (fft_row gf m name 1 (Z.quot (1 - 1) 2)
                    yread ydest xread xdest jx) var)
              (range xread xsize)) with (v := var) (c := c) as (v' & c' & Hl).
  - intros jx Hjx. apply in_range in Hjx. apply for_each_until_runs.
    intros jy Hjy v0 c0. apply in_range in Hjy.
    unfold fft_row, bind, setGlobalOrigin, file_read_real, lift, ret. cbv zeta.
    specialize (Hread jx jy Hjx Hjy).
    destruct (read_real _ _ _ _ _ _) as [d|]; [|contradiction].
    unfold load_fdata. rewrite zdata_at_array.
    change (Z.quot (1 - 1) 2) with 0. change ((0 <=? 0) && (0 <? 1)) with true.
    cbv iota.
    destruct (load_modes_dc_only d (zperiod m) (range 1 (Z.quot (LocalNz m) 2)) Hzp)
      as (Fs & ->).
    { intros i Hi. apply in_range in Hi. lia. }
    destruct (store_z_in_field m v0 (jx - xread + xdest) (jy - yread + ydest)
                (LocalNz m) (irfft ((d 0, 0%R) :: Fs) (LocalNz m)))
      as (v1 & ->); try lia.
    eauto.
  - exists v'. unfold bind.
    match goal with
    | |- context [for_each_until ?l ?b ?v ?c0] =>
        replace (for_each_until l b v c0) with (Ok (true, v'), c')
          by (symmetry; exact Hl)
    end.
    reflexivity.
Qed.

(** * Further properties of the loader *)

(** ** The steps of getField *)

Lemma ASSERT1_Ok CHECK b c u c' :
  ASSERT1 CHECK b c = (Ok u, c') -> c' = c /\ (1 <= CHECK -> b = true).
Proof.
  unfold ASSERT1. destruct (1 <=? CHECK) eqn:E, b; simpl; intros H;
    inversion H; split; auto; intros; bool_to_Prop; lia.
Qed.

Lemma y_read_start_Ok CHECK gf m c ys c' :
  y_read_start CHECK gf m c = (Ok ys, c') -> c' = c /\ ys = y_source gf m.
Proof.
  unfold y_read_start, y_source. destruct (numberOfXPoints m >? 1); simpl.
  - intros H. apply bind_Ok in H. destruct H as (u & c1 & Ha & H).
    apply ASSERT1_Ok in Ha. destruct Ha as [-> _].
    destruct (OffsetY m >=? ny_inner gf); apply ret_Ok in H; destruct H; auto.
  - intros H. apply ret_Ok in H. destruct H; auto.
Qed.

(** The window that [x_guards] and [y_guards] return. *)
Lemma x_guards_window CHECK m dims c arm nx xd c' :
  x_guards CHECK m dims c = (Ok (arm, nx, xd), c') ->
  nx = LocalNx m /\ xd = x_dest m dims /\ c' = c.
Proof.
  intros H. apply x_guards_Ok in H. unfold x_dest. tauto.
Qed.

Lemma y_guards_window CHECK gf m dims c arm ny yd c' :
  y_guards CHECK gf m dims c = (Ok (arm, ny, yd), c') ->
  ny = y_count gf m /\ yd = y_dest gf m /\ c' = c.
Proof.
  intros H. apply y_guards_Ok in H. destruct H as (H1 & H2 & H3 & ->).
  unfold y_count, y_dest.
  destruct (grid_yguards gf >? 0) eqn:E.
  - rewrite Z.gtb_ltb in E. apply Z.ltb_lt in E. destruct (H1 E) as (_ & -> & ->).
    auto.
  - rewrite Z.gtb_ltb in E. apply Z.ltb_ge in E.
    destruct (H2 ltac:(lia)) as (_ & -> & ->). auto.
Qed.

(** A load that returns true for a variable stored with 2 or 3 extents
    read the window of the closed form from the cursor it started with,
    then ran the two extrapolation steps. *)
Lemma getField_steps CHECK gf K m var name def c var' c' :
  getField CHECK gf K m var name def c = (Ok (true, var'), c') ->
  (List.length (getSize (file gf) name) = 2
   \/ List.length (getSize (file gf) name) = 3)%nat ->
  exists var1 var2 c1 c2,
    readField gf K m name (y_source gf m) (y_dest gf m) (y_count gf m)
      (OffsetX m) (x_dest m (getSize (file gf) name)) (LocalNx m)
      (getSize (file gf) name) var c = (Ok var1, c1)
    /\ (if nth 0 (getSize (file gf) name) 0 =? GlobalNx m - 2 * mxg m
        then extrapolate_x K m var1 else ret var1) c1 = (Ok var2, c2)
    /\ (if grid_yguards gf =? 0 then extrapolate_y K m var2 else ret var2) c2
       = (Ok var', c').
Proof.
  intros H Hlen. unfold getField in H.
  destruct (negb (is_valid (file gf))); [discriminate|].
  apply bind_Ok in H. destruct H as (early & c0 & Hsw & H).
  assert (early = None /\ c0 = c) as [-> ->].
  { unfold size_switch in Hsw.
    destruct Hlen as [E|E]; rewrite E in Hsw.
    - apply ret_Ok in Hsw. tauto.
    - destruct K; apply ret_Ok in Hsw; destruct Hsw as [-> ->]; [|auto].
      apply ret_Ok in H. destruct H as [H _]. discriminate. }
  apply bind_Ok in H. destruct H as (? & s1 & A1 & H).
  apply ASSERT1_Ok in A1. destruct A1 as [-> _].
  apply bind_Ok in H. destruct H as (? & s2 & A2 & H).
  apply ASSERT1_Ok in A2. destruct A2 as [-> _].
  apply bind_Ok in H. destruct H as (ys & s3 & Hys & H).
  apply y_read_start_Ok in Hys. destruct Hys as [-> ->].
  apply bind_Ok in H. destruct H as ([[ax nx] xd] & s4 & Hxw & H).
  apply x_guards_window in Hxw. destruct Hxw as (-> & -> & ->).
  apply bind_Ok in H. destruct H as ([[ay ny] yd] & s5 & Hyw & H).
  apply y_guards_window in Hyw. destruct Hyw as (-> & -> & ->).
  apply bind_Ok in H. destruct H as (var1 & c1 & Hread & H).
  apply bind_Ok in H. destruct H as (var2 & c2 & Hex & H).
  apply bind_Ok in H. destruct H as (var3 & c3 & Hey & H).
  apply ret_Ok in H. destruct H as [E ->]. inversion E; subst.
  exists var1, var2, c1, c2. auto.
Qed.

(** ** What the flag of getField means *)

(** X1: a load that returns true found the variable. *)
Theorem getField_true_hasVar CHECK gf K m var name def c var' c' :
  getField CHECK gf K m var name def c = (Ok (true, var'), c') ->
  hasVar gf name = true.
Proof.
  intros H. unfold getField in H. unfold hasVar.
  destruct (negb (is_valid (file gf))); [discriminate|].
  apply bind_Ok in H. destruct H as (early & c0 & Hsw & H).
  unfold size_switch in Hsw.
  destruct (getSize (file gf) name) as [|n l]; [|reflexivity].
  simpl in Hsw. apply ret_Ok in Hsw. destruct Hsw as [-> _].
  apply ret_Ok in H. destruct H as [H _]. discriminate.
Qed.

Lemma getField_true_hasVar_witness : hasVar file_2d "Rxy" = true.
Proof.
  apply (getField_true_hasVar 1 file_2d Field2D mesh_plain (fill 0%R) "Rxy" 0%R
           origin0 _ _
           (Ok_true_result _ (false, fill 0%R)
              ltac:(vm_compute; eexists; eexists; reflexivity))).
Defined.

Lemma getField_false_inv CHECK gf K m var name def c var' c' :
  getField CHECK gf K m var name def c = (Ok (false, var'), c') ->
  (forall x y z, var' x y z = def) /\ c' = c
  /\ (getSize (file gf) name = []
      \/ (3 < List.length (getSize (file gf) name))%nat
      \/ (K = Field2D /\ List.length (getSize (file gf) name) = 3%nat)).
Proof.
  intros H. unfold getField in H.
  destruct (negb (is_valid (file gf))); [discriminate|].
  apply bind_Ok in H. destruct H as (early & c0 & Hsw & H).
  destruct early as [r|].
  - apply ret_Ok in H. destruct H as [<- ->].
    unfold size_switch in Hsw.
    destruct (getSize (file gf) name) as [|n0 [|n1 [|n2 [|n3 l]]]]; simpl in Hsw.
    + apply ret_Ok in Hsw. destruct Hsw as [E ->]. inversion E.
      repeat split; auto.
    + destruct (negb (n0 =? 1)); [discriminate|].
      apply bind_Ok in Hsw. destruct Hsw as (r & c1 & _ & Hsw).
      destruct r; [|discriminate].
      apply ret_Ok in Hsw. destruct Hsw as [E _]. discriminate.
    + apply ret_Ok in Hsw. destruct Hsw as [E _]. discriminate.
    + destruct K; apply ret_Ok in Hsw; destruct Hsw as [E ->];
        [|discriminate].
      inversion E. repeat split; auto.
    + apply ret_Ok in Hsw. destruct Hsw as [E ->]. inversion E.
      repeat split; auto. right. left. simpl. lia.
  - exfalso.
    apply bind_Ok in H. destruct H as (? & ? & _ & H).
    apply bind_Ok in H. destruct H as (? & ? & _ & H).
    apply bind_Ok in H. destruct H as (? & ? & _ & H).
    apply bind_Ok in H. destruct H as ([[? ?] ?] & ? & _ & H).
    apply bind_Ok in H. destruct H as ([[? ?] ?] & ? & _ & H).
    apply bind_Ok in H. destruct H as (? & ? & _ & H).
    apply bind_Ok in H. destruct H as (? & ? & _ & H).
    apply bind_Ok in H. destruct H as (? & ? & _ & H).
    apply ret_Ok in H. destruct H as [H _]. discriminate.
Qed.

Lemma getField_unsupported CHECK gf K m var name def c :
  is_valid (file gf) = true ->
  getSize (file gf) name = []
  \/ (3 < List.length (getSize (file gf) name))%nat
  \/ (K = Field2D /\ List.length (getSize (file gf) name) = 3%nat) ->
  getField CHECK gf K m var name def c = (Ok (false, fill def), c).
Proof.
  intros Hv Hcase. unfold getField, size_switch. rewrite Hv. simpl.
  destruct Hcase as [E|[E|[-> E]]].
  - rewrite E. reflexivity.
  - destruct (getSize (file gf) name) as [|n0 [|n1 [|n2 [|n3 l]]]];
      simpl in E; try lia.
    reflexivity.
  - rewrite E. reflexivity.
Qed.

(** X2: on a readable backend [getField] returns false exactly when the
    variable is absent, or stored with more than three extents, or with
    three for a 2-D handle; it has then left the default in every cell and
    the cursor where it was. *)
Theorem getField_false_default CHECK gf K m var name def c :
  (forall var' c',
     getField CHECK gf K m var name def c = (Ok (false, var'), c') ->
     (forall x y z, var' x y z = def) /\ c' = c
     /\ (getSize (file gf) name = []
         \/ (3 < List.length (getSize (file gf) name))%nat
         \/ (K = Field2D /\ List.length (getSize (file gf) name) = 3%nat)))
  /\ (is_valid (file gf) = true ->
      getSize (file gf) name = []
      \/ (3 < List.length (getSize (file gf) name))%nat
      \/ (K = Field2D /\ List.length (getSize (file gf) name) = 3%nat) ->
      getField CHECK gf K m var name def c = (Ok (false, fill def), c)).
Proof.
  split.
  - intros var' c'. apply getField_false_inv.
  - apply getField_unsupported.
Qed.

Lemma getField_false_default_witness :
  getField 1 file_mixed Field3D mesh_plain (fill 0%R) "g11" 5%R origin0
    = (Ok (false, fill 5%R), origin0)
  /\ (forall x y z,
       snd (result (getField 1 file_3d_real Field2D mesh_plain (fill 0%R) "phi" 5%R
                      origin0) (true, fill 0%R)) x y z = 5%R)
  /\ snd (getField 1 file_3d_real Field2D mesh_plain (fill 0%R) "phi" 5%R origin0)
     = origin0.
Proof.
  destruct (getField_false_default 1 file_mixed Field3D mesh_plain (fill 0%R)
              "g11" 5%R origin0) as [_ Hfwd].
  destruct (getField_false_default 1 file_3d_real Field2D mesh_plain (fill 0%R)
              "phi" 5%R origin0) as [Hinv _].
  destruct (Hinv _ _ eq_refl) as (H1 & H2 & _).
  split; [|split; [exact H1 | exact H2]].
  apply Hfwd; [reflexivity|]. right. left. simpl. lia.
Defined.

(** X3: a variable stored as one dimension is a scalar when it has one
    element, and then every cell of the handle gets the value read and the
    cursor stays; with any other number of elements the load throws, as it
    does when the value cannot be read. *)
Theorem getField_one_dimension CHECK gf K m var name def c n :
  is_valid (file gf) = true ->
  getSize (file gf) name = [n] ->
  (n <> 1 ->
     getField CHECK gf K m var name def c = (Throw (Expecting2DVariable n), c))
  /\ (n = 1 -> read_real (file gf) c name 1 0 0 = None ->
      getField CHECK gf K m var name def c = (Throw CouldntRead0D, c))
  /\ (n = 1 -> forall d, read_real (file gf) c name 1 0 0 = Some d ->
      exists var', getField CHECK gf K m var name def c = (Ok (true, var'), c)
                   /\ forall x y z, var' x y z = d 0).
Proof.
  intros Hv Hs. unfold getField, size_switch, bind, file_read_real.
  rewrite Hv, Hs. simpl.
  repeat split.
  - intros Hn. destruct (n =? 1) eqn:E; [bool_to_Prop; contradiction|reflexivity].
  - intros -> Hr. simpl. rewrite Hr. reflexivity.
  - intros -> d Hr. simpl. rewrite Hr. exists (fill (d 0)). split; reflexivity.
Qed.

Lemma getField_one_dimension_witness :
  getField 1 file_mixed Field2D mesh_plain (fill 0%R) "psi_axis" 0%R origin0
    = (Throw (Expecting2DVariable 4), origin0)
  /\ exists var',
       getField 1 file_mixed Field3D mesh_plain (fill 0%R) "Bnorm" 0%R (1, 2, 0)
         = (Ok (true, var'), (1, 2, 0))
       /\ forall x y z, var' x y z = IZR 120.
Proof.
  split.
  - apply (getField_one_dimension 1 file_mixed Field2D mesh_plain (fill 0%R)
             "psi_axis" 0%R origin0 4 eq_refl eq_refl).
    discriminate.
  - destruct (getField_one_dimension 1 file_mixed Field3D mesh_plain (fill 0%R)
                "Bnorm" 0%R (1, 2, 0) 1 eq_refl eq_refl) as (_ & _ & H).
    apply (H eq_refl (fun k => IZR (100 * (1 + k) + 10 * 2 + 0))). reflexivity.
Defined.

(** ** The cursor after a load *)

Lemma for_each_cursor body l :
  (forall i v c v' c', body i v c = (Ok v', c') -> c' = c) ->
  forall v c v' c', for_each l body v c = (Ok v', c') -> c' = c.
Proof.
  intros Hbody. induction l as [|i l IH]; intros v c v' c' H; simpl in H.
  - apply ret_Ok in H. tauto.
  - apply bind_Ok in H. destruct H as (v1 & c1 & Hb & Hl).
    apply Hbody in Hb. apply IH in Hl. congruence.
Qed.

Lemma copy_cell_cursor K m xd yd zd xs ys zs v c v' c' :
  copy_cell K m xd yd zd xs ys zs v c = (Ok v', c') -> c' = c.
Proof.
  unfold copy_cell. intros H. apply bind_Ok in H. destruct H as (r & c1 & Hg & Hs).
  apply lift_Ok in Hg. apply lift_Ok in Hs. destruct Hg, Hs. congruence.
Qed.

Lemma extrapolate_x_cursor K m v c v' c' :
  extrapolate_x K m v c = (Ok v', c') -> c' = c.
Proof.
  unfold extrapolate_x. intros H. apply bind_Ok in H.
  destruct H as (v1 & c1 & Hlo & Hhi).
  assert (Hplanes : forall xsrc l w s w' s',
             for_each l (fun x =>
               for_each (range 0 (LocalNy m)) (fun y =>
                 for_each (range 0 (getNz K m)) (fun z =>
                   copy_cell K m x y z xsrc y z))) w s = (Ok w', s') -> s' = s).
  { intros xsrc l. apply for_each_cursor. intros x.
    apply for_each_cursor. intros y. apply for_each_cursor. intros z.
    apply copy_cell_cursor. }
  apply Hplanes in Hlo, Hhi. congruence.
Qed.

Lemma extrapolate_y_cursor K m v c v' c' :
  extrapolate_y K m v c = (Ok v', c') -> c' = c.
Proof.
  unfold extrapolate_y. apply for_each_cursor. clear. intros x v c v' c' H.
  apply bind_Ok in H. destruct H as (v1 & c1 & Hlo & Hhi).
  assert (Hrows : forall ysrc l w s w' s',
             for_each l (fun y =>
               for_each (range 0 (getNz K m)) (fun z =>
                 copy_cell K m x y z x ysrc z)) w s = (Ok w', s') -> s' = s).
  { intros ysrc l. apply for_each_cursor. intros y. apply for_each_cursor.
    intros z. apply copy_cell_cursor. }
  apply Hrows in Hlo, Hhi. congruence.
Qed.

(** A 3-D reader that returns true has put the cursor back. *)
Lemma reader_true_cursor (loops : M (bool * Field)) (bad short : bool) var c var' c' :
  (if bad then ret (false, var)
   else if short then ret (false, var)
   else r <- loops ;;
        if fst r then setGlobalOrigin 0 0 0 ;; ret (true, snd r)
        else ret (false, snd r)) c = (Ok (true, var'), c') ->
  c' = origin0.
Proof.
  destruct bad; [intros H; apply ret_Ok in H; destruct H; discriminate|].
  destruct short; [intros H; apply ret_Ok in H; destruct H; discriminate|].
  intros H. apply bind_Ok in H. destruct H as ([b v] & c1 & Hl & H). simpl in H.
  destruct b.
  - unfold bind, setGlobalOrigin, ret in H. inversion H. reflexivity.
  - apply ret_Ok in H. destruct H; discriminate.
Qed.

Lemma readField_cursor gf K m name ys yd ny xs xd nx size var c var' c' :
  readField gf K m name ys yd ny xs xd nx size var c = (Ok var', c') ->
  c' = origin0.
Proof.
  destruct K; simpl.
  - unfold readField2D. intros H. apply bind_Ok in H.
    destruct H as (v1 & c1 & _ & H).
    unfold bind, setGlobalOrigin, ret in H. inversion H. reflexivity.
  - unfold readField3D. intros H.
    destruct (hasVar gf "nz").
    + destruct (List.length size <=? 2)%nat; [discriminate|].
      destruct (negb (nth 2 size 0 =? LocalNz m)); [discriminate|].
      apply bind_Ok in H. destruct H as ([b v] & c1 & Hr & H). simpl in H.
      destruct b; [|discriminate].
      apply ret_Ok in H. destruct H as [_ ->].
      unfold readgrid_3dvar_real in Hr. apply reader_true_cursor in Hr. exact Hr.
    + apply bind_Ok in H. destruct H as ([b v] & c1 & Hr & H). simpl in H.
      destruct b; [|discriminate].
      apply ret_Ok in H. destruct H as [_ ->].
      apply fft_reader_after_report in Hr. apply reader_true_cursor in Hr. exact Hr.
Qed.

(** X4: every load of a 2-D or 3-D variable that returns true leaves the
    cursor of the backend at the origin, wherever it stood before. *)
Theorem getField_resets_cursor CHECK gf K m var name def c var' c' :
  getField CHECK gf K m var name def c = (Ok (true, var'), c') ->
  (List.length (getSize (file gf) name) = 2
   \/ List.length (getSize (file gf) name) = 3)%nat ->
  c' = origin0.
Proof.
  intros H Hlen.
  destruct (getField_steps _ _ _ _ _ _ _ _ _ _ H Hlen)
    as (var1 & var2 & c1 & c2 & Hread & Hex & Hey).
  apply readField_cursor in Hread. subst c1.
  assert (c2 = origin0) as ->.
  { destruct (_ =? _); [apply extrapolate_x_cursor in Hex | apply ret_Ok in Hex];
      tauto. }
  destruct (_ =? _); [apply extrapolate_y_cursor in Hey | apply ret_Ok in Hey];
    tauto.
Qed.

Lemma getField_resets_cursor_witness :
  snd (getField 1 file_2d Field2D mesh_yguards (fill 0%R) "Rxy" 0%R (7, 7, 7))
  = origin0.
Proof.
  apply (getField_resets_cursor 1 file_2d Field2D mesh_yguards (fill 0%R) "Rxy" 0%R
           (7, 7, 7) _ _
           (Ok_true_result _ (false, fill 0%R)
              ltac:(vm_compute; eexists; eexists; reflexivity))).
  left. reflexivity.
Defined.

(** ** What the extrapolation touches *)

Lemma extrapolate_x_interior K m v c v' c' :
  extrapolate_x K m v c = (Ok v', c') ->
  forall x y z, xstart m <= x <= xend m -> v' x y z = v x y z.
Proof.
  intros H x y z Hin.
  unfold extrapolate_x in H. apply bind_Ok in H.
  destruct H as (v1 & c1 & Hlo & Hhi).
  apply x_planes_copies in Hlo; [|lia]. destruct Hlo as [_ L2].
  apply x_planes_copies in Hhi; [|lia]. destruct Hhi as [_ U2].
  rewrite U2 by lia. apply L2. lia.
Qed.

Lemma extrapolate_y_interior K m v c v' c' :
  extrapolate_y K m v c = (Ok v', c') ->
  forall x y z, ystart m <= y <= yend m -> v' x y z = v x y z.
Proof.
  intros H x y z Hin.
  rewrite (extrapolate_y_columns K m v c v' c' H).
  destruct ((0 <=? x) && (x <? LocalNx m)); [|reflexivity].
  unfold y_column, y_upper, y_lower.
  replace (yend m <? y) with false by (symmetry; apply Z.ltb_ge; lia).
  replace (y <? ystart m) with false by (symmetry; apply Z.ltb_ge; lia).
  simpl. rewrite andb_false_r. reflexivity.
Qed.

(** X5: the x extrapolation changes no cell with [xstart <= x <= xend], and
    the y extrapolation no cell with [ystart <= y <= yend]. *)
Theorem extrapolation_keeps_interior K m v c v' c' :
  (extrapolate_x K m v c = (Ok v', c') ->
     forall x y z, xstart m <= x <= xend m -> v' x y z = v x y z)
  /\ (extrapolate_y K m v c = (Ok v', c') ->
     forall x y z, ystart m <= y <= yend m -> v' x y z = v x y z).
Proof.
  split; [apply extrapolate_x_interior | apply extrapolate_y_interior].
Qed.

Lemma extrapolation_keeps_interior_witness :
  result (extrapolate_x Field2D mesh_low_guard ramp origin0) (fill 0%R) 1 0 0
    = ramp 1 0 0
  /\ result (extrapolate_y Field3D mesh_yguards ramp origin0) (fill 0%R) 2 1 3
    = ramp 2 1 3.
Proof.
  assert (Hx : exists a c,
             extrapolate_x Field2D mesh_low_guard ramp origin0 = (Ok a, c))
    by (vm_compute; eexists; eexists; reflexivity).
  assert (Hy : exists a c,
             extrapolate_y Field3D mesh_yguards ramp origin0 = (Ok a, c))
    by (vm_compute; eexists; eexists; reflexivity).
  apply (Ok_result _ (fill 0%R)) in Hx, Hy.
  split.
  - apply (proj1 (extrapolation_keeps_interior Field2D mesh_low_guard ramp origin0
                    _ _) Hx).
    simpl. lia.
  - apply (proj2 (extrapolation_keeps_interior Field3D mesh_yguards ramp origin0
                    _ _) Hy).
    simpl. lia.
Defined.

(** ** The y guard cells *)

Lemma extrapolate_y_uniform K m v c v' c' :
  extrapolate_y K m v c = (Ok v', c') ->
  forall x y z, 0 <= x < LocalNx m -> 0 <= z < getNz K m ->
  (0 <= y < ystart m -> v' x y z = v' x (ystart m) z)
  /\ (yend m < y < LocalNy m -> v' x y z = v' x (yend m) z).
Proof.
  intros H x y z Hx Hz.
  destruct (extrapolate_y_in_field K m v c v' c' H) as (I1 & I2 & I3); try lia.
  rewrite !(extrapolate_y_columns K m v c v' c' H).
  replace ((0 <=? x) && (x <? LocalNx m)) with true
    by (symmetry; apply andb_true_iff; split; [apply Z.leb_le|apply Z.ltb_lt]; lia).
  unfold y_column, y_upper, y_lower.
  assert (Ez : (0 <=? z) && (z <? getNz K m) = true)
    by (apply andb_true_iff; split; [apply Z.leb_le|apply Z.ltb_lt]; lia).
  rewrite <- !andb_assoc. rewrite Ez. rewrite !andb_true_r.
  split; intros Hy.
  - specialize (I1 ltac:(lia)).
    destruct (Z_lt_le_dec (yend m) y) as [Hu|Hu].
    + replace ((yend m <? y) && (y <? LocalNy m)) with true
        by (symmetry; apply andb_true_iff; split; apply Z.ltb_lt; lia).
      replace ((yend m <? ystart m) && (ystart m <? LocalNy m)) with true
        by (symmetry; apply andb_true_iff; split; apply Z.ltb_lt; lia).
      reflexivity.
    + replace (yend m <? y) with false by (symmetry; apply Z.ltb_ge; lia).
      simpl.
      replace ((0 <=? y) && (y <? ystart m)) with true
        by (symmetry; apply andb_true_iff; split;
            [apply Z.leb_le|apply Z.ltb_lt]; lia).
      destruct (Z_lt_le_dec (yend m) (ystart m)) as [Hs|Hs].
      * replace ((yend m <? ystart m) && (ystart m <? LocalNy m)) with true
          by (symmetry; apply andb_true_iff; split; apply Z.ltb_lt; lia).
        replace ((0 <=? yend m) && (yend m <? ystart m)) with true
          by (symmetry; apply andb_true_iff; split;
              [apply Z.leb_le|apply Z.ltb_lt]; lia).
        reflexivity.
      * replace (yend m <? ystart m) with false by (symmetry; apply Z.ltb_ge; lia).
        simpl.
        replace (ystart m <? ystart m) with false
          by (symmetry; apply Z.ltb_ge; lia).
        rewrite andb_false_r. reflexivity.
  - replace ((yend m <? y) && (y <? LocalNy m)) with true
      by (symmetry; apply andb_true_iff; split; apply Z.ltb_lt; lia).
    replace (yend m <? yend m) with false by (symmetry; apply Z.ltb_ge; lia).
    reflexivity.
Qed.

(** X6: after a load of a 2-D or 3-D variable from a file without y-guard
    cells that returns true, every cell of the handle below [ystart] holds
    the value of the cell at [ystart] in its column, and every cell above
    [yend] the value of the cell at [yend]. *)
Theorem getField_y_guards_replicated CHECK gf K m var name def c var' c' :
  getField CHECK gf K m var name def c = (Ok (true, var'), c') ->
  (List.length (getSize (file gf) name) = 2
   \/ List.length (getSize (file gf) name) = 3)%nat ->
  grid_yguards gf = 0 ->
  forall x y z, 0 <= x < LocalNx m -> 0 <= z < getNz K m ->
    (0 <= y < ystart m -> var' x y z = var' x (ystart m) z)
    /\ (yend m < y < LocalNy m -> var' x y z = var' x (yend m) z).
Proof.
  intros H Hlen Hg.
  destruct (getField_steps _ _ _ _ _ _ _ _ _ _ H Hlen)
    as (var1 & var2 & c1 & c2 & _ & _ & Hey).
  rewrite Hg in Hey. simpl in Hey.
  apply (extrapolate_y_uniform K m var2 c2 var' c' Hey).
Qed.

Lemma getField_y_guards_replicated_witness :
  snd (result (getField 1 file_2d Field2D mesh_yguards (fill 0%R) "Rxy" 0%R origin0)
         (false, fill 0%R)) 2 3 0
  = snd (result (getField 1 file_2d Field2D mesh_yguards (fill 0%R) "Rxy" 0%R origin0)
         (false, fill 0%R)) 2 2 0.
Proof.
  assert (Hrun : exists a c,
             getField 1 file_2d Field2D mesh_yguards (fill 0%R) "Rxy" 0%R origin0
             = (Ok (true, a), c))
    by (vm_compute; eexists; eexists; reflexivity).
  apply (Ok_true_result _ (false, fill 0%R)) in Hrun.
  refine (proj2 (getField_y_guards_replicated 1 file_2d Field2D mesh_yguards
            (fill 0%R) "Rxy" 0%R origin0 _ _ Hrun _ _ 2 3 0 _ _) _).
  - left. reflexivity.
  - reflexivity.
  - simpl. lia.
  - simpl. lia.
  - simpl. lia.
Defined.

(** ** The 2-D reader *)

Lemma for_each_as_until l body :
  forall v c v' c',
  for_each l body v c = (Ok v', c') ->
  for_each_until l (fun i w => w' <- body i w ;; ret (true, w')) v c
  = (Ok (true, v'), c').
Proof.
  induction l as [|i l IH]; intros v c v' c' H; simpl in H |- *.
  - apply ret_Ok in H. destruct H as [-> ->]. reflexivity.
  - apply bind_Ok in H. destruct H as (v1 & c1 & Hb & Hl).
    unfold bind at 1. unfold bind at 1. rewrite Hb. simpl.
    apply IH. exact Hl.
Qed.

Lemma store_y_Ok m var x yd n d var' :
  store_y m var x yd n d = Ok var' ->
  (forall k, 0 <= k < n -> var' x (yd + k) 0 = d k)
  /\ (forall x' y' z', ~ (x' = x /\ yd <= y' < yd + n) ->
        var' x' y' z' = var x' y' z').
Proof.
  unfold store_y. destruct (n <=? 0) eqn:En; bool_to_Prop.
  - intros H. inversion H. split; [intros; lia | reflexivity].
  - destruct (_ && _); [|discriminate]. intros H. inversion H. split.
    + intros k Hk. rewrite !Z.eqb_refl. simpl.
      replace (yd <=? yd + k) with true by (symmetry; apply Z.leb_le; lia).
      replace (yd + k <? yd + n) with true by (symmetry; apply Z.ltb_lt; lia).
      simpl. f_equal. lia.
    + intros x' y' z' Hne.
      destruct (x' =? x) eqn:Ex; [|reflexivity].
      destruct (yd <=? y') eqn:E1; [|reflexivity].
      destruct (y' <? yd + n) eqn:E2; [|reflexivity].
      bool_to_Prop. exfalso. apply Hne. lia.
Qed.

(** The loop of the 2-D reader, before the cursor is put back. *)
Lemma readField2D_loop gf m name ys yd ny xs xd nx var c var' c' :
  for_each (range xs nx)
    (fun x var =>
       setGlobalOrigin x ys 0 ;;
       r <- file_read_real (file gf) name 1 ny 0 ;;
       match r with
       | None => throw CouldNotFetchData
       | Some d => lift (store_y m var (x - xs + xd) yd ny d)
       end) var c = (Ok var', c') ->
  (forall x, xs <= x < xs + nx ->
     exists stored,
       read_real (file gf) (x, ys, 0) name 1 ny 0 = Some stored
       /\ forall k, 0 <= k < ny -> var' (x - xs + xd) (yd + k) 0 = stored k)
  /\ (forall x' y' z',
        (forall x, xs <= x < xs + nx ->
           ~ (x' = x - xs + xd /\ yd <= y' < yd + ny)) ->
        var' x' y' z' = var x' y' z').
Proof.
  intros Hloop. apply for_each_as_until in Hloop.
  apply (for_each_until_rows
           (fun x x' y' => x' = x - xs + xd /\ yd <= y' < yd + ny)
           (fun x v => exists stored,
              read_real (file gf) (x, ys, 0) name 1 ny 0 = Some stored
              /\ forall k, 0 <= k < ny -> v (x - xs + xd) (yd + k) 0 = stored k))
    in Hloop.
  - destruct Hloop as [H1 H2]. split.
    + intros x Hx. apply H1, in_range, Hx.
    + intros x' y' z' Hout. apply H2. intros j Hj. apply Hout, in_range, Hj.
  - apply range_NoDup.
  - intros x _ v c0 v2 c2 Hb.
    apply bind_Ok in Hb. destruct Hb as (w & c3 & Hb & Hr).
    apply ret_Ok in Hr. destruct Hr as [E _]. inversion E; subst w. clear E.
    unfold bind, setGlobalOrigin, file_read_real in Hb.
    destruct (read_real (file gf) (x, ys, 0) name 1 ny 0) as [d|] eqn:Er;
      [|discriminate].
    apply lift_Ok in Hb. destruct Hb as [Hs _]. apply store_y_Ok in Hs.
    destruct Hs as [S1 S2]. split; [exists d; auto | exact S2].
  - intros x v v2 (stored & Hr & Hv) Hsame. exists stored. split; [exact Hr|].
    intros k Hk. rewrite Hsame by lia. apply Hv, Hk.
  - intros a b x' y' _ _ Hab [Ea _] [Eb _]. lia.
Qed.

(** X7: when the 2-D reader returns, every column of the window holds the
    [ny_to_read] values that the backend delivered for it, from row [yd]
    on, and no cell outside the window has changed. *)
Theorem readField2D_window gf m name ys yd ny xs xd nx size var c var' c' :
  readField2D gf m name ys yd ny xs xd nx size var c = (Ok var', c') ->
  (forall x k, xs <= x < xs + nx -> 0 <= k < ny ->
     exists stored,
       read_real (file gf) (x, ys, 0) name 1 ny 0 = Some stored
       /\ var' (x - xs + xd) (yd + k) 0 = stored k)
  /\ (forall x' y' z', ~ (xd <= x' < xd + nx /\ yd <= y' < yd + ny) ->
        var' x' y' z' = var x' y' z').
Proof.
  unfold readField2D. intros H. apply bind_Ok in H.
  destruct H as (v1 & c1 & Hloop & H).
  assert (v1 = var') as ->
    by (unfold bind, setGlobalOrigin, ret in H; inversion H; reflexivity).
  apply readField2D_loop in Hloop. destruct Hloop as [Hin Hout].
  split.
  - intros x k Hx Hk. destruct (Hin x Hx) as (stored & Hr & Hv).
    exists stored. split; [exact Hr | apply Hv, Hk].
  - intros x' y' z' Hw. apply Hout. intros x Hx [E Hy]. apply Hw. lia.
Qed.

Lemma readField2D_window_witness :
  (exists stored,
     read_real (file file_2d) (2, 0, 0) "Rxy" 1 2 0 = Some stored
     /\ result (readField2D file_2d mesh_yguards "Rxy" 0 1 2 0 0 3 [3; 2] ramp
                  origin0) (fill 0%R) 2 2 0 = stored 1)
  /\ result (readField2D file_2d mesh_yguards "Rxy" 0 1 2 0 0 3 [3; 2] ramp
               origin0) (fill 0%R) 2 3 0 = ramp 2 3 0.
Proof.
  assert (Hrun : exists a c,
             readField2D file_2d mesh_yguards "Rxy" 0 1 2 0 0 3 [3; 2] ramp origin0
             = (Ok a, c))
    by (vm_compute; eexists; eexists; reflexivity).
  apply (Ok_result _ (fill 0%R)) in Hrun.
  destruct (readField2D_window _ _ _ _ _ _ _ _ _ _ _ _ _ _ Hrun) as [Hin Hout].
  split.
  - apply (Hin 2 1); lia.
  - apply Hout. lia.
Defined.

(** X8: a load of a variable stored with two extents into a 2-D handle
    that returns true has, in every interior cell (i, j) that lies in the
    window, the value the backend delivered for global column
    [OffsetX + (i - xd)] at position [j - yd] of the rows read from
    [ys] on. *)
Theorem getField_2d_interior CHECK gf m var name def c var' c' :
  getField CHECK gf Field2D m var name def c = (Ok (true, var'), c') ->
  List.length (getSize (file gf) name) = 2%nat ->
  forall i j,
    xstart m <= i <= xend m -> ystart m <= j <= yend m ->
    x_dest m (getSize (file gf) name) <= i
      < x_dest m (getSize (file gf) name) + LocalNx m ->
    y_dest gf m <= j < y_dest gf m + y_count gf m ->
    exists stored,
      read_real (file gf)
        (OffsetX m + (i - x_dest m (getSize (file gf) name)), y_source gf m, 0)
        name 1 (y_count gf m) 0 = Some stored
      /\ var' i j 0 = stored (j - y_dest gf m).
Proof.
  intros H Hlen i j Hi Hj Hwi Hwj.
  destruct (getField_steps _ _ _ _ _ _ _ _ _ _ H (or_introl Hlen))
    as (var1 & var2 & c1 & c2 & Hread & Hex & Hey).
  simpl in Hread. unfold readField2D in Hread. apply bind_Ok in Hread.
  destruct Hread as (v1 & c0 & Hloop & Hread).
  assert (v1 = var1) as ->
    by (unfold bind, setGlobalOrigin, ret in Hread; inversion Hread; reflexivity).
  apply readField2D_loop in Hloop. destruct Hloop as [Hin _].
  destruct (Hin (OffsetX m + (i - x_dest m (getSize (file gf) name))))
    as (stored & Hr & Hv); [lia|].
  specialize (Hv (j - y_dest gf m) ltac:(lia)).
  exists stored. split; [exact Hr|].
  assert (E2 : var' i j 0 = var2 i j 0).
  { destruct (grid_yguards gf =? 0).
    - apply (extrapolate_y_interior _ _ _ _ _ _ Hey). exact Hj.
    - apply ret_Ok in Hey. destruct Hey as [-> _]. reflexivity. }
  assert (E1 : var2 i j 0 = var1 i j 0).
  { destruct (_ =? _).
    - apply (extrapolate_x_interior _ _ _ _ _ _ Hex). exact Hi.
    - apply ret_Ok in Hex. destruct Hex as [-> _]. reflexivity. }
  rewrite E2, E1, <- Hv. f_equal; lia.
Qed.

Lemma getField_2d_interior_witness :
  exists stored,
    read_real (file file_2d) (2, 0, 0) "Rxy" 1 2 0 = Some stored
    /\ snd (result (getField 1 file_2d Field2D mesh_yguards (fill 0%R) "Rxy" 0%R
                      origin0) (false, fill 0%R)) 2 2 0 = stored 1.
Proof.
  assert (Hrun : exists a c,
             getField 1 file_2d Field2D mesh_yguards (fill 0%R) "Rxy" 0%R origin0
             = (Ok (true, a), c))
    by (vm_compute; eexists; eexists; reflexivity).
  apply (Ok_true_result _ (false, fill 0%R)) in Hrun.
  apply (getField_2d_interior 1 file_2d mesh_yguards (fill 0%R) "Rxy" 0%R origin0
           _ _ Hrun eq_refl 2 2);
    vm_compute; split; first [discriminate | reflexivity].
Defined.

(** ** The 3-D readers: refusals and failures *)

(** A 3-D reader refuses a window with a negative entry and a variable
    that is not stored with three extents; [readField] makes an exception
    of that. *)
Lemma readField3D_refused gf m name ys yd ny xs xd nx size var c :
  bad_arguments ys yd ny xs xd nx = true
  \/ List.length (getSize (file gf) name) <> 3%nat ->
  hasVar gf "nz" = false
  \/ ((2 < List.length size)%nat /\ nth 2 size 0 = LocalNz m) ->
  readField3D gf m name ys yd ny xs xd nx size var c
  = (Throw CouldNotReadFromGrid, c).
Proof.
  intros Hbad Hpath.
  assert (Hreal : readgrid_3dvar_real gf m name ys yd ny xs xd nx var c
                  = (Ok (false, var), c)).
  { unfold readgrid_3dvar_real.
    destruct (bad_arguments ys yd ny xs xd nx); [reflexivity|].
    destruct Hbad as [Hbad|Hbad]; [discriminate|].
    destruct (Nat.eqb (List.length (getSize (file gf) name)) 3) eqn:E;
      [apply Nat.eqb_eq in E; contradiction | reflexivity]. }
  assert (Hfft : readgrid_3dvar_fft gf m name ys yd ny xs xd nx var c
                 = (Ok (false, var), c)).
  { unfold readgrid_3dvar_fft.
    destruct (bad_arguments ys yd ny xs xd nx); [reflexivity|].
    destruct Hbad as [Hbad|Hbad]; [discriminate|].
    destruct (Nat.eqb (List.length (getSize (file gf) name)) 3) eqn:E;
      [apply Nat.eqb_eq in E; contradiction | reflexivity]. }
  unfold readField3D.
  destruct (hasVar gf "nz").
  - destruct Hpath as [Hp|[Hl Hp]]; [discriminate|].
    replace (List.length size <=? 2)%nat with false
      by (symmetry; apply Nat.leb_gt; exact Hl).
    rewrite Hp, Z.eqb_refl. simpl. unfold bind. rewrite Hreal. reflexivity.
  - unfold bind. rewrite Hfft. reflexivity.
Qed.

(** X9: in a file without the marker [nz], a variable stored with two
    extents cannot be loaded into a 3-D handle: every such call of
    [getField] ends in an exception. *)
Theorem getField_3d_from_2d_throws CHECK gf m var name def c :
  is_valid (file gf) = true ->
  hasVar gf "nz" = false ->
  List.length (getSize (file gf) name) = 2%nat ->
  exists e c', getField CHECK gf Field3D m var name def c = (Throw e, c').
Proof.
  intros Hv Hnz Hlen.
  unfold getField. rewrite Hv. simpl.
  unfold size_switch. rewrite Hlen.
  unfold bind at 1. unfold ret at 1.
  match goal with
  | |- exists e c', ?body c = (Throw e, c') => revert c; change (throws body)
  end.
  apply bind_throws; [apply ASSERT1_goes_on_or_throws|]. intros _.
  apply bind_throws; [apply ASSERT1_goes_on_or_throws|]. intros _.
  apply bind_throws; [apply y_read_start_goes_on_or_throws|]. intros ys.
  apply bind_throws; [apply x_guards_goes_on_or_throws|]. intros [[? nx] xd].
  apply bind_throws; [apply y_guards_goes_on_or_throws|]. intros [[? ny] yd].
  intros c. unfold bind. simpl.
  rewrite readField3D_refused; [eauto | right; lia | left; exact Hnz].
Qed.

Lemma getField_3d_from_2d_throws_witness :
  exists e c',
    getField 1 file_2d Field3D mesh_plain (fill 0%R) "Rxy" 0%R origin0
    = (Throw e, c').
Proof.
  apply (getField_3d_from_2d_throws 1 file_2d mesh_plain (fill 0%R) "Rxy" 0%R
           origin0); reflexivity.
Defined.

(** X22: in a file marked as real space (it has [nz]), a variable stored
    with two extents cannot be loaded into a 3-D handle either:
    [readField] reads [size[2]] of a vector of two elements, and
    [getField] never returns. *)
Theorem getField_3d_from_2d_real_space CHECK gf m var name def c :
  hasVar gf "nz" = true ->
  List.length (getSize (file gf) name) = 2%nat ->
  (forall ys yd ny xs xd nx c0,
     readField3D gf m name ys yd ny xs xd nx (getSize (file gf) name) var c0
     = (Fault, c0))
  /\ forall r c', getField CHECK gf Field3D m var name def c <> (Ok r, c').
Proof.
  intros Hnz Hlen.
  assert (Hread : forall v ys yd ny xs xd nx c0,
     readField3D gf m name ys yd ny xs xd nx (getSize (file gf) name) v c0
     = (Fault, c0)).
  { intros. unfold readField3D. rewrite Hnz, Hlen. reflexivity. }
  split; [intros; apply Hread|].
  intros [[|] v] c' H.
  - destruct (getField_steps _ _ _ _ _ _ _ _ _ _ H (or_introl Hlen))
      as (var1 & var2 & c1 & c2 & Hr & _).
    simpl in Hr. rewrite Hread in Hr. discriminate.
  - apply getField_false_inv in H. destruct H as (_ & _ & [E|[E|[E _]]]).
    + rewrite E in Hlen. discriminate.
    + lia.
    + discriminate.
Qed.

Lemma getField_3d_from_2d_real_space_witness :
  readField3D file_2d_real mesh_plain "Rxy" 0 0 2 0 0 3
    (getSize (file file_2d_real) "Rxy") (fill 0%R) origin0 = (Fault, origin0)
  /\ forall r c',
       getField 1 file_2d_real Field3D mesh_plain (fill 0%R) "Rxy" 0%R origin0
       <> (Ok r, c').
Proof.
  destruct (getField_3d_from_2d_real_space 1 file_2d_real mesh_plain (fill 0%R)
              "Rxy" 0%R origin0 eq_refl eq_refl) as [Hread Hnever].
  split; [apply Hread | exact Hnever].
Defined.

(** With the checks passed, the load ends at that access. *)
Example real_space_2d_into_3d_run :
  getField 1 file_2d_real Field3D mesh_plain (fill 0%R) "Rxy" 0%R origin0
  = (Fault, origin0).
Proof. vm_compute. reflexivity. Qed.

Lemma for_each_until_false l body :
  forall v c v' c',
  for_each_until l body v c = (Ok (false, v'), c') ->
  exists j v0 c0, In j l /\ body j v0 c0 = (Ok (false, v'), c').
Proof.
  induction l as [|i l IH]; intros v c v' c' H; simpl in H.
  - apply ret_Ok in H. destruct H; discriminate.
  - apply bind_Ok in H. destruct H as ([b v1] & c1 & Hb & H). simpl in H.
    destruct b.
    + apply IH in H. destruct H as (j & v0 & c0 & Hj & H).
      exists j, v0, c0. split; [right; exact Hj | exact H].
    + apply ret_Ok in H. destruct H as [E ->]. inversion E; subst.
      exists i, v, c. split; [left; reflexivity | exact Hb].
Qed.

(** A 3-D reader that returns false did so at the checks, or at a row of
    the window. *)
Lemma reader_returned_false (row : Z -> Z -> Field -> M (bool * Field))
    (bad short : bool) xread xsize yread ysize var c var' c' :
  (if bad then ret (false, var)
   else if short then ret (false, var)
   else r <- for_each_until (range xread xsize)
               (fun jx w => for_each_until (range yread ysize) (row jx) w) var ;;
        if fst r then setGlobalOrigin 0 0 0 ;; ret (true, snd r)
        else ret (false, snd r)) c = (Ok (false, var'), c') ->
  ((bad = true \/ short = true) /\ var' = var /\ c' = c)
  \/ exists jx jy v0 c0,
       xread <= jx < xread + xsize /\ yread <= jy < yread + ysize
       /\ row jx jy v0 c0 = (Ok (false, var'), c').
Proof.
  destruct bad.
  { intros H. apply ret_Ok in H. destruct H as [E ->]. inversion E. left. auto. }
  destruct short.
  { intros H. apply ret_Ok in H. destruct H as [E ->]. inversion E. left. auto. }
  intros H. right.
  apply bind_Ok in H. destruct H as ([b v] & c1 & Hl & H). simpl in H.
  destruct b.
  - unfold bind, setGlobalOrigin, ret in H. inversion H.
  - apply ret_Ok in H. destruct H as [E ->]. inversion E; subst v.
    apply for_each_until_false in Hl. destruct Hl as (jx & v0 & c0 & Hjx & Hl).
    apply for_each_until_false in Hl. destruct Hl as (jy & v1 & c2 & Hjy & Hl).
    apply in_range in Hjx, Hjy. exists jx, jy, v1, c2. auto.
Qed.

(** X10: when a 3-D reader returns false after its checks, a row of the
    window could not be read, and the cursor is left at that row, not at
    the origin. *)
Theorem reader_false_leaves_cursor_at_row gf m name yread ydest ysize xread xdest
    xsize var c var' c' :
  bad_arguments yread ydest ysize xread xdest xsize = false ->
  List.length (getSize (file gf) name) = 3%nat ->
  (readgrid_3dvar_real gf m name yread ydest ysize xread xdest xsize var c
     = (Ok (false, var'), c')
   \/ readgrid_3dvar_fft gf m name yread ydest ysize xread xdest xsize var c
     = (Ok (false, var'), c')) ->
  exists jx jy,
    xread <= jx < xread + xsize /\ yread <= jy < yread + ysize
    /\ read_real (file gf) (jx, jy, 0) name 1 1 (nth 2 (getSize (file gf) name) 0)
       = None
    /\ c' = (jx, jy, 0).
Proof.
  intros Hbad Hlen [H|H].
  - unfold readgrid_3dvar_real in H. apply reader_returned_false in H.
    destruct H as [([E|E] & _)|(jx & jy & v0 & c0 & Hx & Hy & Hrow)].
    + congruence.
    + rewrite Hlen in E. discriminate.
    + exists jx, jy. repeat split; try lia.
      * unfold real_row, bind, setGlobalOrigin, file_read_real, lift, ret in Hrow.
        destruct (read_real _ _ _ _ _ _); [|reflexivity].
        destruct (store_z _ _ _ _ _ _); discriminate.
      * unfold real_row, bind, setGlobalOrigin, file_read_real, lift, ret in Hrow.
        destruct (read_real _ _ _ _ _ _); [|inversion Hrow; reflexivity].
        destruct (store_z _ _ _ _ _ _); discriminate.
  - apply fft_reader_after_report in H. apply reader_returned_false in H.
    destruct H as [([E|E] & _)|(jx & jy & v0 & c0 & Hx & Hy & Hrow)].
    + congruence.
    + rewrite Hlen in E. discriminate.
    + exists jx, jy. repeat split; try lia.
      * unfold fft_row, bind, setGlobalOrigin, file_read_real, lift, ret in Hrow.
        destruct (read_real _ _ _ _ _ _); [|reflexivity].
        cbv zeta in Hrow. destruct (load_fdata _ _ _ _); try discriminate.
        destruct (store_z _ _ _ _ _ _); discriminate.
      * unfold fft_row, bind, setGlobalOrigin, file_read_real, lift, ret in Hrow.
        destruct (read_real _ _ _ _ _ _); [|inversion Hrow; reflexivity].
        cbv zeta in Hrow. destruct (load_fdata _ _ _ _); try discriminate.
        destruct (store_z _ _ _ _ _ _); discriminate.
Qed.

Lemma reader_false_leaves_cursor_at_row_witness :
  exists jx jy,
    0 <= jx < 0 + 3 /\ 0 <= jy < 0 + 2
    /\ read_real (file file_truncated) (jx, jy, 0) "phi" 1 1 4 = None
    /\ snd (readgrid_3dvar_real file_truncated mesh_plain "phi" 0 0 2 0 0 3
              (fill 0%R) origin0) = (jx, jy, 0).
Proof.
  apply (reader_false_leaves_cursor_at_row file_truncated mesh_plain "phi"
           0 0 2 0 0 3 (fill 0%R) origin0
           (snd (result (readgrid_3dvar_real file_truncated mesh_plain "phi"
                           0 0 2 0 0 3 (fill 0%R) origin0) (true, fill 0%R)))
           _ eq_refl eq_refl).
  left. vm_compute. reflexivity.
Defined.

Lemma readgrid_3dvar_real_returns_witness :
  exists var',
    readgrid_3dvar_real file_3d_real mesh_plain "phi" 0 0 2 0 0 3 (fill 0%R)
      (5, 5, 5) = (Ok (true, var'), origin0).
Proof.
  apply (readgrid_3dvar_real_returns file_3d_real mesh_plain "phi" 0 0 2 0 0 3
           (fill 0%R) (5, 5, 5)); try (simpl; lia); try reflexivity.
  intros jx jy _ _. simpl. discriminate.
Defined.

(** ** The spectral reader: indices and small domains *)

Lemma range_cons lo n : 0 < n -> range lo n = lo :: range (lo + 1) (n - 1).
Proof.
  intros Hn. unfold range.
  replace (Z.to_nat n) with (S (Z.to_nat (n - 1))) by lia.
  simpl. f_equal; [lia|].
  rewrite <- seq_shift, map_map. apply map_ext. intros k. lia.
Qed.

Lemma load_modes_in_bounds d n zp l :
  1 <= zp -> 1 <= n -> (forall i, In i l -> 1 <= i) ->
  exists Fs, load_modes (array_of d n) zp (Z.quot (n - 1) 2) l = Ok Fs.
Proof.
  intros Hzp Hn. induction l as [|i l IH]; intros Hl; simpl; [eauto|].
  destruct IH as (Fs & ->); [intros j Hj; apply Hl; right; exact Hj|].
  specialize (Hl i (or_introl eq_refl)).
  unfold load_mode. rewrite !zdata_at_array.
  destruct (i * zp <=? Z.quot (n - 1) 2) eqn:E; [|eauto].
  apply Z.leb_le in E. rewrite Z.quot_div_nonneg in E by lia.
  assert (2 * ((n - 1) / 2) <= n - 1) by (apply Z.mul_div_le; lia).
  assert (1 <= i * zp) by nia.
  replace ((0 <=? i * zp * 2 - 1) && (i * zp * 2 - 1 <? n)) with true
    by (symmetry; apply andb_true_iff; split;
        [apply Z.leb_le|apply Z.ltb_lt]; lia).
  replace ((0 <=? i * zp * 2) && (i * zp * 2 <? n)) with true
    by (symmetry; apply andb_true_iff; split;
        [apply Z.leb_le|apply Z.ltb_lt]; lia).
  eauto.
Qed.

Lemma load_fdata_in_bounds d n ncz zp :
  1 <= n -> 1 <= zp ->
  exists fdata, load_fdata (array_of d n) ncz zp (Z.quot (n - 1) 2) = Ok fdata.
Proof.
  intros Hn Hzp. unfold load_fdata. rewrite zdata_at_array.
  replace ((0 <=? 0) && (0 <? n)) with true
    by (symmetry; apply andb_true_iff; split;
        [apply Z.leb_le|apply Z.ltb_lt]; lia).
  destruct (load_modes_in_bounds d n zp (range 1 (Z.quot ncz 2)) Hzp Hn)
    as (Fs & ->); [|eauto].
  intros i Hi. apply in_range in Hi. lia.
Qed.

(** X11: where the arithmetic of the spectral reader is defined, for a row
    of [n >= 1] stored values and [maxmode = (n - 1) / 2]: with
    [zperiod >= 1] the report of the modes divides by a positive number
    and the loop that loads the spectrum reads only inside the stored
    values; with [zperiod = 0] the report divides by zero, before any row
    is read; with [zperiod < 0] the report is defined and, when there is a
    harmonic to load ([ncz >= 2]), the loop reads [zdata] below index 0. *)
Theorem load_fdata_bounds d n ncz zp :
  1 <= n ->
  (1 <= zp ->
     (exists q, modes_reported ncz zp (Z.quot (n - 1) 2) = Ok q)
     /\ exists fdata, load_fdata (array_of d n) ncz zp (Z.quot (n - 1) 2) = Ok fdata)
  /\ (zp = 0 -> modes_reported ncz zp (Z.quot (n - 1) 2) = Fault)
  /\ (zp < 0 -> 2 <= ncz ->
      (exists q, modes_reported ncz zp (Z.quot (n - 1) 2) = Ok q)
      /\ load_fdata (array_of d n) ncz zp (Z.quot (n - 1) 2) = Fault).
Proof.
  intros Hn.
  assert (Hmax : 0 <= Z.quot (n - 1) 2) by (apply Z.quot_pos; lia).
  split; [|split].
  - intros Hzp. split.
    + apply modes_reported_defined. lia.
    + apply load_fdata_in_bounds; assumption.
  - intros ->. unfold modes_reported, int_div.
    replace (0 >? Z.quot (n - 1) 2) with false; [reflexivity|].
    symmetry. rewrite Z.gtb_ltb. apply Z.ltb_ge. exact Hmax.
  - intros Hzp Hncz. split; [apply modes_reported_defined; lia|].
    unfold load_fdata. rewrite zdata_at_array.
    replace ((0 <=? 0) && (0 <? n)) with true
      by (symmetry; apply andb_true_iff; split;
          [apply Z.leb_le|apply Z.ltb_lt]; lia).
    assert (0 < Z.quot ncz 2).
    { rewrite Z.quot_div_nonneg by lia. apply Z.div_str_pos. lia. }
    rewrite range_cons by assumption. simpl.
    unfold load_mode. rewrite !zdata_at_array.
    replace (1 * zp <=? Z.quot (n - 1) 2) with true
      by (symmetry; apply Z.leb_le; lia).
    replace (0 <=? 1 * zp * 2 - 1) with false by (symmetry; apply Z.leb_gt; lia).
    reflexivity.
Qed.

Lemma load_fdata_bounds_witness :
  (exists fdata, load_fdata (array_of (fun k => IZR k) 5) 8 2 2 = Ok fdata)
  /\ modes_reported 8 0 2 = Fault
  /\ load_fdata (array_of (fun k => IZR k) 5) 8 (-1) 2 = Fault.
Proof.
  destruct (load_fdata_bounds (fun k => IZR k) 5 8 2 ltac:(lia)) as [Hin _].
  destruct (load_fdata_bounds (fun k => IZR k) 5 8 0 ltac:(lia)) as (_ & Hzero & _).
  destruct (load_fdata_bounds (fun k => IZR k) 5 8 (-1) ltac:(lia)) as (_ & _ & Hneg).
  split; [apply Hin; lia | split; [apply Hzero; reflexivity | apply Hneg; lia]].
Defined.

Lemma load_fdata_only_dc d n ncz zp maxmode fdata :
  0 <= maxmode < zp ->
  load_fdata (array_of d n) ncz zp maxmode = Ok fdata ->
  exists Fs, fdata = (d 0, 0%R) :: Fs
             /\ forall j, nth j Fs (0%R, 0%R) = (0%R, 0%R).
Proof.
  intros Hzp H. unfold load_fdata in H. rewrite zdata_at_array in H.
  destruct ((0 <=? 0) && (0 <? n)); [|discriminate].
  destruct (load_modes _ _ _ _) as [Fs| |] eqn:EFs; try discriminate.
  inversion H; subst fdata. exists Fs. split; [reflexivity|].
  apply load_modes_nth in EFs. destruct EFs as [Hl Hn].
  intros j. destruct (Nat.lt_ge_cases j (List.length Fs)) as [Hj|Hj].
  - rewrite Hl in Hj. specialize (Hn j Hj).
    apply load_mode_array in Hn. refine (eq_trans Hn _).
    rewrite range_length in Hj. rewrite range_nth by exact Hj.
    replace ((1 + Z.of_nat j) * zp <=? maxmode) with false; [reflexivity|].
    symmetry. apply Z.leb_gt. nia.
  - apply nth_overflow. exact Hj.
Qed.

(** X12: when [zperiod] exceeds the highest stored mode number (the domain
    is too small for any stored harmonic) only the DC component is read:
    the spectral reader fills each row of the window with the first stored
    value of that row. *)
Theorem fft_small_domain_only_dc gf m name yread ydest ysize xread xdest xsize
    var c var' c' :
  readgrid_3dvar_fft gf m name yread ydest ysize xread xdest xsize var c
    = (Ok (true, var'), c') ->
  1 <= nth 2 (getSize (file gf) name) 0 ->
  Z.quot (nth 2 (getSize (file gf) name) 0 - 1) 2 < zperiod m ->
  forall jx jy k,
    xread <= jx < xread + xsize -> yread <= jy < yread + ysize ->
    0 <= k < LocalNz m ->
    exists stored,
      read_real (file gf) (jx, jy, 0) name 1 1 (nth 2 (getSize (file gf) name) 0)
        = Some stored
      /\ var' (jx - xread + xdest) (jy - yread + ydest) k = stored 0.
Proof.
  intros H Hsize Hzp jx jy k Hx Hy Hk. apply fft_reader_after_report in H.
  apply reader_returned_true in H. destruct H as (c1 & H).
  destruct (row_loops_fill xread xdest yread ydest (LocalNz m)
              (fun jx jy val =>
                 exists stored,
                   read_real (file gf) (jx, jy, 0) name 1 1
                     (nth 2 (getSize (file gf) name) 0) = Some stored
                   /\ forall k, val k = stored 0)
              (fft_row gf m name (nth 2 (getSize (file gf) name) 0)
                 (Z.quot (nth 2 (getSize (file gf) name) 0 - 1) 2)
                 yread ydest xread xdest))
    with (xsize := xsize) (ysize := ysize) (v := var) (c := c) (v' := var')
         (c' := c1) (jx := jx) (jy := jy)
    as (val & (stored & Hr & Hval) & Hrow); auto.
  - clear - Hzp Hsize. intros jx jy v c v1 c1 Hrow.
    apply fft_row_Ok in Hrow. destruct Hrow as (stored & fdata & Hr & Hl & Hs).
    apply store_z_Ok in Hs. destruct Hs as [S1 S2].
    split; [|exact S2].
    exists (irfft fdata (LocalNz m)). split; [|exact S1].
    exists stored. split; [exact Hr|].
    intros k. apply load_fdata_only_dc in Hl.
    + destruct Hl as (Fs & -> & HFs). apply irfft_dc_only, HFs.
    + split; [apply Z.quot_pos; lia | exact Hzp].
  - exists stored. split; [exact Hr|]. rewrite Hrow by exact Hk. apply Hval.
Qed.

Lemma zperiod_third_circle m : zlength m = (2 * PI / 3)%R -> zperiod m = 3.
Proof.
  intros H. unfold zperiod, TWOPI. rewrite H.
  replace (2 * PI / (2 * PI / 3))%R with (IZR 3).
  - apply ROUND_IZR.
  - pose proof PI_neq0. field. assumption.
Qed.

Lemma fft_small_domain_only_dc_witness :
  exists stored,
    read_real (file file_3d_fft) (2, 1, 0) "phi" 1 1 5 = Some stored
    /\ snd (result (readgrid_3dvar_fft file_3d_fft mesh_third "phi" 0 0 2 0 0 3
                      (fill 0%R) origin0) (false, fill 0%R)) 2 1 3 = stored 0.
Proof.
  assert (Hz : zperiod mesh_third = 3) by (apply zperiod_third_circle; reflexivity).
  assert (Hrun : exists a c,
             readgrid_3dvar_fft file_3d_fft mesh_third "phi" 0 0 2 0 0 3
               (fill 0%R) origin0 = (Ok (true, a), c)).
  { unfold readgrid_3dvar_fft, fft_row. rewrite Hz. vm_compute.
    eexists. eexists. reflexivity. }
  apply (Ok_true_result _ (false, fill 0%R)) in Hrun.
  apply (fft_small_domain_only_dc file_3d_fft mesh_third "phi" 0 0 2 0 0 3
           (fill 0%R) origin0 _ _ Hrun);
    [simpl; lia | rewrite Hz; vm_compute; reflexivity | | |]; simpl; lia.
Defined.

(** ** The guard-cell checks *)

(** X13: in a checked build, a window that [x_guards] returns has a
    destination offset that is not negative and belongs to a stored x
    extent of [GlobalNx - 2 mxg + 2 grid_xguards]; one that [y_guards]
    returns belongs to a stored y extent of
    [GlobalNy - 2 myg + grid_yguards], and its offset is not negative when
    the file has y-guard cells. *)
Theorem checked_window_invariants CHECK gf m dims c :
  1 <= CHECK ->
  (forall arm nx xd c', x_guards CHECK m dims c = (Ok (arm, nx, xd), c') ->
     0 <= xd
     /\ nth 0 dims 0 = GlobalNx m - 2 * mxg m + 2 * grid_xguards m dims)
  /\ (forall arm ny yd c', y_guards CHECK gf m dims c = (Ok (arm, ny, yd), c') ->
     nth 1 dims 0 = GlobalNy m - 2 * myg m + grid_yguards gf
     /\ (0 < grid_yguards gf -> 0 <= yd)).
Proof.
  intros HC. split.
  - intros arm nx xd c'. unfold x_guards. intros H.
    apply bind_Ok in H. destruct H as (u & c1 & Ha & H).
    apply ASSERT1_Ok in Ha. destruct Ha as [-> Heven]. specialize (Heven HC).
    apply Z.eqb_eq in Heven.
    destruct (grid_xguards m dims >=? 0) eqn:Ege.
    + apply bind_Ok in H. destruct H as (u' & c2 & Ha & H).
      apply ASSERT1_Ok in Ha. destruct Ha as [-> Hxd]. specialize (Hxd HC).
      apply ret_Ok in H. destruct H as [E _]. inversion E; subst.
      rewrite Z.geb_leb in Hxd. apply Z.leb_le in Hxd. split; [exact Hxd|].
      unfold grid_xguards.
      pose proof (Z.quot_rem' (nth 0 dims 0 - (GlobalNx m - 2 * mxg m)) 2) as Q.
      lia.
    + destruct (grid_xguards m dims =? 0) eqn:E0; [|discriminate].
      apply Z.eqb_eq in E0. rewrite E0 in Ege. discriminate.
  - intros arm ny yd c'. unfold y_guards. intros H.
    destruct (grid_yguards gf >? 0) eqn:Eg.
    + apply bind_Ok in H. destruct H as (u & c1 & Ha & H).
      apply ASSERT1_Ok in Ha. destruct Ha as [-> Hdim]. specialize (Hdim HC).
      apply bind_Ok in H. destruct H as (u' & c2 & Ha & H).
      apply ASSERT1_Ok in Ha. destruct Ha as [-> Hyd]. specialize (Hyd HC).
      apply ret_Ok in H. destruct H as [E _]. inversion E; subst.
      apply Z.eqb_eq in Hdim. rewrite Z.geb_leb in Hyd. apply Z.leb_le in Hyd.
      auto.
    + destruct (grid_yguards gf =? 0) eqn:E0; [|discriminate].
      apply bind_Ok in H. destruct H as (u & c1 & Ha & H).
      apply ASSERT1_Ok in Ha. destruct Ha as [-> Hdim]. specialize (Hdim HC).
      apply Z.eqb_eq in Hdim. apply Z.eqb_eq in E0. split; lia.
Qed.

Lemma checked_window_invariants_witness :
  0 <= 1 /\ nth 0 [7; 2] 0 = GlobalNx mesh_guards - 2 * mxg mesh_guards + 2 * 2.
Proof.
  destruct (checked_window_invariants 1 file_2d mesh_guards [7; 2] origin0
              ltac:(lia)) as [Hx _].
  apply (Hx IncludingGhostpoints 5 1 origin0). reflexivity.
Defined.

(** X14: a negative guard-cell count is fatal on either axis: [x_guards]
    and [y_guards] throw, whatever the build. *)
Theorem negative_guard_count_throws CHECK gf m dims c :
  (grid_xguards m dims < 0 ->
     x_guards CHECK m dims c = (Throw AssertionFailed, c)
     \/ x_guards CHECK m dims c
        = (Throw (XGuardsMismatch (grid_xguards m dims)), c))
  /\ (grid_yguards gf < 0 ->
      y_guards CHECK gf m dims c = (Throw (YGuardsMismatch (grid_yguards gf)), c)).
Proof.
  split; intros Hneg.
  - unfold x_guards, bind, ASSERT1.
    destruct ((1 <=? CHECK) && negb _); [left; reflexivity|]. simpl.
    replace (grid_xguards m dims >=? 0) with false
      by (symmetry; rewrite Z.geb_leb; apply Z.leb_gt; lia).
    replace (grid_xguards m dims =? 0) with false
      by (symmetry; apply Z.eqb_neq; lia).
    right. reflexivity.
  - unfold y_guards.
    replace (grid_yguards gf >? 0) with false
      by (symmetry; rewrite Z.gtb_ltb; apply Z.ltb_ge; lia).
    replace (grid_yguards gf =? 0) with false
      by (symmetry; apply Z.eqb_neq; lia).
    reflexivity.
Qed.

Lemma negative_guard_count_throws_witness :
  x_guards 0 mesh_guards [1; 2] origin0 = (Throw (XGuardsMismatch (-1)), origin0).
Proof.
  destruct (negative_guard_count_throws 0 file_2d mesh_guards [1; 2] origin0)
    as [Hx _].
  destruct (Hx ltac:(vm_compute; reflexivity)) as [H|H]; [discriminate H | exact H].
Defined.

(** ** The x-guard probe *)

(** X15: [hasXBoundaryGuards] is false when the file has no [dx]; when it
    has, on a mesh whose [xstart] is its x-guard width and for an even
    surplus of stored columns, it is true exactly when [getField] would
    count at least one x-guard cell for [dx]. *)
Theorem hasXBoundaryGuards_agrees gf m :
  (getSize (file gf) "dx" = [] -> hasXBoundaryGuards gf m = false)
  /\ (getSize (file gf) "dx" <> [] ->
      xstart m = mxg m ->
      Z.rem (nth 0 (getSize (file gf) "dx") 0 - (GlobalNx m - 2 * mxg m)) 2 = 0 ->
      (hasXBoundaryGuards gf m = true
       <-> 0 < grid_xguards m (getSize (file gf) "dx"))).
Proof.
  unfold hasXBoundaryGuards. split.
  - intros ->. reflexivity.
  - unfold grid_xguards. intros Hne Hx Heven.
    pose proof (Z.quot_rem' (nth 0 (getSize (file gf) "dx") 0
                             - (GlobalNx m - 2 * mxg m)) 2) as Q.
    destruct (getSize (file gf) "dx") as [|n l]; [contradiction|].
    rewrite Z.gtb_ltb, Z.ltb_lt.
    change (nth 0 (n :: l) 0) with n in *. lia.
Qed.

Lemma hasXBoundaryGuards_agrees_witness :
  hasXBoundaryGuards file_mixed mesh_guards = true
  /\ hasXBoundaryGuards file_2d mesh_guards = false.
Proof.
  destruct (hasXBoundaryGuards_agrees file_mixed mesh_guards) as [_ Hdx].
  destruct (hasXBoundaryGuards_agrees file_2d mesh_guards) as [Hnone _].
  split.
  - apply Hdx; try reflexivity. discriminate.
  - apply Hnone. reflexivity.
Defined.

(** ** The vector getters *)

Lemma store_prefix_Ok {A} (d : Z -> A) len var var' :
  store_prefix d len var = Ok var' ->
  List.length var' = List.length var
  /\ (forall k, (k < Z.to_nat len)%nat -> nth_error var' k = Some (d (Z.of_nat k)))
  /\ (forall k, (Z.to_nat len <= k)%nat -> nth_error var' k = nth_error var k).
Proof.
  unfold store_prefix. destruct (_ <? len) eqn:E; [discriminate|].
  apply Z.ltb_ge in E. intros H. inversion H. clear H.
  assert (Hl : List.length (map d (map Z.of_nat (seq 0 (Z.to_nat len))))
               = Z.to_nat len) by (rewrite !length_map, length_seq; reflexivity).
  repeat split.
  - rewrite length_app, Hl, length_skipn. lia.
  - intros k Hk. rewrite nth_error_app1 by lia.
    rewrite !nth_error_map, nth_error_seq.
    replace (k <? Z.to_nat len)%nat with true by (symmetry; apply Nat.ltb_lt; lia).
    reflexivity.
  - intros k Hk. rewrite nth_error_app2 by lia. rewrite Hl, nth_error_skipn.
    f_equal. lia.
Qed.

Lemma get_vector_int_contents gf var name len offset c b var' c' :
  get_vector_int gf var name len offset c = (Ok (b, var'), c') ->
  (b = false -> var' = var)
  /\ (b = true ->
      c' = origin0 /\ List.length var' = List.length var
      /\ exists d,
           read_int (file gf) (offset, 0, 0) name len 0 0 = Some d
           /\ (forall k, (k < Z.to_nat len)%nat ->
                 nth_error var' k = Some (d (Z.of_nat k)))
           /\ (forall k, (Z.to_nat len <= k)%nat ->
                 nth_error var' k = nth_error var k)).
Proof.
  unfold get_vector_int, bind, setGlobalOrigin, file_read_int, lift, ret.
  destruct (negb (is_valid (file gf))).
  { intros H. inversion H. split; [reflexivity | discriminate]. }
  destruct (read_int (file gf) (offset, 0, 0) name len 0 0) as [d|].
  2:{ intros H. inversion H. split; [reflexivity | discriminate]. }
  destruct (store_prefix d len var) as [w| |] eqn:Es; try discriminate.
  intros H. inversion H; subst. split; [discriminate|]. intros _.
  apply store_prefix_Ok in Es. destruct Es as (E1 & E2 & E3).
  repeat split; auto. exists d. auto.
Qed.

Lemma get_vector_real_contents gf var name len offset c b var' c' :
  get_vector_real gf var name len offset c = (Ok (b, var'), c') ->
  (b = false -> var' = var)
  /\ (b = true ->
      c' = origin0 /\ List.length var' = List.length var
      /\ exists d,
           read_real (file gf) (offset, 0, 0) name len 0 0 = Some d
           /\ (forall k, (k < Z.to_nat len)%nat ->
                 nth_error var' k = Some (d (Z.of_nat k)))
           /\ (forall k, (Z.to_nat len <= k)%nat ->
                 nth_error var' k = nth_error var k)).
Proof.
  unfold get_vector_real, bind, setGlobalOrigin, file_read_real, lift, ret.
  destruct (negb (is_valid (file gf))).
  { intros H. inversion H. split; [reflexivity | discriminate]. }
  destruct (read_real (file gf) (offset, 0, 0) name len 0 0) as [d|].
  2:{ intros H. inversion H. split; [reflexivity | discriminate]. }
  destruct (store_prefix d len var) as [w| |] eqn:Es; try discriminate.
  intros H. inversion H; subst. split; [discriminate|]. intros _.
  apply store_prefix_Ok in Es. destruct Es as (E1 & E2 & E3).
  repeat split; auto. exists d. auto.
Qed.

(** X16: a vector getter that returns false has left the vector as it was;
    one that returns true has put the cursor back at the origin and
    replaced exactly the first [len] elements by the values read at
    [offset], keeping the length and the rest of the vector. *)
Theorem get_vector_contents gf name len offset c :
  (forall var b var' c',
     get_vector_int gf var name len offset c = (Ok (b, var'), c') ->
     (b = false -> var' = var)
     /\ (b = true ->
         c' = origin0 /\ List.length var' = List.length var
         /\ exists d,
              read_int (file gf) (offset, 0, 0) name len 0 0 = Some d
              /\ (forall k, (k < Z.to_nat len)%nat ->
                    nth_error var' k = Some (d (Z.of_nat k)))
              /\ (forall k, (Z.to_nat len <= k)%nat ->
                    nth_error var' k = nth_error var k)))
  /\ (forall var b var' c',
     get_vector_real gf var name len offset c = (Ok (b, var'), c') ->
     (b = false -> var' = var)
     /\ (b = true ->
         c' = origin0 /\ List.length var' = List.length var
         /\ exists d,
              read_real (file gf) (offset, 0, 0) name len 0 0 = Some d
              /\ (forall k, (k < Z.to_nat len)%nat ->
                    nth_error var' k = Some (d (Z.of_nat k)))
              /\ (forall k, (Z.to_nat len <= k)%nat ->
                    nth_error var' k = nth_error var k))).
Proof.
  split; intros var b var' c'.
  - apply get_vector_int_contents.
  - apply get_vector_real_contents.
Qed.

Lemma get_vector_contents_witness :
  snd (get_vector_int file_2d [7; 8; 9] "ny_inner" 2 5 (1, 1, 1)) = origin0
  /\ List.length (snd (result (get_vector_int file_2d [7; 8; 9] "ny_inner" 2 5
                                 (1, 1, 1)) (false, []))) = 3%nat
  /\ snd (result (get_vector_real file_2d [0%R; 0%R] "zShift" 2 5 (1, 1, 1))
            (true, [])) = [0%R; 0%R].
Proof.
  destruct (get_vector_contents file_2d "ny_inner" 2 5 (1, 1, 1)) as [Hint _].
  destruct (get_vector_contents file_2d "zShift" 2 5 (1, 1, 1)) as [_ Hreal].
  destruct (Hint [7; 8; 9] true _ _ eq_refl) as [_ H].
  destruct (H eq_refl) as (H1 & H2 & _).
  destruct (Hreal [0%R; 0%R] false _ _ eq_refl) as [H3 _].
  split; [exact H1 | split; [exact H2 | exact (H3 eq_refl)]].
Defined.

(** ** The spectral reader returns *)

(** X17: the spectral reader returns true, and puts the cursor back at the
    origin, when its arguments are not negative, the variable is stored
    with three extents and at least one value per row, [zperiod >= 1], the
    window lies in the field, and the backend delivers every row of the
    window. *)
Theorem readgrid_3dvar_fft_returns gf m name yread ydest ysize xread xdest xsize
    var c :
  0 <= yread -> 0 <= ydest -> 0 <= ysize -> 0 <= xread -> 0 <= xdest -> 0 <= xsize ->
  List.length (getSize (file gf) name) = 3%nat ->
  xdest + xsize <= LocalNx m -> ydest + ysize <= LocalNy m ->
  1 <= nth 2 (getSize (file gf) name) 0 ->
  1 <= zperiod m ->
  (forall jx jy, xread <= jx < xread + xsize -> yread <= jy < yread + ysize ->
     read_real (file gf) (jx, jy, 0) name 1 1 (nth 2 (getSize (file gf) name) 0)
       <> None) ->
  exists var',
    readgrid_3dvar_fft gf m name yread ydest ysize xread xdest xsize var c
    = (Ok (true, var'), origin0).
Proof.
  intros Hyr Hyd Hys Hxr Hxd Hxs Hlen Hx Hy Hsize Hzp Hread.
  rewrite fft_reader_report_defined by lia.
  rewrite bad_arguments_false, Hlen by assumption.
  change (negb (Nat.eqb 3 3)) with false. cbv iota zeta.
  destruct (for_each_until_runs
              (fun jx var => for_each_until (range yread ysize)
                 (fft_row gf m name (nth 2 (getSize (file gf) name) 0)
                    (Z.quot (nth 2 (getSize (file gf) name) 0 - 1) 2)
                    yread ydest xread xdest jx) var)
              (range xread xsize)) with (v := var) (c := c) as (v' & c' & Hl).
  - intros jx Hjx. apply in_range in Hjx. apply for_each_until_runs.
    intros jy Hjy v0 c0. apply in_range in Hjy.
    unfold fft_row, bind, setGlobalOrigin, file_read_real, lift, ret. cbv zeta.
    specialize (Hread jx jy Hjx Hjy).
    destruct (read_real _ _ _ _ _ _) as [d|]; [|contradiction].
    destruct (load_fdata_in_bounds d (nth 2 (getSize (file gf) name) 0)
                (LocalNz m) (zperiod m) Hsize Hzp) as (fdata & ->).
    destruct (store_z_in_field m v0 (jx - xread + xdest) (jy - yread + ydest)
                (LocalNz m) (irfft fdata (LocalNz m)))
      as (v1 & ->); try lia.
    eauto.
  - exists v'. unfold bind. rewrite Hl. reflexivity.
Qed.

Lemma readgrid_3dvar_fft_returns_witness :
  exists var',
    readgrid_3dvar_fft file_3d_fft mesh_plain "phi" 0 0 2 0 0 3 (fill 0%R)
      (5, 5, 5) = (Ok (true, var'), origin0).
Proof.
  apply (readgrid_3dvar_fft_returns file_3d_fft mesh_plain "phi" 0 0 2 0 0 3
           (fill 0%R) (5, 5, 5)); try (simpl; lia); try reflexivity.
  - rewrite zperiod_full_circle by reflexivity. lia.
  - intros jx jy _ _. simpl. discriminate.
Defined.

(** ** The spectral reader on a long domain *)

(** [ROUND] of a positive number below one half is 0. *)
Lemma ROUND_small x : (0 < x < / 2)%R -> ROUND x = 0.
Proof.
  intros [H0 H1]. unfold ROUND. destruct (Rlt_dec 0 x) as [Hx|Hx]; [|contradiction].
  rewrite <- (tech_up (x + / 2) 1).
  - reflexivity.
  - simpl. lra.
  - simpl. lra.
Qed.

Lemma zperiod_long_domain m : (4 * PI < zlength m)%R -> zperiod m = 0.
Proof.
  intros H. unfold zperiod, TWOPI. apply ROUND_small.
  pose proof PI_RGT_0 as Hpi.
  assert (Hz : (0 < zlength m)%R) by lra.
  split.
  - apply Rdiv_lt_0_compat; lra.
  - apply (Rmult_lt_reg_r (zlength m)); [exact Hz|].
    unfold Rdiv. rewrite Rmult_assoc, Rinv_l by lra. lra.
Qed.

(** X21: on a mesh whose periodic coordinate is longer than 4 pi,
    [zperiod] is 0, and the spectral reader, called with arguments that are
    not negative for a variable stored with three extents and at least one
    value per row, divides by zero in its report of the modes: it reads no
    row, and leaves the cursor where it was. *)
Theorem readgrid_3dvar_fft_long_domain gf m name yread ydest ysize xread xdest xsize
    var c :
  (4 * PI < zlength m)%R ->
  0 <= yread -> 0 <= ydest -> 0 <= ysize -> 0 <= xread -> 0 <= xdest -> 0 <= xsize ->
  List.length (getSize (file gf) name) = 3%nat ->
  1 <= nth 2 (getSize (file gf) name) 0 ->
  zperiod m = 0
  /\ readgrid_3dvar_fft gf m name yread ydest ysize xread xdest xsize var c
     = (Fault, c).
Proof.
  intros Hz Hyr Hyd Hys Hxr Hxd Hxs Hlen Hsize.
  apply zperiod_long_domain in Hz. split; [exact Hz|].
  unfold readgrid_3dvar_fft.
  rewrite bad_arguments_false, Hlen by assumption.
  change (negb (Nat.eqb 3 3)) with false. cbv iota zeta.
  unfold bind, lift, modes_reported, int_div. rewrite Hz.
  replace (0 >? Z.quot (nth 2 (getSize (file gf) name) 0 - 1) 2) with false;
    [reflexivity|].
  symmetry. rewrite Z.gtb_ltb. apply Z.ltb_ge, Z.quot_pos; lia.
Qed.

Lemma readgrid_3dvar_fft_long_domain_witness :
  readgrid_3dvar_fft file_3d_fft mesh_long "phi" 0 0 2 0 0 3 (fill 0%R) (5, 5, 5)
  = (Fault, (5, 5, 5)).
Proof.
  apply (readgrid_3dvar_fft_long_domain file_3d_fft mesh_long "phi" 0 0 2 0 0 3
           (fill 0%R) (5, 5, 5)); try (simpl; lia); try reflexivity.
  simpl. pose proof PI_4. lra.
Defined.

(** ** A 3-D variable in real space, end to end *)

(** X18: a load of a 3-D variable from a file marked as real space that
    returns true has, in every interior cell (i, j, k) that lies in the
    window, value [k] of the row the backend delivered for global column
    [OffsetX + (i - xd)] and global row [ys + (j - yd)]. *)
Theorem getField_3d_real_interior CHECK gf m var name def c var' c' :
  getField CHECK gf Field3D m var name def c = (Ok (true, var'), c') ->
  List.length (getSize (file gf) name) = 3%nat ->
  hasVar gf "nz" = true ->
  forall i j k,
    xstart m <= i <= xend m -> ystart m <= j <= yend m ->
    x_dest m (getSize (file gf) name) <= i
      < x_dest m (getSize (file gf) name) + LocalNx m ->
    y_dest gf m <= j < y_dest gf m + y_count gf m ->
    0 <= k < LocalNz m ->
    exists stored,
      read_real (file gf)
        (OffsetX m + (i - x_dest m (getSize (file gf) name)),
         y_source gf m + (j - y_dest gf m), 0)
        name 1 1 (LocalNz m) = Some stored
      /\ var' i j k = stored k.
Proof.
  intros H Hlen Hnz i j k Hi Hj Hwi Hwj Hk.
  destruct (getField_steps _ _ _ _ _ _ _ _ _ _ H (or_intror Hlen))
    as (var1 & var2 & c1 & c2 & Hread & Hex & Hey).
  simpl in Hread. unfold readField3D in Hread. rewrite Hnz, Hlen in Hread.
  change (3 <=? 2)%nat with false in Hread. cbv iota in Hread.
  destruct (nth 2 (getSize (file gf) name) 0 =? LocalNz m) eqn:Esz;
    [|discriminate].
  apply Z.eqb_eq in Esz. simpl in Hread.
  apply bind_Ok in Hread. destruct Hread as ([b v] & c0 & Hr & Hread).
  simpl in Hread. destruct b; [|discriminate].
  apply ret_Ok in Hread. destruct Hread as [-> _].
  destruct (readgrid_3dvar_real_rows _ _ _ _ _ _ _ _ _ _ _ _ _ Hr
              (OffsetX m + (i - x_dest m (getSize (file gf) name)))
              (y_source gf m + (j - y_dest gf m)))
    as (stored & Hs & Hv); try lia.
  rewrite Esz in Hs, Hv. exists stored. split; [exact Hs|].
  assert (E2 : var' i j k = var2 i j k).
  { destruct (grid_yguards gf =? 0).
    - apply (extrapolate_y_interior _ _ _ _ _ _ Hey). exact Hj.
    - apply ret_Ok in Hey. destruct Hey as [-> _]. reflexivity. }
  assert (E1 : var2 i j k = v i j k).
  { destruct (_ =? _).
    - apply (extrapolate_x_interior _ _ _ _ _ _ Hex). exact Hi.
    - apply ret_Ok in Hex. destruct Hex as [-> _]. reflexivity. }
  rewrite E2, E1, <- (Hv k Hk). f_equal; lia.
Qed.

Lemma getField_3d_real_interior_witness :
  exists stored,
    read_real (file file_3d_real) (2, 1, 0) "phi" 1 1 4 = Some stored
    /\ snd (result (getField 1 file_3d_real Field3D mesh_plain (fill 0%R) "phi"
                      0%R origin0) (false, fill 0%R)) 2 1 3 = stored 3.
Proof.
  assert (Hrun : exists a c,
             getField 1 file_3d_real Field3D mesh_plain (fill 0%R) "phi" 0%R
               origin0 = (Ok (true, a), c))
    by (vm_compute; eexists; eexists; reflexivity).
  apply (Ok_true_result _ (false, fill 0%R)) in Hrun.
  apply (getField_3d_real_interior 1 file_3d_real mesh_plain (fill 0%R) "phi" 0%R
           origin0 _ _ Hrun eq_refl eq_refl 2 1 3);
    vm_compute; split; first [discriminate | reflexivity].
Defined.
